(** * Blogicum: visibility and authorization policy of the blog views

    A shallow embedding of [blog/models.py], [blog/forms.py], [blog/urls.py]
    and [blog/views.py].  Tables are lists of rows, timestamps and primary
    keys are integers, [timezone.now()] is threaded as an explicit argument,
    exceptions are an error monad, and the views that write to the database
    return the new store next to their outcome.

    The views inherit their control flow from Django's generic views,
    [LoginRequiredMixin] and [Paginator]; the parts of those classes that
    the views run through are written out here as Django defines them. *)

From Stdlib Require Import String Ascii.
From Stdlib Require Import List ZArith Bool Lia Permutation Sorted.
From Stdlib Require Decimal DecimalString DecimalZ.
Import ListNotations.
Open Scope Z_scope.

(** ** blog/models.py *)

Module User.
Record t := { pk : Z; username : string }.
End User.

(** [BaseModel] contributes [is_published] and [created_at] to every model. *)

Module Category.
Record t := {
  pk : Z;
  is_published : bool;
  created_at : Z;
  title : string;
  description : string;
  slug : string
}.
End Category.

Module Location.
Record t := {
  pk : Z;
  is_published : bool;
  created_at : Z;
  name : string
}.
End Location.

Module Post.
Record t := {
  pk : Z;
  is_published : bool;
  created_at : Z;
  title : string;
  text : string;
  pub_date : Z;
  image : string;
  author : Z;                 (* ForeignKey(User, on_delete=CASCADE) *)
  location : option Z;        (* ForeignKey(Location, SET_NULL, null=True) *)
  category : option Z         (* ForeignKey(Category, SET_NULL, null=True) *)
}.

(** [Post.is_visible] *)
Definition is_visible (now : Z) (self : t) : bool :=
  is_published self && (pub_date self <=? now).
End Post.

Module Comment.
Record t := {
  pk : Z;
  is_published : bool;
  created_at : Z;             (* Meta.ordering = ('created_at',) *)
  text : string;
  post : Z;                   (* ForeignKey(Post, CASCADE, related_name='comments') *)
  author : Z                  (* ForeignKey(User, CASCADE) *)
}.
End Comment.

(** The database: one list of rows per table. *)
Record Store := {
  users : list User.t;
  categories : list Category.t;
  locations : list Location.t;
  posts : list Post.t;
  comments : list Comment.t
}.

(** ** Exceptions *)

Inductive exn :=
| Http404 (msg : string)
| DoesNotExist
| MultipleObjectsReturned
| PageNotAnInteger
| EmptyPage
| TypeError.

Inductive result (A : Type) :=
| Return (a : A)
| Raise (e : exn).
Arguments Return {A} a.
Arguments Raise {A} e.

Definition bind {A B} (m : result A) (k : A -> result B) : result B :=
  match m with
  | Return a => k a
  | Raise e => Raise e
  end.

Notation "x <- m ;; k" := (bind m (fun x => k))
  (at level 61, m at next level, right associativity).

(** ** Query sets *)

(** [QuerySet.get()]: exactly one row, or an exception. *)
Definition QuerySet_get {A} (qs : list A) : result A :=
  match qs with
  | [] => Raise DoesNotExist
  | [a] => Return a
  | _ :: _ :: _ => Raise MultipleObjectsReturned
  end.

(** [get_object_or_404]: only [DoesNotExist] becomes [Http404]. *)
Definition get_object_or_404 {A} (model : string) (qs : list A) : result A :=
  match QuerySet_get qs with
  | Raise DoesNotExist =>
      Raise (Http404 ("No " ++ model ++ " matches the given query.")%string)
  | r => r
  end.

Definition pk_eqb (a b : Z) : bool := a =? b.

Definition fk_eqb (fk : option Z) (k : Z) : bool :=
  match fk with
  | Some j => j =? k
  | None => false
  end.

(** Following a foreign key from a loaded row fetches the row it names. *)
Definition Post_author (s : Store) (p : Post.t) : result User.t :=
  QuerySet_get (filter (fun u => pk_eqb (User.pk u) (Post.author p)) (users s)).

Definition Post_category (s : Store) (p : Post.t) : result (option Category.t) :=
  match Post.category p with
  | None => Return None
  | Some k =>
      c <- QuerySet_get (filter (fun c => pk_eqb (Category.pk c) k) (categories s)) ;;
      Return (Some c)
  end.

Definition Comment_author (s : Store) (c : Comment.t) : result User.t :=
  QuerySet_get (filter (fun u => pk_eqb (User.pk u) (Comment.author c)) (users s)).

Definition Comment_post (s : Store) (c : Comment.t) : result Post.t :=
  QuerySet_get (filter (fun p => pk_eqb (Post.pk p) (Comment.post c)) (posts s)).

(** [order_by]: a stable insertion sort; [le x y] says that [x] may come
    before [y]. *)
Fixpoint insert_by {A} (le : A -> A -> bool) (x : A) (l : list A) : list A :=
  match l with
  | [] => [x]
  | y :: l' => if le x y then x :: l else y :: insert_by le x l'
  end.

Definition sort_by {A} (le : A -> A -> bool) (l : list A) : list A :=
  fold_right (insert_by le) [] l.

Definition asc {A} (key : A -> Z) (x y : A) : bool := key x <=? key y.
Definition desc {A} (key : A -> Z) (x y : A) : bool := key y <=? key x.

Definition order_by {A} (le : A -> A -> bool) (qs : list A) : list A :=
  sort_by le qs.

(** A post loaded with [select_related('category', 'author', 'location')]:
    the row together with the rows its foreign keys name. *)
Record LoadedPost := {
  row : Post.t;
  author_obj : User.t;
  category_obj : option Category.t;
  location_obj : option Location.t
}.

(** The rows a nullable foreign key joins to: a LEFT OUTER JOIN keeps the
    post, with [None], when no row matches. *)
Definition left_matches {B} (on : B -> bool) (table : list B) : list (option B) :=
  match filter on table with
  | [] => [None]
  | m => map Some m
  end.

(** [select_related('category', 'author', 'location')]: INNER JOIN on the
    author, which is not nullable, LEFT OUTER JOIN on the other two. *)
Definition select_related (s : Store) (qs : list Post.t) : list LoadedPost :=
  flat_map (fun p =>
    flat_map (fun u =>
      flat_map (fun c =>
        map (fun l =>
               {| row := p; author_obj := u; category_obj := c; location_obj := l |})
            (left_matches (fun l => fk_eqb (Post.location p) (Location.pk l))
                          (locations s)))
        (left_matches (fun c => fk_eqb (Post.category p) (Category.pk c))
                      (categories s)))
      (filter (fun u => pk_eqb (User.pk u) (Post.author p)) (users s))) qs.

(** [filter(category__is_published=True)] on loaded posts: a post without a
    category row does not pass. *)
Definition category__is_published (o : LoadedPost) : bool :=
  match category_obj o with
  | Some c => Category.is_published c
  | None => false
  end.

(** [filter(category__slug=category_slug)] *)
Definition category__slug (category_slug : string) (o : LoadedPost) : bool :=
  match category_obj o with
  | Some c => String.eqb (Category.slug c) category_slug
  | None => false
  end.

(** [Count('comments')] for one post. *)
Definition Count_comments (s : Store) (p : Post.t) : nat :=
  length (filter (fun c => pk_eqb (Comment.post c) (Post.pk p)) (comments s)).

(** [annotate(comment_count=Count('comments'))] *)
Definition annotate_comment_count {A} (s : Store) (post_of : A -> Post.t)
    (qs : list A) : list (A * nat) :=
  map (fun o => (o, Count_comments s (post_of o))) qs.

(** [post.comments]: the reverse relation, in the default ordering of
    [Comment.Meta]. *)
Definition Post_comments (s : Store) (p : Post.t) : list Comment.t :=
  order_by (asc Comment.created_at)
    (filter (fun c => pk_eqb (Comment.post c) (Post.pk p)) (comments s)).

(** [select_related('author')] on comments: the inner join with the user
    table, so that every row comes with its author. *)
Definition select_related_author (s : Store) (qs : list Comment.t)
  : list (Comment.t * User.t) :=
  flat_map (fun c =>
    map (fun u => (c, u))
        (filter (fun u => pk_eqb (User.pk u) (Comment.author c)) (users s))) qs.

(** ** django.core.paginator *)

(** The [page] query parameter as [int()] and the comparison with ['last']
    classify it. *)
Inductive PageParam :=
| PageMissing               (* absent, or the empty string *)
| PageInt (n : Z)
| PageLast                  (* the string 'last' *)
| PageOther.                (* any other text *)

Module Page.
Record t (A : Type) := {
  object_list : list A;
  number : Z;
  num_pages : Z               (* [paginator.num_pages] *)
}.
Arguments object_list {A} _.
Arguments number {A} _.
Arguments num_pages {A} _.
End Page.

Module Paginator.
(** [orphans = 0] and [allow_empty_first_page = True], the defaults. *)
Record t (A : Type) := { object_list : list A; per_page : Z }.
Arguments object_list {A} _.
Arguments per_page {A} _.

Definition count {A} (self : t A) : Z := Z.of_nat (length (object_list self)).

(** [ceil(hits / per_page)] with [hits = max(1, count - orphans)] *)
Definition num_pages {A} (self : t A) : Z :=
  let hits := Z.max 1 (count self - 0) in
  (hits + per_page self - 1) / per_page self.

Definition validate_number {A} (self : t A) (number : PageParam) : result Z :=
  match number with
  | PageInt n =>
      if n <? 1 then Raise EmptyPage
      else if n >? num_pages self then
        (if n =? 1 then Return n else Raise EmptyPage)
      else Return n
  | _ => Raise PageNotAnInteger
  end.

(** [object_list[bottom:top]] *)
Definition slice {A} (l : list A) (bottom top : Z) : list A :=
  firstn (Z.to_nat (top - bottom)) (skipn (Z.to_nat bottom) l).

Definition page {A} (self : t A) (number : PageParam) : result (Page.t A) :=
  n <- validate_number self number ;;
  let bottom := (n - 1) * per_page self in
  let top := bottom + per_page self in
  let top := if top + 0 >=? count self then count self else top in
  Return {| Page.object_list := slice (object_list self) bottom top;
            Page.number := n;
            Page.num_pages := num_pages self |}.

(** [get_page]: out of range gives the last page, anything that is not a
    number the first. *)
Definition get_page {A} (self : t A) (number : PageParam) : result (Page.t A) :=
  match validate_number self number with
  | Return n => page self (PageInt n)
  | Raise PageNotAnInteger => page self (PageInt 1)
  | Raise EmptyPage => page self (PageInt (num_pages self))
  | Raise e => Raise e
  end.
End Paginator.

(** [MultipleObjectMixin.paginate_queryset] *)
Definition paginate_queryset {A} (queryset : list A) (page_size : Z)
    (page : PageParam) : result (Page.t A) :=
  let paginator := {| Paginator.object_list := queryset;
                      Paginator.per_page := page_size |} in
  page_number <-
    match page with
    | PageMissing => Return 1
    | PageInt n => Return n
    | PageLast => Return (Paginator.num_pages paginator)
    | PageOther =>
        Raise (Http404 "Page is not last, nor can it be converted to an int.")
    end ;;
  match Paginator.page paginator (PageInt page_number) with
  | Return p => Return p
  | Raise _ => Raise (Http404 "Invalid page")
  end.

(** ** blog/forms.py and the model forms of the generic views *)

(** Whitespace as [str.strip()] removes it, restricted to ASCII. *)
Definition is_space (c : ascii) : bool :=
  let n := nat_of_ascii c in
  (Nat.eqb n 32 || (Nat.leb 9 n && Nat.leb n 13) || (Nat.leb 28 n && Nat.leb n 31))%bool.

Fixpoint lstrip (v : list ascii) : list ascii :=
  match v with
  | c :: v' => if is_space c then lstrip v' else v
  | [] => []
  end.

Definition strip (v : string) : string :=
  string_of_list_ascii
    (rev (lstrip (rev (lstrip (list_ascii_of_string v))))).

Definition has_null (v : string) : bool :=
  existsb (fun c => Nat.eqb (nat_of_ascii c) 0) (list_ascii_of_string v).

(** A required [CharField]: stripped, not empty, no null character, and not
    longer than [max_length] when the model gives one. *)
Definition clean_char (max_length : option nat) (v : string) : option string :=
  let v := strip v in
  if String.eqb v "" then None
  else if has_null v then None
  else match max_length with
       | Some m => if Nat.leb (String.length v) m then Some v else None
       | None => Some v
       end.

Module CommentForm.
(** [fields = ('text',)] *)
Record data := { text : string }.

Definition clean (d : data) : option string := clean_char None (text d).

End CommentForm.

Module PostModelForm.
(** The form [UpdateView] builds for [fields = '__all__']: every editable
    field of [Post]. *)
Record data := {
  is_published : bool;
  title : string;
  text : string;
  pub_date : option Z;          (* [None]: not a date *)
  image : option string;        (* [None]: keep the stored file *)
  author : option Z;
  location : option Z;
  category : option Z
}.

Definition exists_pk {A} (pk_of : A -> Z) (table : list A) (k : Z) : bool :=
  existsb (fun r => pk_eqb (pk_of r) k) table.

(** The instance the form would save, when every field validates. *)
Definition clean (s : Store) (instance : Post.t) (d : data) : option Post.t :=
  match clean_char (Some 256%nat) (title d), clean_char None (text d),
        pub_date d, author d, category d with
  | Some title', Some text', Some pub_date', Some author', Some category' =>
      if exists_pk User.pk (users s) author'
         && exists_pk Category.pk (categories s) category'
         && match location d with
            | Some l => exists_pk Location.pk (locations s) l
            | None => true
            end
      then Some {| Post.pk := Post.pk instance;
                   Post.is_published := is_published d;
                   Post.created_at := Post.created_at instance;
                   Post.title := title';
                   Post.text := text';
                   Post.pub_date := pub_date';
                   Post.image := match image d with
                                 | Some f => f
                                 | None => Post.image instance
                                 end;
                   Post.author := author';
                   Post.location := location d;
                   Post.category := Some category' |}
      else None
  | _, _, _, _, _ => None
  end.
End PostModelForm.

(** ** Writing to the store *)

Definition save_post (s : Store) (p : Post.t) : Store :=
  {| users := users s;
     categories := categories s;
     locations := locations s;
     posts := map (fun q => if pk_eqb (Post.pk q) (Post.pk p) then p else q) (posts s);
     comments := comments s |}.

(** [post.delete()]: the comments go with the post ([on_delete=CASCADE]). *)
Definition delete_post (s : Store) (p : Post.t) : Store :=
  {| users := users s;
     categories := categories s;
     locations := locations s;
     posts := filter (fun q => negb (pk_eqb (Post.pk q) (Post.pk p))) (posts s);
     comments := filter (fun c => negb (pk_eqb (Comment.post c) (Post.pk p)))
                        (comments s) |}.

Definition save_comment (s : Store) (c : Comment.t) : Store :=
  {| users := users s;
     categories := categories s;
     locations := locations s;
     posts := posts s;
     comments := map (fun d => if pk_eqb (Comment.pk d) (Comment.pk c) then c else d)
                     (comments s) |}.

Definition delete_comment (s : Store) (c : Comment.t) : Store :=
  {| users := users s;
     categories := categories s;
     locations := locations s;
     posts := posts s;
     comments := filter (fun d => negb (pk_eqb (Comment.pk d) (Comment.pk c)))
                        (comments s) |}.

(** ** blog/urls.py *)

Module blog.
Inductive Route :=
| index
| delete_post (pk : Z)
| edit_comment (pk comment_id : Z)
| delete_comment (pk comment_id : Z)
| edit_post (pk : Z)
| add_comment (pk : Z)
| post_detail (pk : Z)
| create_post
| category_posts (category_slug : string)
| edit_profile
| profile (username : string).
End blog.

Inductive Url :=
| reverse (viewname : blog.Route)
| login (next : blog.Route).      (* [settings.LOGIN_URL] with [?next=] *)

(** ** Requests and responses *)

Inductive Method := GET | POST.

(** [request.user] *)
Inductive RequestUser :=
| AnonymousUser
| LoggedIn (u : User.t).

Record HttpRequest (B : Type) := {
  method : Method;
  user : RequestUser;
  page : PageParam;               (* [request.GET.get('page')] *)
  body : B                        (* [request.POST] *)
}.
Arguments method {B} _.
Arguments user {B} _.
Arguments page {B} _.
Arguments body {B} _.

(** What each template is rendered with. *)
Inductive Context :=
| index_html (page_obj : Page.t (LoadedPost * nat))
| category_html (category : Category.t) (page_obj : Page.t LoadedPost)
| detail_html (object : LoadedPost) (comments : list (Comment.t * User.t))
| profile_html (profile : User.t) (page_obj : Page.t (Post.t * nat))
| create_html (object : Post.t) (form_errors : bool)
| comment_html (object : Comment.t).

Inductive HttpResponse :=
| TemplateResponse (context : Context)
| HttpResponseRedirect (url : Url)
| HttpResponseNotAllowed.

Definition redirect (to : blog.Route) : HttpResponse :=
  HttpResponseRedirect (reverse to).

(** [request.user == u]: model instances are equal when their primary keys
    are; [AnonymousUser] equals no row. *)
Definition user_eqb (request_user : RequestUser) (u : User.t) : bool :=
  match request_user with
  | LoggedIn v => pk_eqb (User.pk v) (User.pk u)
  | AnonymousUser => false
  end.

Definition is_authenticated (request_user : RequestUser) : bool :=
  match request_user with
  | LoggedIn _ => true
  | AnonymousUser => false
  end.

(** [LoginRequiredMixin.dispatch]: [handle_no_permission] sends a visitor
    who is not logged in to the login page. *)
Definition LoginRequiredMixin_dispatch {B R} (request : HttpRequest B)
    (handle_no_permission : R) (super_dispatch : R) : R :=
  if negb (is_authenticated (user request)) then handle_no_permission
  else super_dispatch.

Definition handle_no_permission (path : blog.Route) : HttpResponse :=
  HttpResponseRedirect (login path).

(** [SingleObjectMixin.get_object]: the row of the query set with this key. *)
Definition get_object {A} (model : string) (key : A -> bool) (queryset : list A)
  : result A :=
  get_object_or_404 model (filter key queryset).

(** Sequencing in a view that also returns the store: an exception leaves
    the store as it is at that point. *)
Definition bind_st {A B} (s : Store) (m : result A)
    (k : A -> result B * Store) : result B * Store :=
  match m with
  | Return a => k a
  | Raise e => (Raise e, s)
  end.

Notation "x <-[ s ] m ;; k" := (bind_st s m (fun x => k))
  (at level 61, m at next level, right associativity).

(** ** blog/views.py *)

Definition POSTS_ON_PAGE : Z := 10.

Definition pub_date_of (o : LoadedPost) : Z := Post.pub_date (row o).

(** *** CategoryListView *)

Definition CategoryListView_get_queryset (s : Store) (current_time : Z)
    (category_slug : string) : list LoadedPost :=
  order_by (desc pub_date_of)
    (filter (fun o => category__slug category_slug o
                      && Post.is_published (row o)
                      && (Post.pub_date (row o) <=? current_time))
            (select_related s (posts s))).

Definition CategoryListView_get {B} (s : Store) (request : HttpRequest B)
    (current_time : Z) (category_slug : string) : result HttpResponse :=
  category <- get_object_or_404 "Category"
                (filter (fun c => String.eqb (Category.slug c) category_slug)
                        (categories s)) ;;
  if negb (Category.is_published category) then
    Raise (Http404 "category is not published")
  else
    page_obj <- paginate_queryset
                  (CategoryListView_get_queryset s current_time category_slug)
                  POSTS_ON_PAGE (page request) ;;
    Return (TemplateResponse (category_html category page_obj)).

Definition CategoryListView_as_view {B} (s : Store) (request : HttpRequest B)
    (current_time : Z) (category_slug : string) : result HttpResponse :=
  LoginRequiredMixin_dispatch request
    (Return (handle_no_permission (blog.category_posts category_slug)))
    (match method request with
     | GET => CategoryListView_get s request current_time category_slug
     | POST => Return HttpResponseNotAllowed
     end).

(** *** PostListView *)

Definition PostListView_get_queryset (s : Store) (current_time : Z)
  : list (LoadedPost * nat) :=
  order_by (desc (fun a => pub_date_of (fst a)))
    (annotate_comment_count s row
       (filter (fun o => Post.is_published (row o)
                         && (Post.pub_date (row o) <=? current_time)
                         && category__is_published o)
               (select_related s (posts s)))).

Definition PostListView_get {B} (s : Store) (request : HttpRequest B)
    (current_time : Z) : result HttpResponse :=
  page_obj <- paginate_queryset (PostListView_get_queryset s current_time)
                10 (page request) ;;
  Return (TemplateResponse (index_html page_obj)).

Definition PostListView_as_view {B} (s : Store) (request : HttpRequest B)
    (current_time : Z) : result HttpResponse :=
  match method request with
  | GET => PostListView_get s request current_time
  | POST => Return HttpResponseNotAllowed
  end.

(** The posts of an annotated query set. *)
Definition listed_posts (qs : list (LoadedPost * nat)) : list Post.t :=
  map (fun a => row (fst a)) qs.

(** *** PostDetailView *)

Definition PostDetailView_get_queryset (s : Store) : list LoadedPost :=
  select_related s (posts s).

Definition PostDetailView_get_context_data (s : Store) (object : LoadedPost)
  : Context :=
  detail_html object (select_related_author s (Post_comments s (row object))).

Definition PostDetailView_get {B} (s : Store) (request : HttpRequest B)
    (current_time : Z) (pk : Z) : result HttpResponse :=
  object <- get_object "Post" (fun o => pk_eqb (Post.pk (row o)) pk)
              (PostDetailView_get_queryset s) ;;
  if (Post.pub_date (row object) >? current_time)
     || negb (Post.is_published (row object))
     || match category_obj object with
        | Some category => negb (Category.is_published category)
        | None => false
        end
  then
    if negb (user_eqb (user request) (author_obj object)) then
      Raise (Http404 "This post is not available.")
    else Return (TemplateResponse (PostDetailView_get_context_data s object))
  else Return (TemplateResponse (PostDetailView_get_context_data s object)).

Definition PostDetailView_as_view {B} (s : Store) (request : HttpRequest B)
    (current_time : Z) (pk : Z) : result HttpResponse :=
  LoginRequiredMixin_dispatch request
    (Return (handle_no_permission (blog.post_detail pk)))
    (match method request with
     | GET => PostDetailView_get s request current_time pk
     | POST => Return HttpResponseNotAllowed
     end).

(** *** PostUpdateView *)

(** What [UpdateView] does once [dispatch] lets the request through. *)
Definition PostUpdateView_super_dispatch (s : Store)
    (request : HttpRequest PostModelForm.data) (pk : Z)
  : result HttpResponse * Store :=
  LoginRequiredMixin_dispatch request
    (Return (handle_no_permission (blog.edit_post pk)), s)
    (object <-[s] get_object "Post" (fun p => pk_eqb (Post.pk p) pk) (posts s) ;;
     match method request with
     | GET => (Return (TemplateResponse (create_html object false)), s)
     | POST =>
         match PostModelForm.clean s object (body request) with
         | Some object' =>
             (Return (redirect (blog.post_detail (Post.pk object'))),
              save_post s object')
         | None => (Return (TemplateResponse (create_html object true)), s)
         end
     end).

Definition PostUpdateView_dispatch (s : Store)
    (request : HttpRequest PostModelForm.data) (pk : Z)
  : result HttpResponse * Store :=
  instance <-[s] get_object_or_404 "Post"
                   (filter (fun p => pk_eqb (Post.pk p) pk) (posts s)) ;;
  author <-[s] Post_author s instance ;;
  if negb (user_eqb (user request) author) then
    (Return (redirect (blog.post_detail pk)), s)
  else PostUpdateView_super_dispatch s request pk.

(** *** PostDeleteView *)

Definition PostDeleteView_super_dispatch {B} (s : Store)
    (request : HttpRequest B) (pk : Z) : result HttpResponse * Store :=
  LoginRequiredMixin_dispatch request
    (Return (handle_no_permission (blog.delete_post pk)), s)
    (object <-[s] get_object "Post" (fun p => pk_eqb (Post.pk p) pk) (posts s) ;;
     match method request with
     | GET => (Return (TemplateResponse (create_html object false)), s)
     | POST => (Return (redirect blog.index), delete_post s object)
     end).

Definition PostDeleteView_dispatch {B} (s : Store) (request : HttpRequest B)
    (pk : Z) : result HttpResponse * Store :=
  post <-[s] get_object_or_404 "Post"
               (filter (fun p => pk_eqb (Post.pk p) pk) (posts s)) ;;
  author <-[s] Post_author s post ;;
  if negb (user_eqb (user request) author) then
    (Return (redirect (blog.post_detail pk)), s)
  else PostDeleteView_super_dispatch s request pk.

(** *** ProfileDetailView *)

(** The query set [user_posts] of [get_context_data]. *)
Definition user_posts (s : Store) (object : User.t) : list (Post.t * nat) :=
  order_by (desc (fun a => Post.pub_date (fst a)))
    (annotate_comment_count s (fun p => p)
       (filter (fun p => pk_eqb (Post.author p) (User.pk object)) (posts s))).

(** The query set [posts] that [get_context_data] hands to the paginator. *)
Definition ProfileDetailView_posts (s : Store) (request_user : RequestUser)
    (now : Z) (object : User.t) : list (Post.t * nat) :=
  if negb (user_eqb request_user object) then
    filter (fun a => Post.is_published (fst a) && (Post.pub_date (fst a) <=? now))
           (user_posts s object)
  else user_posts s object.

Definition ProfileDetailView_get {B} (s : Store) (request : HttpRequest B)
    (now : Z) (username : string) : result HttpResponse :=
  object <- get_object "User" (fun u => String.eqb (User.username u) username)
              (users s) ;;
  let posts := ProfileDetailView_posts s (user request) now object in
  let paginator := {| Paginator.object_list := posts; Paginator.per_page := 10 |} in
  page_obj <- Paginator.get_page paginator (page request) ;;
  Return (TemplateResponse (profile_html object page_obj)).

Definition ProfileDetailView_as_view {B} (s : Store) (request : HttpRequest B)
    (now : Z) (username : string) : result HttpResponse :=
  match method request with
  | GET => ProfileDetailView_get s request now username
  | POST => Return HttpResponseNotAllowed
  end.

(** *** CommentUpdateView *)

(** [Comment.objects.filter(author=self.request.user)]; the lookup does not
    take an [AnonymousUser]. *)
Definition CommentUpdateView_get_queryset {B} (s : Store)
    (request : HttpRequest B) : result (list Comment.t) :=
  match user request with
  | LoggedIn u =>
      Return (filter (fun c => pk_eqb (Comment.author c) (User.pk u)) (comments s))
  | AnonymousUser => Raise TypeError
  end.

Definition CommentUpdateView_get_object {B} (s : Store)
    (request : HttpRequest B) (comment_id : Z) : result Comment.t :=
  queryset <- CommentUpdateView_get_queryset s request ;;
  get_object "Comment" (fun c => pk_eqb (Comment.pk c) comment_id) queryset.

Definition CommentUpdateView_form_invalid : result HttpResponse :=
  Raise (Http404 "you are not author!").

Definition CommentUpdateView_as_view (s : Store)
    (request : HttpRequest CommentForm.data) (pk comment_id : Z)
  : result HttpResponse * Store :=
  LoginRequiredMixin_dispatch request
    (Return (handle_no_permission (blog.edit_comment pk comment_id)), s)
    (object <-[s] CommentUpdateView_get_object s request comment_id ;;
     match method request with
     | GET => (Return (TemplateResponse (comment_html object)), s)
     | POST =>
         match CommentForm.clean (body request) with
         | Some text' =>
             let object' :=
               {| Comment.pk := Comment.pk object;
                  Comment.is_published := Comment.is_published object;
                  Comment.created_at := Comment.created_at object;
                  Comment.text := text';
                  Comment.post := Comment.post object;
                  Comment.author := Comment.author object |} in
             let s' := save_comment s object' in
             post <-[s'] Comment_post s' object' ;;
             (Return (redirect (blog.post_detail (Post.pk post))), s')
         | None => (CommentUpdateView_form_invalid, s)
         end
     end).

(** *** CommentDeleteView *)

Definition CommentDeleteView_get_queryset {B} (s : Store)
    (request : HttpRequest B) : result (list Comment.t) :=
  match user request with
  | LoggedIn u =>
      Return (filter (fun c => pk_eqb (Comment.author c) (User.pk u)) (comments s))
  | AnonymousUser => Raise TypeError
  end.

Definition CommentDeleteView_get_object {B} (s : Store)
    (request : HttpRequest B) (comment_id : Z) : result Comment.t :=
  queryset <- CommentDeleteView_get_queryset s request ;;
  get_object "Comment" (fun c => pk_eqb (Comment.pk c) comment_id) queryset.

(** [delete], to which [DeletionMixin.post] hands the request. *)
Definition CommentDeleteView_delete {B} (s : Store) (request : HttpRequest B)
    (pk comment_id : Z) : result HttpResponse * Store :=
  comment <-[s] CommentDeleteView_get_object s request comment_id ;;
  author <-[s] Comment_author s comment ;;
  if negb (user_eqb (user request) author) then
    (Raise (Http404 "you are not author!"), s)
  else
    (* super().delete *)
    object <-[s] CommentDeleteView_get_object s request comment_id ;;
    let success_url := reverse (blog.post_detail pk) in
    (Return (HttpResponseRedirect success_url), delete_comment s object).

Definition CommentDeleteView_as_view {B} (s : Store) (request : HttpRequest B)
    (pk comment_id : Z) : result HttpResponse * Store :=
  LoginRequiredMixin_dispatch request
    (Return (handle_no_permission (blog.delete_comment pk comment_id)), s)
    (match method request with
     | GET =>
         object <-[s] CommentDeleteView_get_object s request comment_id ;;
         (Return (TemplateResponse (comment_html object)), s)
     | POST => CommentDeleteView_delete s request pk comment_id
     end).

(** *** blog/urls.py: matching a path and reversing a route

    A path is given by its segments, each of them followed by a slash in the
    address: [[]] is the empty path of the index and [["posts"; "12";
    "edit"]] is [posts/12/edit/].  A pattern answers with the route and its
    converted arguments, or does not match; the first pattern of
    [urlpatterns] that matches decides.  The pattern for uploaded files
    that is added after these in debug mode is left out. *)

Module urls.
Definition in_range (lo hi : nat) (c : ascii) : bool :=
  let n := nat_of_ascii c in (Nat.leb lo n && Nat.leb n hi)%bool.

Definition is_digit (c : ascii) : bool := in_range 48 57 c.

Definition is_slug_char (c : ascii) : bool :=
  (is_digit c || in_range 65 90 c || in_range 97 122 c
   || Nat.eqb (nat_of_ascii c) 45 || Nat.eqb (nat_of_ascii c) 95)%bool.

(** The regular expression [[class]+]. *)
Definition one_or_more (class : ascii -> bool) (v : string) : bool :=
  (negb (String.eqb v "") && forallb class (list_ascii_of_string v))%bool.

(** The [int] converter: [[0-9]+], [int(value)] and [str(value)]. *)
Definition int_regex (v : string) : bool := one_or_more is_digit v.

Definition int_to_python (v : string) : option Z :=
  option_map Z.of_uint (DecimalString.NilEmpty.uint_of_string v).

Definition int_to_url (value : Z) : string :=
  DecimalString.NilZero.string_of_int (Z.to_int value).

(** The [slug] converter: [[-a-zA-Z0-9_]+], the text as it is. *)
Definition slug_regex (v : string) : bool := one_or_more is_slug_char v.

Definition int_arg (v : string) : option Z :=
  if int_regex v then int_to_python v else None.

Definition slug_arg (v : string) : option string :=
  if slug_regex v then Some v else None.

Definition Path := list string.

Definition index (path : Path) : option blog.Route :=
  match path with
  | [] => Some blog.index
  | _ => None
  end.

Definition delete_post (path : Path) : option blog.Route :=
  match path with
  | [a; pk; b] =>
      if (String.eqb a "posts" && String.eqb b "delete")%bool
      then option_map blog.delete_post (int_arg pk) else None
  | _ => None
  end.

Definition edit_comment (path : Path) : option blog.Route :=
  match path with
  | [a; pk; b; comment_id] =>
      if (String.eqb a "posts" && String.eqb b "edit_comment")%bool
      then match int_arg pk, int_arg comment_id with
           | Some pk', Some comment_id' => Some (blog.edit_comment pk' comment_id')
           | _, _ => None
           end
      else None
  | _ => None
  end.

Definition delete_comment (path : Path) : option blog.Route :=
  match path with
  | [a; pk; b; comment_id] =>
      if (String.eqb a "posts" && String.eqb b "delete_comment")%bool
      then match int_arg pk, int_arg comment_id with
           | Some pk', Some comment_id' => Some (blog.delete_comment pk' comment_id')
           | _, _ => None
           end
      else None
  | _ => None
  end.

Definition edit_post (path : Path) : option blog.Route :=
  match path with
  | [a; pk; b] =>
      if (String.eqb a "posts" && String.eqb b "edit")%bool
      then option_map blog.edit_post (int_arg pk) else None
  | _ => None
  end.

Definition add_comment (path : Path) : option blog.Route :=
  match path with
  | [a; pk; b] =>
      if (String.eqb a "posts" && String.eqb b "comment")%bool
      then option_map blog.add_comment (int_arg pk) else None
  | _ => None
  end.

Definition post_detail (path : Path) : option blog.Route :=
  match path with
  | [a; pk] =>
      if String.eqb a "posts"
      then option_map blog.post_detail (int_arg pk) else None
  | _ => None
  end.

Definition create_post (path : Path) : option blog.Route :=
  match path with
  | [a; b] =>
      if (String.eqb a "posts" && String.eqb b "create")%bool
      then Some blog.create_post else None
  | _ => None
  end.

Definition category_posts (path : Path) : option blog.Route :=
  match path with
  | [a; category_slug] =>
      if String.eqb a "category"
      then option_map blog.category_posts (slug_arg category_slug) else None
  | _ => None
  end.

Definition edit_profile (path : Path) : option blog.Route :=
  match path with
  | [a; b] =>
      if (String.eqb a "profile" && String.eqb b "edit")%bool
      then Some blog.edit_profile else None
  | _ => None
  end.

Definition profile (path : Path) : option blog.Route :=
  match path with
  | [a; username] =>
      if String.eqb a "profile"
      then option_map blog.profile (slug_arg username) else None
  | _ => None
  end.

(** [urlpatterns], in the order of the file. *)
Definition urlpatterns : list (Path -> option blog.Route) :=
  [index; delete_post; edit_comment; delete_comment; edit_post; add_comment;
   post_detail; create_post; category_posts; edit_profile; profile].

Fixpoint first_match (patterns : list (Path -> option blog.Route)) (path : Path)
  : option blog.Route :=
  match patterns with
  | [] => None
  | pattern :: rest =>
      match pattern path with
      | Some route => Some route
      | None => first_match rest path
      end
  end.

Definition resolve (path : Path) : option blog.Route :=
  first_match urlpatterns path.

(** [reverse]: the arguments are put in the pattern of the name, and the
    text each converter gives must fit the expression of that converter;
    [None] stands for [NoReverseMatch]. *)
Definition candidate (route : blog.Route) : Path :=
  match route with
  | blog.index => []
  | blog.delete_post pk => ["posts"; int_to_url pk; "delete"]
  | blog.edit_comment pk comment_id =>
      ["posts"; int_to_url pk; "edit_comment"; int_to_url comment_id]
  | blog.delete_comment pk comment_id =>
      ["posts"; int_to_url pk; "delete_comment"; int_to_url comment_id]
  | blog.edit_post pk => ["posts"; int_to_url pk; "edit"]
  | blog.add_comment pk => ["posts"; int_to_url pk; "comment"]
  | blog.post_detail pk => ["posts"; int_to_url pk]
  | blog.create_post => ["posts"; "create"]
  | blog.category_posts category_slug => ["category"; category_slug]
  | blog.edit_profile => ["profile"; "edit"]
  | blog.profile username => ["profile"; username]
  end%string.

Definition fits (route : blog.Route) : bool :=
  match route with
  | blog.index | blog.create_post | blog.edit_profile => true
  | blog.delete_post pk | blog.edit_post pk | blog.add_comment pk
  | blog.post_detail pk => int_regex (int_to_url pk)
  | blog.edit_comment pk comment_id | blog.delete_comment pk comment_id =>
      (int_regex (int_to_url pk) && int_regex (int_to_url comment_id))%bool
  | blog.category_posts category_slug => slug_regex category_slug
  | blog.profile username => slug_regex username
  end.

Definition reverse (route : blog.Route) : option Path :=
  if fits route then Some (candidate route) else None.
End urls.

(** *** PostCreateView and CommentCreateView *)

Module PostForm.
(** [fields = ('title', 'text', 'pub_date', 'image', 'location',
    'category')] *)
Record data := {
  title : string;
  text : string;
  pub_date : option Z;          (* [None]: not a date *)
  image : option string;        (* [None]: no file sent *)
  location : option Z;
  category : option Z
}.

(** The instance the form builds when every field validates; the key and
    [created_at] come from the database on insertion, [is_published] takes
    the default of [BaseModel], and the view sets the author. *)
Definition instance (s : Store) (d : data) (pk created_at author : Z)
  : option Post.t :=
  match clean_char (Some 256%nat) (title d), clean_char None (text d),
        pub_date d, category d with
  | Some title', Some text', Some pub_date', Some category' =>
      if PostModelForm.exists_pk Category.pk (categories s) category'
         && match location d with
            | Some l => PostModelForm.exists_pk Location.pk (locations s) l
            | None => true
            end
      then Some {| Post.pk := pk;
                   Post.is_published := true;
                   Post.created_at := created_at;
                   Post.title := title';
                   Post.text := text';
                   Post.pub_date := pub_date';
                   Post.image := match image d with
                                 | Some f => f
                                 | None => ""
                                 end;
                   Post.author := author;
                   Post.location := location d;
                   Post.category := Some category' |}
      else None
  | _, _, _, _ => None
  end.
End PostForm.

(** [INSERT]: the new row goes after the rows there are. *)
Definition insert_post (s : Store) (p : Post.t) : Store :=
  {| users := users s;
     categories := categories s;
     locations := locations s;
     posts := posts s ++ [p];
     comments := comments s |}.

Definition insert_comment (s : Store) (c : Comment.t) : Store :=
  {| users := users s;
     categories := categories s;
     locations := locations s;
     posts := posts s;
     comments := comments s ++ [c] |}.

(** What a [CreateView] answers: its template with the form (unbound, or
    bound with its errors), or a response. *)
Inductive CreateOutcome :=
| FormRendered (form_errors : bool)
| Answered (response : HttpResponse)
| NoReverseMatch.                 (* raised by [reverse]; nothing catches it *)

(** [PostCreateView.form_valid], with [get_success_url]: the author is the
    user of the request.  [new_pk] is the key the database gives the row and
    [now] the time of the insertion ([auto_now_add]).  The address of the
    profile page is reversed once the post is saved. *)
Definition PostCreateView_form_valid (s : Store) (u : User.t) (instance : Post.t)
  : result CreateOutcome * Store :=
  let s' := insert_post s instance in
  match urls.reverse (blog.profile (User.username u)) with
  | Some _ => (Return (Answered (redirect (blog.profile (User.username u)))), s')
  | None => (Return NoReverseMatch, s')
  end.

Definition PostCreateView_as_view (s : Store)
    (request : HttpRequest PostForm.data) (now new_pk : Z)
  : result CreateOutcome * Store :=
  LoginRequiredMixin_dispatch request
    (Return (Answered (handle_no_permission blog.create_post)), s)
    (match user request with
     | LoggedIn u =>
         match method request with
         | GET => (Return (FormRendered false), s)
         | POST =>
             match PostForm.instance s (body request) new_pk now (User.pk u) with
             | Some instance => PostCreateView_form_valid s u instance
             | None => (Return (FormRendered true), s)
             end
         end
     | AnonymousUser =>
         (Return (Answered (handle_no_permission blog.create_post)), s)
     end).

(** [CommentCreateView.form_valid], with [get_success_url]: the post is
    looked up only here, once the form has validated. *)
Definition CommentCreateView_form_valid (s : Store) (u : User.t) (text' : string)
    (now new_pk pk : Z) : result CreateOutcome * Store :=
  post <-[s] get_object_or_404 "Post"
               (filter (fun p => pk_eqb (Post.pk p) pk) (posts s)) ;;
  let instance :=
    {| Comment.pk := new_pk;
       Comment.is_published := true;
       Comment.created_at := now;
       Comment.text := text';
       Comment.post := Post.pk post;
       Comment.author := User.pk u |} in
  (Return (Answered (redirect (blog.post_detail pk))), insert_comment s instance).

Definition CommentCreateView_as_view (s : Store)
    (request : HttpRequest CommentForm.data) (now new_pk pk : Z)
  : result CreateOutcome * Store :=
  LoginRequiredMixin_dispatch request
    (Return (Answered (handle_no_permission (blog.add_comment pk))), s)
    (match user request with
     | LoggedIn u =>
         match method request with
         | GET => (Return (FormRendered false), s)
         | POST =>
             match CommentForm.clean (body request) with
             | Some text' => CommentCreateView_form_valid s u text' now new_pk pk
             | None => (Return (FormRendered true), s)
             end
         end
     | AnonymousUser =>
         (Return (Answered (handle_no_permission (blog.add_comment pk))), s)
     end).

(** The row [CommentCreateView] stores for a post with key [pk]. *)
Definition new_comment (u : User.t) (text' : string) (now new_pk pk : Z)
  : Comment.t :=
  {| Comment.pk := new_pk;
     Comment.is_published := true;
     Comment.created_at := now;
     Comment.text := text';
     Comment.post := pk;
     Comment.author := User.pk u |}.

(** ** The constraints the schema of models.py puts on a store *)

Fixpoint uniqueb {K} (eqb : K -> K -> bool) (l : list K) : bool :=
  match l with
  | [] => true
  | k :: l' => negb (existsb (eqb k) l') && uniqueb eqb l'
  end.

Definition fk_ok {A} (pk_of : A -> Z) (table : list A) (k : Z) : bool :=
  existsb (fun r => pk_eqb (pk_of r) k) table.

Definition nullable_fk_ok {A} (pk_of : A -> Z) (table : list A) (fk : option Z)
  : bool :=
  match fk with
  | Some k => fk_ok pk_of table k
  | None => true
  end.

(** Primary keys, [unique=True] on [Category.slug] and on the user name, and
    the foreign keys of [Post] and [Comment]. *)
Definition relational_integrity (s : Store) : bool :=
  uniqueb Z.eqb (map User.pk (users s))
  && uniqueb String.eqb (map User.username (users s))
  && uniqueb Z.eqb (map Category.pk (categories s))
  && uniqueb String.eqb (map Category.slug (categories s))
  && uniqueb Z.eqb (map Location.pk (locations s))
  && uniqueb Z.eqb (map Post.pk (posts s))
  && uniqueb Z.eqb (map Comment.pk (comments s))
  && forallb (fun p => fk_ok User.pk (users s) (Post.author p)
                       && nullable_fk_ok Category.pk (categories s) (Post.category p)
                       && nullable_fk_ok Location.pk (locations s) (Post.location p))
             (posts s)
  && forallb (fun c => fk_ok User.pk (users s) (Comment.author c)
                       && fk_ok Post.pk (posts s) (Comment.post c))
             (comments s).

(** What [relational_integrity] says, one constraint at a time. *)
Record Integrity (s : Store) : Prop := {
  users_pk : uniqueb Z.eqb (map User.pk (users s)) = true;
  users_username : uniqueb String.eqb (map User.username (users s)) = true;
  categories_pk : uniqueb Z.eqb (map Category.pk (categories s)) = true;
  categories_slug : uniqueb String.eqb (map Category.slug (categories s)) = true;
  locations_pk : uniqueb Z.eqb (map Location.pk (locations s)) = true;
  posts_pk : uniqueb Z.eqb (map Post.pk (posts s)) = true;
  comments_pk : uniqueb Z.eqb (map Comment.pk (comments s)) = true;
  post_author_fk : forall p, In p (posts s) ->
    exists u, In u (users s) /\ User.pk u = Post.author p;
  post_category_fk : forall p k, In p (posts s) -> Post.category p = Some k ->
    exists c, In c (categories s) /\ Category.pk c = k;
  post_location_fk : forall p k, In p (posts s) -> Post.location p = Some k ->
    exists l, In l (locations s) /\ Location.pk l = k;
  comment_author_fk : forall c, In c (comments s) ->
    exists u, In u (users s) /\ User.pk u = Comment.author c;
  comment_post_fk : forall c, In c (comments s) ->
    exists p, In p (posts s) /\ Post.pk p = Comment.post c
}.

(** ** The contracts of the specification, in its own words *)

Module Spec.
(** "viewer == author" *)
Definition is_author (viewer : RequestUser) (author : Z) : Prop :=
  exists u, viewer = LoggedIn u /\ User.pk u = author.

(** "post.category is null OR post.category.is_published == true" *)
Definition category_clause (s : Store) (p : Post.t) : Prop :=
  Post.category p = None \/
  exists c, In c (categories s) /\ Post.category p = Some (Category.pk c)
            /\ Category.is_published c = true.

(** "post.is_published == true, post.pub_date <= now, and the category
    clause" *)
Definition publicly_visible (s : Store) (now : Z) (p : Post.t) : Prop :=
  Post.is_published p = true /\ Post.pub_date p <= now /\ category_clause s p.

Definition is_post_visible (s : Store) (p : Post.t) (viewer : RequestUser)
    (now : Z) : Prop :=
  is_author viewer (Post.author p) \/ publicly_visible s now p.

(** "is_published=true AND pub_date<=now AND category.is_published=true" *)
Definition in_public_listing (s : Store) (now : Z) (p : Post.t) : Prop :=
  Post.is_published p = true /\ Post.pub_date p <= now /\
  exists c, In c (categories s) /\ Post.category p = Some (Category.pk c)
            /\ Category.is_published c = true.

(** "category=category AND is_published=true AND pub_date<=now" *)
Definition in_category_listing (category : Category.t) (now : Z) (p : Post.t)
  : Prop :=
  Post.category p = Some (Category.pk category) /\
  Post.is_published p = true /\ Post.pub_date p <= now.

(** "ordered by pub_date descending" *)
Definition newest_first (l : list Post.t) : Prop :=
  StronglySorted (fun a b => Post.pub_date b <= Post.pub_date a) l.

(** "oldest-first by creation time" *)
Definition oldest_first (l : list Comment.t) : Prop :=
  StronglySorted (fun a b => Comment.created_at a <= Comment.created_at b) l.

(** The [n]-th page of ten of a sequence. *)
Definition page_of_ten {A} (l : list A) (n : Z) : list A :=
  firstn 10 (skipn (10 * Z.to_nat (n - 1)) l).

(** "fails with NotFound" *)
Definition NotFound {A} (r : result A) : Prop :=
  exists msg, r = Raise (Http404 msg).
End Spec.

(** ** Sample stores *)

Definition alice : User.t := {| User.pk := 1; User.username := "alice" |}.
Definition bob : User.t := {| User.pk := 2; User.username := "bob" |}.

Definition travel : Category.t :=
  {| Category.pk := 1; Category.is_published := true; Category.created_at := 0;
     Category.title := "Travel"; Category.description := "On the road";
     Category.slug := "travel" |}.

Definition drafts : Category.t :=
  {| Category.pk := 2; Category.is_published := false; Category.created_at := 0;
     Category.title := "Drafts"; Category.description := "Not yet";
     Category.slug := "drafts" |}.

Definition mk_post (pk : Z) (is_published : bool) (pub_date : Z) (author : Z)
    (category : option Z) : Post.t :=
  {| Post.pk := pk; Post.is_published := is_published; Post.created_at := 0;
     Post.title := "A post"; Post.text := "Some text"; Post.pub_date := pub_date;
     Post.image := ""; Post.author := author; Post.location := None;
     Post.category := category |}.

Definition mk_comment (pk : Z) (created_at : Z) (post author : Z) : Comment.t :=
  {| Comment.pk := pk; Comment.is_published := true;
     Comment.created_at := created_at; Comment.text := "Nice";
     Comment.post := post; Comment.author := author |}.

(** Bob's posts: A is public, B unpublished, C dated in the future, D has no
    category, E sits in an unpublished category. *)
Definition post_A := mk_post 1 true 10 2 (Some 1).
Definition post_B := mk_post 2 false 10 2 (Some 1).
Definition post_C := mk_post 3 true 1000 2 (Some 1).
Definition post_D := mk_post 4 true 20 2 None.
Definition post_E := mk_post 5 true 30 2 (Some 2).

Definition comment_1 := mk_comment 1 50 1 2.     (* by bob *)
Definition comment_2 := mk_comment 2 40 1 1.     (* by alice, earlier *)

Definition demo_store : Store :=
  {| users := [alice; bob];
     categories := [travel; drafts];
     locations := [];
     posts := [post_A; post_B; post_C; post_D; post_E];
     comments := [comment_1; comment_2] |}.

(** Twenty-five public posts by bob, dated 1 to 25. *)
Definition busy_store : Store :=
  {| users := [alice; bob];
     categories := [travel; drafts];
     locations := [];
     posts := map (fun i => mk_post (Z.of_nat i) true (Z.of_nat i) 2 (Some 1))
                  (seq 1 25);
     comments := [] |}.

Definition request_by {B} (u : RequestUser) (m : Method) (pg : PageParam) (b : B)
  : HttpRequest B :=
  {| method := m; user := u; page := pg; body := b |}.

(** The same request, made by somebody else. *)
Definition with_user {B} (request : HttpRequest B) (u : RequestUser)
  : HttpRequest B :=
  {| method := method request; user := u; page := page request;
     body := body request |}.

(** A form for a new post that validates. *)
Definition sample_new_post : PostForm.data :=
  {| PostForm.title := " Fresh ";
     PostForm.text := "News";
     PostForm.pub_date := Some 90;
     PostForm.image := None;
     PostForm.location := None;
     PostForm.category := Some 1 |}.

(** An edit form for a post that validates. *)
Definition sample_post_form : PostModelForm.data :=
  {| PostModelForm.is_published := true;
     PostModelForm.title := "Hijacked";
     PostModelForm.text := "Rewritten";
     PostModelForm.pub_date := Some 5;
     PostModelForm.image := None;
     PostModelForm.author := Some 1;
     PostModelForm.location := None;
     PostModelForm.category := Some 1 |}.

(** ** What a loaded post is, relative to its row *)

(** [ro] is what the join on a nullable key [fk] attaches. *)
Definition joined {B} (pk_of : B -> Z) (table : list B) (fk : option Z)
    (ro : option B) : Prop :=
  match ro with
  | Some r => In r table /\ fk = Some (pk_of r)
  | None => forall r, In r table -> fk <> Some (pk_of r)
  end.

Definition loads (s : Store) (p : Post.t) (o : LoadedPost) : Prop :=
  row o = p
  /\ In (author_obj o) (users s)
  /\ User.pk (author_obj o) = Post.author p
  /\ joined Category.pk (categories s) (Post.category p) (category_obj o)
  /\ joined Location.pk (locations s) (Post.location p) (location_obj o).

(** * Properties *)

(** ** The error monad *)

Lemma bind_Return {A B} (m : result A) (k : A -> result B) (a : A) :
  m = Return a -> bind m k = k a.
Proof. intros ->. reflexivity. Qed.

Lemma bind_Raise {A B} (m : result A) (k : A -> result B) (e : exn) :
  m = Raise e -> bind m k = Raise e.
Proof. intros ->. reflexivity. Qed.

(** ** [order_by] *)

Section OrderBy.
Context {A : Type} (le : A -> A -> bool).

Lemma insert_by_perm (x : A) (l : list A) :
  Permutation (insert_by le x l) (x :: l).
Proof.
  induction l as [|y l IH]; simpl.
  - apply Permutation_refl.
  - destruct (le x y).
    + apply Permutation_refl.
    + eapply perm_trans; [apply perm_skip, IH | apply perm_swap].
Qed.

Lemma sort_by_perm (l : list A) : Permutation (sort_by le l) l.
Proof.
  induction l as [|x l IH]; simpl.
  - constructor.
  - eapply perm_trans; [apply insert_by_perm | apply perm_skip, IH].
Qed.

Lemma sort_by_In (l : list A) (x : A) : In x (sort_by le l) <-> In x l.
Proof.
  split; apply Permutation_in;
    [apply sort_by_perm | apply Permutation_sym, sort_by_perm].
Qed.

Lemma sort_by_length (l : list A) : length (sort_by le l) = length l.
Proof. apply Permutation_length, sort_by_perm. Qed.

Hypothesis le_total : forall x y, le x y = true \/ le y x = true.
Hypothesis le_trans : forall x y z, le x y = true -> le y z = true -> le x z = true.

Lemma insert_by_sorted (x : A) (l : list A) :
  StronglySorted (fun a b => le a b = true) l ->
  StronglySorted (fun a b => le a b = true) (insert_by le x l).
Proof.
  induction 1 as [|y l Hs IH Hall]; simpl.
  - repeat constructor.
  - destruct (le x y) eqn:Hxy.
    + constructor; [constructor; assumption|].
      constructor; [exact Hxy|].
      rewrite Forall_forall in *. intros z Hz.
      apply (le_trans x y z Hxy), Hall, Hz.
    + constructor; [exact IH|].
      rewrite Forall_forall in *. intros z Hz.
      apply (Permutation_in _ (insert_by_perm x l)) in Hz.
      destruct Hz as [<-|Hz]; [|apply Hall, Hz].
      destruct (le_total x y) as [H|H]; [congruence|exact H].
Qed.

Lemma sort_by_sorted (l : list A) :
  StronglySorted (fun a b => le a b = true) (sort_by le l).
Proof.
  induction l as [|x l IH]; simpl.
  - constructor.
  - apply insert_by_sorted, IH.
Qed.
End OrderBy.

Lemma insert_by_map {A B} (f : A -> B) (le : A -> A -> bool)
    (le' : B -> B -> bool) (x : A) (l : list A) :
  (forall a b, le' (f a) (f b) = le a b) ->
  map f (insert_by le x l) = insert_by le' (f x) (map f l).
Proof.
  intros H. induction l as [|y l IH]; simpl; [reflexivity|].
  rewrite H. destruct (le x y); simpl; [reflexivity|]. now rewrite IH.
Qed.

Lemma sort_by_map {A B} (f : A -> B) (le : A -> A -> bool)
    (le' : B -> B -> bool) (l : list A) :
  (forall a b, le' (f a) (f b) = le a b) ->
  map f (sort_by le l) = sort_by le' (map f l).
Proof.
  intros H. induction l as [|x l IH]; simpl; [reflexivity|].
  rewrite (insert_by_map f le le' _ _ H). now rewrite IH.
Qed.

Lemma order_by_desc_sorted {A} (key : A -> Z) (l : list A) :
  StronglySorted (fun a b => key b <= key a) (order_by (desc key) l).
Proof.
  unfold order_by.
  apply StronglySorted_ind with (P := fun m => StronglySorted (fun a b => key b <= key a) m)
                                (R := fun a b => desc key a b = true).
  - constructor.
  - intros a m _ IH Hall. constructor; [exact IH|].
    eapply Forall_impl; [|exact Hall]. unfold desc. intros b Hb. lia.
  - apply sort_by_sorted; unfold desc; intros; lia.
Qed.

Lemma order_by_asc_sorted {A} (key : A -> Z) (l : list A) :
  StronglySorted (fun a b => key a <= key b) (order_by (asc key) l).
Proof.
  unfold order_by.
  apply StronglySorted_ind with (P := fun m => StronglySorted (fun a b => key a <= key b) m)
                                (R := fun a b => asc key a b = true).
  - constructor.
  - intros a m _ IH Hall. constructor; [exact IH|].
    eapply Forall_impl; [|exact Hall]. unfold asc. intros b Hb. lia.
  - apply sort_by_sorted; unfold asc; intros; lia.
Qed.

Lemma StronglySorted_map {A B} (f : A -> B) (R : B -> B -> Prop) (l : list A) :
  StronglySorted (fun a b => R (f a) (f b)) l -> StronglySorted R (map f l).
Proof.
  induction 1 as [|a l Hs IH Hall]; simpl; constructor; [exact IH|].
  rewrite Forall_forall in *. intros b Hb.
  apply in_map_iff in Hb. destruct Hb as [c [<- Hc]]. apply Hall, Hc.
Qed.

Lemma StronglySorted_filter {A} (R : A -> A -> Prop) (f : A -> bool) (l : list A) :
  StronglySorted R l -> StronglySorted R (filter f l).
Proof.
  induction 1 as [|a l Hs IH Hall]; simpl; [constructor|].
  destruct (f a); [|exact IH]. constructor; [exact IH|].
  rewrite Forall_forall in *. intros b Hb.
  apply filter_In in Hb. apply Hall, Hb.
Qed.

(** ** Unique keys *)

Lemma filter_nil_iff {A} (f : A -> bool) (l : list A) :
  filter f l = [] <-> forall x, In x l -> f x = false.
Proof.
  induction l as [|a l IH]; simpl.
  - split; [intros _ x []|reflexivity].
  - destruct (f a) eqn:Ha.
    + split; [discriminate|]. intros H. specialize (H a (or_introl eq_refl)). congruence.
    + rewrite IH. split.
      * intros H x [<-|Hx]; [exact Ha|apply H, Hx].
      * intros H x Hx. apply H. right. exact Hx.
Qed.

Lemma map_filter_comm {A B} (h : A -> B) (f : A -> bool) (g : B -> bool)
    (l : list A) :
  (forall x, In x l -> f x = g (h x)) ->
  map h (filter f l) = filter g (map h l).
Proof.
  induction l as [|a l IH]; simpl; intros H; [reflexivity|].
  rewrite <- (H a (or_introl eq_refl)).
  destruct (f a); simpl; rewrite IH; auto.
Qed.

Lemma NoDup_map_filter {A K} (h : A -> K) (f : A -> bool) (l : list A) :
  NoDup (map h l) -> NoDup (map h (filter f l)).
Proof.
  induction l as [|a l IH]; simpl; intros H; [constructor|].
  inversion H as [|? ? Hnotin Hnd]; subst.
  destruct (f a); simpl; [|apply IH, Hnd].
  constructor; [|apply IH, Hnd].
  intros Hin. apply Hnotin.
  apply in_map_iff in Hin. destruct Hin as [x [Hx Hin]].
  apply filter_In in Hin. apply in_map_iff. exists x. tauto.
Qed.

Section Unique.
Context {A K : Type} (key : A -> K) (eqb : K -> K -> bool).
Hypothesis eqb_eq : forall x y, eqb x y = true <-> x = y.

Lemma uniqueb_NoDup (l : list K) : uniqueb eqb l = true -> NoDup l.
Proof.
  induction l as [|k l IH]; simpl; intros H; [constructor|].
  apply andb_prop in H. destruct H as [Hk Hl].
  constructor; [|apply IH, Hl].
  intros Hin. apply negb_true_iff in Hk.
  assert (existsb (eqb k) l = true) as E
    by (apply existsb_exists; exists k; split; [exact Hin|now apply eqb_eq]).
  congruence.
Qed.

(** A key that is unique in a table selects one row. *)
Lemma unique_key_filter (l : list A) (x : A) (k : K) :
  uniqueb eqb (map key l) = true -> In x l -> key x = k ->
  filter (fun y => eqb (key y) k) l = [x].
Proof.
  intros Hu Hin <-. induction l as [|a l IH]; [destruct Hin|].
  simpl in Hu. apply andb_prop in Hu. destruct Hu as [Ha Hl].
  apply negb_true_iff in Ha.
  assert (forall y, In y l -> eqb (key a) (key y) = false) as Hfresh.
  { intros y Hy. destruct (eqb (key a) (key y)) eqn:E; [|reflexivity].
    rewrite <- Ha. symmetry. apply existsb_exists.
    exists (key y). split; [apply in_map, Hy|exact E]. }
  simpl. destruct Hin as [->|Hin].
  - replace (eqb (key x) (key x)) with true by (symmetry; now apply eqb_eq).
    f_equal. apply filter_nil_iff. intros y Hy.
    specialize (Hfresh y Hy).
    destruct (eqb (key y) (key x)) eqn:E; [|reflexivity].
    apply eqb_eq in E. rewrite E in Hfresh.
    rewrite <- Hfresh. symmetry. now apply eqb_eq.
  - specialize (Hfresh x Hin). rewrite Hfresh. apply IH; assumption.
Qed.

Lemma unique_key_inj (l : list A) (x y : A) :
  uniqueb eqb (map key l) = true -> In x l -> In y l -> key x = key y -> x = y.
Proof.
  intros Hu Hx Hy E.
  pose proof (unique_key_filter l x (key x) Hu Hx eq_refl) as Fx.
  assert (In y (filter (fun z => eqb (key z) (key x)) l)) as Hin.
  { apply filter_In. split; [exact Hy|]. apply eqb_eq. now symmetry. }
  rewrite Fx in Hin. destruct Hin as [->|[]]. reflexivity.
Qed.
End Unique.

Lemma fk_ok_In {A} (pk_of : A -> Z) (table : list A) (k : Z) :
  fk_ok pk_of table k = true -> exists r, In r table /\ pk_of r = k.
Proof.
  unfold fk_ok, pk_eqb. intros H. apply existsb_exists in H.
  destruct H as [r [Hr E]]. exists r. split; [exact Hr|]. now apply Z.eqb_eq.
Qed.

Lemma relational_integrity_facts (s : Store) :
  relational_integrity s = true -> Integrity s.
Proof.
  unfold relational_integrity. intros H.
  repeat (apply andb_prop in H; let H' := fresh "H" in destruct H as [H H']).
  rewrite forallb_forall in *.
  constructor; try assumption.
  - intros p Hp. specialize (H1 p Hp).
    repeat (apply andb_prop in H1; let H' := fresh "H" in destruct H1 as [H1 H']).
    now apply fk_ok_In.
  - intros p k Hp E. specialize (H1 p Hp).
    repeat (apply andb_prop in H1; let H' := fresh "H" in destruct H1 as [H1 H']).
    rewrite E in *. now apply fk_ok_In.
  - intros p k Hp E. specialize (H1 p Hp).
    repeat (apply andb_prop in H1; let H' := fresh "H" in destruct H1 as [H1 H']).
    rewrite E in *. now apply fk_ok_In.
  - intros c Hc. specialize (H0 c Hc).
    apply andb_prop in H0. destruct H0. now apply fk_ok_In.
  - intros c Hc. specialize (H0 c Hc).
    apply andb_prop in H0. destruct H0. now apply fk_ok_In.
Qed.

(** ** [select_related] *)

Lemma fk_eqb_eq (fk : option Z) (k : Z) : fk_eqb fk k = true <-> fk = Some k.
Proof.
  unfold fk_eqb. destruct fk as [j|].
  - rewrite Z.eqb_eq. split; [intros ->; reflexivity|intros [= ->]; reflexivity].
  - split; discriminate.
Qed.

Lemma left_matches_joined {B} (pk_of : B -> Z) (table : list B) (fk : option Z)
    (ro : option B) :
  In ro (left_matches (fun r => fk_eqb fk (pk_of r)) table) ->
  joined pk_of table fk ro.
Proof.
  unfold left_matches.
  destruct (filter _ table) as [|x m] eqn:E.
  - intros [<-|[]]. simpl. intros r Hr Hfk.
    rewrite filter_nil_iff in E. specialize (E r Hr).
    apply fk_eqb_eq in Hfk. congruence.
  - rewrite <- E. intros Hin. apply in_map_iff in Hin.
    destruct Hin as [r [<- Hr]]. apply filter_In in Hr.
    simpl. split; [tauto|]. apply fk_eqb_eq. tauto.
Qed.

Lemma left_matches_one {B} (pk_of : B -> Z) (table : list B) (fk : option Z) :
  uniqueb Z.eqb (map pk_of table) = true ->
  (forall k, fk = Some k -> exists r, In r table /\ pk_of r = k) ->
  exists ro, left_matches (fun r => fk_eqb fk (pk_of r)) table = [ro].
Proof.
  intros Hu Hfk. unfold left_matches. destruct fk as [k|].
  - destruct (Hfk k eq_refl) as [r [Hr E]].
    rewrite (filter_ext _ (fun y => Z.eqb (pk_of y) k))
      by (intros a; simpl; apply Z.eqb_sym).
    rewrite (unique_key_filter pk_of Z.eqb Z.eqb_eq table r k Hu Hr E).
    now exists (Some r).
  - replace (filter _ table) with (@nil B).
    + now exists None.
    + symmetry. apply filter_nil_iff. reflexivity.
Qed.

Lemma select_related_loads (s : Store) (qs : list Post.t) (o : LoadedPost) :
  In o (select_related s qs) -> In (row o) qs /\ loads s (row o) o.
Proof.
  unfold select_related. intros H.
  apply in_flat_map in H. destruct H as [p [Hp H]].
  apply in_flat_map in H. destruct H as [u [Hu H]].
  apply in_flat_map in H. destruct H as [c [Hc H]].
  apply in_map_iff in H. destruct H as [l [<- Hl]].
  apply filter_In in Hu. destruct Hu as [Hu Eu]. apply Z.eqb_eq in Eu.
  apply left_matches_joined in Hc. apply left_matches_joined in Hl.
  simpl. unfold loads. simpl. tauto.
Qed.

Lemma select_related_rows (s : Store) (qs : list Post.t) :
  Integrity s -> (forall p, In p qs -> In p (posts s)) ->
  map row (select_related s qs) = qs.
Proof.
  intros I. induction qs as [|p qs IH]; intros Hqs; [reflexivity|].
  unfold select_related in *. simpl. rewrite map_app.
  rewrite IH by (intros q Hq; apply Hqs; now right).
  assert (In p (posts s)) as Hp by (apply Hqs; now left).
  destruct (post_author_fk s I p Hp) as [u [Hu Eu]].
  unfold pk_eqb.
  rewrite (unique_key_filter User.pk Z.eqb Z.eqb_eq (users s) u _ (users_pk s I) Hu Eu).
  destruct (left_matches_one Category.pk (categories s) (Post.category p)
              (categories_pk s I)) as [c ->].
  { intros k. apply (post_category_fk s I p k Hp). }
  destruct (left_matches_one Location.pk (locations s) (Post.location p)
              (locations_pk s I)) as [l ->].
  { intros k. apply (post_location_fk s I p k Hp). }
  reflexivity.
Qed.

(** Under the schema's constraints every post is loaded exactly once. *)
Lemma select_related_In (s : Store) (p : Post.t) :
  Integrity s -> In p (posts s) ->
  exists o, In o (select_related s (posts s)) /\ loads s p o.
Proof.
  intros I Hp.
  pose proof (select_related_rows s (posts s) I (fun _ H => H)) as E.
  rewrite <- E in Hp. apply in_map_iff in Hp. destruct Hp as [o [Er Ho]].
  exists o. split; [exact Ho|]. rewrite <- Er.
  apply (select_related_loads s (posts s) o Ho).
Qed.

Lemma select_related_pk_unique (s : Store) :
  Integrity s ->
  NoDup (map (fun o => Post.pk (row o)) (select_related s (posts s))).
Proof.
  intros I. rewrite <- (map_map row Post.pk).
  rewrite (select_related_rows s (posts s) I (fun _ H => H)).
  apply (uniqueb_NoDup Z.eqb Z.eqb_eq), (posts_pk s I).
Qed.

(** The category row a loaded post carries is the published one the
    specification asks for, when there is one. *)
Lemma loads_published_category (s : Store) (p : Post.t) (o : LoadedPost) :
  Integrity s -> loads s p o ->
  (category__is_published o = true <->
   exists c, In c (categories s) /\ Post.category p = Some (Category.pk c)
             /\ Category.is_published c = true).
Proof.
  intros I (_ & _ & _ & Hc & _). unfold category__is_published.
  destruct (category_obj o) as [c|]; simpl in Hc.
  - destruct Hc as [Hin E]. split.
    + intros Hpub. now exists c.
    + intros [c' (Hin' & E' & Hpub)].
      assert (c' = c) as ->; [|exact Hpub].
      apply (unique_key_inj Category.pk Z.eqb Z.eqb_eq (categories s) _ _
               (categories_pk s I) Hin' Hin). congruence.
  - split; [discriminate|]. intros [c (Hin & E & _)]. destruct (Hc c Hin E).
Qed.

(** ** Pagination *)

Lemma num_pages_ten {A} (l : list A) :
  Paginator.num_pages {| Paginator.object_list := l; Paginator.per_page := 10 |}
  = Z.max 1 ((Z.of_nat (length l) + 9) / 10).
Proof.
  unfold Paginator.num_pages, Paginator.count. simpl.
  destruct (Z.eq_dec (Z.of_nat (length l)) 0) as [E|E].
  - rewrite E. reflexivity.
  - assert (1 <= Z.of_nat (length l)) as H by lia.
    rewrite (Z.max_r 1 (Z.of_nat (length l) - 0)) by lia.
    rewrite (Z.max_r 1 ((Z.of_nat (length l) + 9) / 10))
      by (apply Z.div_le_lower_bound; lia).
    f_equal. lia.
Qed.

Lemma num_pages_ten_pos {A} (l : list A) :
  1 <= Paginator.num_pages
         {| Paginator.object_list := l; Paginator.per_page := 10 |}.
Proof. rewrite num_pages_ten. lia. Qed.

Lemma slice_page_of_ten {A} (l : list A) (n : Z) :
  1 <= n ->
  Paginator.slice l ((n - 1) * 10)
    (if (n - 1) * 10 + 10 + 0 >=? Z.of_nat (length l)
     then Z.of_nat (length l) else (n - 1) * 10 + 10)
  = Spec.page_of_ten l n.
Proof.
  intros Hn. unfold Paginator.slice, Spec.page_of_ten.
  replace (Z.to_nat ((n - 1) * 10)) with (10 * Z.to_nat (n - 1))%nat by lia.
  set (b := (10 * Z.to_nat (n - 1))%nat).
  assert ((n - 1) * 10 = Z.of_nat b) as Eb by (unfold b; lia).
  rewrite Eb.
  destruct (Z.of_nat b + 10 + 0 >=? Z.of_nat (length l)) eqn:E.
  - apply Z.geb_le in E.
    destruct (Nat.le_gt_cases b (length l)) as [Hle|Hgt].
    + replace (Z.to_nat (Z.of_nat (length l) - Z.of_nat b))
        with (length (skipn b l)) by (rewrite length_skipn; lia).
      rewrite firstn_all. symmetry. apply firstn_all2.
      rewrite length_skipn. lia.
    + rewrite (skipn_all2 l) by lia. now rewrite !firstn_nil.
  - replace (Z.to_nat (Z.of_nat b + 10 - Z.of_nat b)) with 10%nat by lia.
    reflexivity.
Qed.

(** The page object for page [n] of a query set cut in tens. *)
Lemma Paginator_page_ten {A} (l : list A) (n : Z) :
  let paginator := {| Paginator.object_list := l; Paginator.per_page := 10 |} in
  1 <= n <= Paginator.num_pages paginator ->
  Paginator.page paginator (PageInt n)
  = Return {| Page.object_list := Spec.page_of_ten l n;
              Page.number := n;
              Page.num_pages := Paginator.num_pages paginator |}.
Proof.
  intros paginator [H1 H2]. unfold Paginator.page, Paginator.validate_number.
  replace (n <? 1) with false by (symmetry; apply Z.ltb_ge; lia).
  replace (n >? Paginator.num_pages paginator) with false
    by (symmetry; rewrite Z.gtb_ltb; apply Z.ltb_ge; lia).
  simpl. do 2 f_equal. apply (slice_page_of_ten l n H1).
Qed.

Lemma Paginator_page_out_of_range {A} (l : list A) (n : Z) :
  let paginator := {| Paginator.object_list := l; Paginator.per_page := 10 |} in
  n < 1 \/ Paginator.num_pages paginator < n ->
  Paginator.page paginator (PageInt n) = Raise EmptyPage.
Proof.
  intros paginator H. unfold Paginator.page, Paginator.validate_number.
  pose proof (num_pages_ten_pos l) as Hpos. fold paginator in Hpos.
  destruct (n <? 1) eqn:E1; [reflexivity|].
  apply Z.ltb_ge in E1.
  replace (n >? Paginator.num_pages paginator) with true
    by (symmetry; rewrite Z.gtb_ltb; apply Z.ltb_lt; lia).
  replace (n =? 1) with false by (symmetry; apply Z.eqb_neq; lia).
  reflexivity.
Qed.

(** [ListView]: a page in range is served, anything else is a 404. *)
Lemma paginate_queryset_ten {A} (l : list A) (n : Z) :
  let pages := Paginator.num_pages
                 {| Paginator.object_list := l; Paginator.per_page := 10 |} in
  (1 <= n <= pages ->
   paginate_queryset l 10 (PageInt n)
   = Return {| Page.object_list := Spec.page_of_ten l n;
               Page.number := n; Page.num_pages := pages |})
  /\ (n < 1 \/ pages < n -> Spec.NotFound (paginate_queryset l 10 (PageInt n))).
Proof.
  intros pages. unfold paginate_queryset. simpl. split; intros H.
  - now rewrite (Paginator_page_ten l n H).
  - rewrite (Paginator_page_out_of_range l n H). now eexists.
Qed.

Lemma paginate_queryset_default {A} (l : list A) :
  paginate_queryset l 10 PageMissing = paginate_queryset l 10 (PageInt 1).
Proof. reflexivity. Qed.

(** [Paginator.get_page] always serves a page: the one asked for when it is
    in range, the last one when the number is out of range, the first when
    the parameter is not a number. *)
Lemma get_page_ten {A} (l : list A) (pg : PageParam) :
  let paginator := {| Paginator.object_list := l; Paginator.per_page := 10 |} in
  exists n, 1 <= n <= Paginator.num_pages paginator
    /\ (forall m, pg = PageInt m -> 1 <= m <= Paginator.num_pages paginator -> n = m)
    /\ Paginator.get_page paginator pg
       = Return {| Page.object_list := Spec.page_of_ten l n;
                   Page.number := n;
                   Page.num_pages := Paginator.num_pages paginator |}.
Proof.
  intros paginator.
  pose proof (num_pages_ten_pos l) as Hpos. fold paginator in Hpos.
  assert (forall n, 1 <= n <= Paginator.num_pages paginator ->
            Paginator.page paginator (PageInt n)
            = Return {| Page.object_list := Spec.page_of_ten l n;
                        Page.number := n;
                        Page.num_pages := Paginator.num_pages paginator |}) as Hpage
    by (intros n Hn; apply (Paginator_page_ten l n Hn)).
  unfold Paginator.get_page.
  destruct pg as [|m| |]; simpl;
    try (exists 1; split; [lia|]; split; [discriminate|]; apply Hpage; lia).
  destruct (m <? 1) eqn:E1.
  - exists (Paginator.num_pages paginator). apply Z.ltb_lt in E1.
    split; [lia|]. split; [intros ? [= <-]; lia|]. apply Hpage. lia.
  - apply Z.ltb_ge in E1.
    destruct (m >? Paginator.num_pages paginator) eqn:E2.
    + rewrite Z.gtb_ltb in E2. apply Z.ltb_lt in E2.
      replace (m =? 1) with false by (symmetry; apply Z.eqb_neq; lia).
      exists (Paginator.num_pages paginator).
      split; [lia|]. split; [intros ? [= <-]; lia|]. apply Hpage. lia.
    + rewrite Z.gtb_ltb in E2. apply Z.ltb_ge in E2.
      exists m. split; [lia|]. split; [intros ? [= <-]; reflexivity|].
      apply Hpage. lia.
Qed.

(** The pages, one after the other, are the query set. *)
Lemma pages_concat {A} (k : nat) (l : list A) :
  (length l <= 10 * k)%nat ->
  concat (map (fun i => firstn 10 (skipn (10 * i) l)) (seq 0 k)) = l.
Proof.
  revert l. induction k as [|k IH]; intros l Hlen.
  - destruct l; [reflexivity|simpl in Hlen; lia].
  - rewrite <- cons_seq, <- seq_shift, map_cons, map_map, concat_cons.
    rewrite (map_ext _ (fun i => firstn 10 (skipn (10 * i) (skipn 10 l)))).
    + rewrite IH by (rewrite length_skipn; lia).
      rewrite Nat.mul_0_r. apply (firstn_skipn 10 l).
    + intros i. rewrite skipn_skipn. do 2 f_equal. lia.
Qed.

Lemma page_of_ten_length {A} (l : list A) (n : Z) :
  (length (Spec.page_of_ten l n) <= 10)%nat.
Proof. unfold Spec.page_of_ten. rewrite length_firstn. lia. Qed.

(** ** The login gate *)


Lemma CategoryListView_as_view_logged_in {B} (s : Store) (request : HttpRequest B)
    (now : Z) (category_slug : string) (u : User.t) :
  user request = LoggedIn u -> method request = GET ->
  CategoryListView_as_view s request now category_slug
  = CategoryListView_get s request now category_slug.
Proof.
  intros Hu Hm. unfold CategoryListView_as_view, LoginRequiredMixin_dispatch.
  now rewrite Hu, Hm.
Qed.

(** ** PostDetailView *)

Lemma PostDetailView_get_object_found (s : Store) (p : Post.t) (pk : Z) :
  Integrity s -> In p (posts s) -> Post.pk p = pk ->
  exists o, loads s p o /\
    get_object "Post" (fun o => pk_eqb (Post.pk (row o)) pk)
      (PostDetailView_get_queryset s) = Return o.
Proof.
  intros I Hp E. destruct (select_related_In s p I Hp) as [o [Ho Hl]].
  exists o. split; [exact Hl|].
  unfold get_object, get_object_or_404, PostDetailView_get_queryset, pk_eqb.
  rewrite (unique_key_filter (fun o => Post.pk (row o)) Z.eqb Z.eqb_eq _ o pk).
  - reflexivity.
  - rewrite <- (map_map row Post.pk).
    rewrite (select_related_rows s (posts s) I (fun _ H => H)).
    apply (posts_pk s I).
  - exact Ho.
  - destruct Hl as [-> _]. exact E.
Qed.

Lemma PostDetailView_get_object_missing (s : Store) (pk : Z) :
  (forall p, In p (posts s) -> Post.pk p <> pk) ->
  get_object "Post" (fun o => pk_eqb (Post.pk (row o)) pk)
    (PostDetailView_get_queryset s)
  = Raise (Http404 "No Post matches the given query.").
Proof.
  intros H. unfold get_object, get_object_or_404, PostDetailView_get_queryset.
  replace (filter _ (select_related s (posts s))) with (@nil LoadedPost);
    [reflexivity|].
  symmetry. apply filter_nil_iff. intros o Ho.
  apply select_related_loads in Ho. destruct Ho as [Hin _].
  apply Z.eqb_neq, H, Hin.
Qed.

Lemma loads_is_author (s : Store) (p : Post.t) (o : LoadedPost)
    (viewer : RequestUser) :
  loads s p o ->
  (user_eqb viewer (author_obj o) = true <-> Spec.is_author viewer (Post.author p)).
Proof.
  intros (_ & _ & E & _). unfold user_eqb, Spec.is_author, pk_eqb.
  destruct viewer as [|v].
  - split; [discriminate|]. intros [u [[=] _]].
  - rewrite Z.eqb_eq, E. split.
    + intros H. now exists v.
    + intros [u [[= ->] H]]. exact H.
Qed.

Lemma loads_category_clause (s : Store) (p : Post.t) (o : LoadedPost) :
  Integrity s -> In p (posts s) -> loads s p o ->
  (match category_obj o with
   | Some category => negb (Category.is_published category)
   | None => false
   end = false <-> Spec.category_clause s p).
Proof.
  intros I Hp (_ & _ & _ & Hc & _). unfold Spec.category_clause.
  destruct (category_obj o) as [c|]; simpl in Hc.
  - destruct Hc as [Hin E]. rewrite negb_false_iff. split.
    + intros Hpub. right. now exists c.
    + intros [Hnone|[c' (Hin' & E' & Hpub)]]; [congruence|].
      assert (c' = c) as ->; [|exact Hpub].
      apply (unique_key_inj Category.pk Z.eqb Z.eqb_eq (categories s) _ _
               (categories_pk s I) Hin' Hin). congruence.
  - split; [|reflexivity]. intros _.
    destruct (Post.category p) as [k|] eqn:E; [|now left].
    destruct (post_category_fk s I p k Hp E) as [c [Hin <-]].
    destruct (Hc c Hin eq_refl).
Qed.

(** The test of [PostDetailView.get], read as the visibility contract. *)
Lemma PostDetailView_hidden_test (s : Store) (p : Post.t) (o : LoadedPost)
    (now : Z) :
  Integrity s -> In p (posts s) -> loads s p o ->
  ((Post.pub_date (row o) >? now)
   || negb (Post.is_published (row o))
   || match category_obj o with
      | Some category => negb (Category.is_published category)
      | None => false
      end = false
   <-> Spec.publicly_visible s now p).
Proof.
  intros I Hp Hl. pose proof (loads_category_clause s p o I Hp Hl) as Hc.
  destruct Hl as (-> & _). unfold Spec.publicly_visible.
  rewrite !orb_false_iff, negb_false_iff, Hc, Z.gtb_ltb, Z.ltb_ge. tauto.
Qed.



(** ** Editing and deleting posts *)

Lemma get_post_or_404 (s : Store) (p : Post.t) :
  Integrity s -> In p (posts s) ->
  get_object_or_404 "Post"
    (filter (fun q => pk_eqb (Post.pk q) (Post.pk p)) (posts s)) = Return p.
Proof.
  intros I Hp. unfold get_object_or_404, pk_eqb.
  now rewrite (unique_key_filter Post.pk Z.eqb Z.eqb_eq (posts s) p _
                 (posts_pk s I) Hp eq_refl).
Qed.

Lemma Post_author_found (s : Store) (p : Post.t) :
  Integrity s -> In p (posts s) ->
  exists u, User.pk u = Post.author p /\ Post_author s p = Return u.
Proof.
  intros I Hp. destruct (post_author_fk s I p Hp) as [u [Hu E]].
  exists u. split; [exact E|]. unfold Post_author, pk_eqb.
  now rewrite (unique_key_filter User.pk Z.eqb Z.eqb_eq (users s) u _
                 (users_pk s I) Hu E).
Qed.

Lemma user_eqb_author (viewer : RequestUser) (u : User.t) (author : Z) :
  User.pk u = author ->
  (user_eqb viewer u = true <-> Spec.is_author viewer author).
Proof.
  intros <-. unfold user_eqb, Spec.is_author, pk_eqb. destruct viewer as [|v].
  - split; [discriminate|]. intros [w [[=] _]].
  - rewrite Z.eqb_eq. split.
    + intros H. now exists v.
    + intros [w [[= ->] H]]. exact H.
Qed.

(** C2. When the viewer is not the author of a post, an edit request and a
    delete request for it, whatever their method and content, raise nothing
    and leave the store as it was: both answer with a redirect to the detail
    page of the post. *)
Theorem post_mutation_by_non_author_redirects {B} (s : Store) (p : Post.t)
    (edit : HttpRequest PostModelForm.data) (delete : HttpRequest B) :
  relational_integrity s = true -> In p (posts s) ->
  ~ Spec.is_author (user edit) (Post.author p) ->
  ~ Spec.is_author (user delete) (Post.author p) ->
  PostUpdateView_dispatch s edit (Post.pk p)
  = (Return (redirect (blog.post_detail (Post.pk p))), s)
  /\ PostDeleteView_dispatch s delete (Post.pk p)
     = (Return (redirect (blog.post_detail (Post.pk p))), s).
Proof.
  intros Hs Hp Hedit Hdelete.
  pose proof (relational_integrity_facts s Hs) as I.
  destruct (Post_author_found s p I Hp) as [u [Eu Hu]].
  unfold PostUpdateView_dispatch, PostDeleteView_dispatch.
  rewrite (get_post_or_404 s p I Hp). simpl. rewrite Hu. simpl.
  destruct (user_eqb (user edit) u) eqn:E1;
    [exfalso; apply Hedit; now apply (user_eqb_author _ u)|].
  destruct (user_eqb (user delete) u) eqn:E2;
    [exfalso; apply Hdelete; now apply (user_eqb_author _ u)|].
  split; reflexivity.
Qed.

Lemma post_mutation_by_non_author_redirects_demo :
  PostUpdateView_dispatch demo_store
    (request_by (LoggedIn alice) POST PageMissing sample_post_form) 1
  = (Return (redirect (blog.post_detail 1)), demo_store)
  /\ PostDeleteView_dispatch demo_store
       (request_by AnonymousUser POST PageMissing tt) 1
     = (Return (redirect (blog.post_detail 1)), demo_store).
Proof.
  apply (post_mutation_by_non_author_redirects demo_store post_A
           (request_by (LoggedIn alice) POST PageMissing sample_post_form)
           (request_by AnonymousUser POST PageMissing tt) eq_refl).
  - simpl. tauto.
  - intros [u [[= <-] E]]. discriminate E.
  - intros [u [[=] _]].
Defined.

(** ** Editing and deleting comments *)

Lemma filter_swap {A} (f g : A -> bool) (l : list A) :
  filter g (filter f l) = filter f (filter g l).
Proof.
  induction l as [|a l IH]; simpl; [reflexivity|].
  destruct (f a) eqn:Ef, (g a) eqn:Eg; simpl; rewrite ?Ef, ?Eg, IH; reflexivity.
Qed.

(** Looking a comment up among those of one author finds it exactly when
    that author wrote it. *)
Lemma get_comment_of_author (s : Store) (c : Comment.t) (a : Z) :
  Integrity s -> In c (comments s) ->
  get_object "Comment" (fun d => pk_eqb (Comment.pk d) (Comment.pk c))
    (filter (fun d => pk_eqb (Comment.author d) a) (comments s))
  = if Comment.author c =? a then Return c
    else Raise (Http404 "No Comment matches the given query.").
Proof.
  intros I Hc. unfold get_object, get_object_or_404, pk_eqb.
  rewrite filter_swap.
  rewrite (unique_key_filter Comment.pk Z.eqb Z.eqb_eq (comments s) c _
             (comments_pk s I) Hc eq_refl).
  simpl. destruct (Comment.author c =? a); reflexivity.
Qed.

Lemma CommentUpdateView_get_object_spec {B} (s : Store) (c : Comment.t)
    (request : HttpRequest B) (u : User.t) :
  Integrity s -> In c (comments s) -> user request = LoggedIn u ->
  CommentUpdateView_get_object s request (Comment.pk c)
  = if Comment.author c =? User.pk u then Return c
    else Raise (Http404 "No Comment matches the given query.").
Proof.
  intros I Hc Hu.
  unfold CommentUpdateView_get_object, CommentUpdateView_get_queryset.
  rewrite Hu. simpl. apply (get_comment_of_author s c _ I Hc).
Qed.

Lemma CommentDeleteView_get_object_spec {B} (s : Store) (c : Comment.t)
    (request : HttpRequest B) (u : User.t) :
  Integrity s -> In c (comments s) -> user request = LoggedIn u ->
  CommentDeleteView_get_object s request (Comment.pk c)
  = if Comment.author c =? User.pk u then Return c
    else Raise (Http404 "No Comment matches the given query.").
Proof.
  intros I Hc Hu.
  unfold CommentDeleteView_get_object, CommentDeleteView_get_queryset.
  rewrite Hu. simpl. apply (get_comment_of_author s c _ I Hc).
Qed.

(** C3, as the code has it.  A logged-in viewer who is not the author of a
    comment gets [Http404] from an edit request and from a delete request
    for it, whatever their method and content, and the store stays as it
    was.  A viewer who is not logged in is sent to the login page instead,
    again with the store as it was. *)
Theorem comment_mutation_by_non_author {B} (s : Store) (c : Comment.t)
    (edit : HttpRequest CommentForm.data) (delete : HttpRequest B) (pk : Z) :
  relational_integrity s = true -> In c (comments s) ->
  ((forall u, user edit = LoggedIn u -> User.pk u <> Comment.author c ->
      CommentUpdateView_as_view s edit pk (Comment.pk c)
      = (Raise (Http404 "No Comment matches the given query."), s))
   /\ (forall u, user delete = LoggedIn u -> User.pk u <> Comment.author c ->
         CommentDeleteView_as_view s delete pk (Comment.pk c)
         = (Raise (Http404 "No Comment matches the given query."), s)))
  /\ ((user edit = AnonymousUser ->
       CommentUpdateView_as_view s edit pk (Comment.pk c)
       = (Return (HttpResponseRedirect (login (blog.edit_comment pk (Comment.pk c)))),
          s))
      /\ (user delete = AnonymousUser ->
          CommentDeleteView_as_view s delete pk (Comment.pk c)
          = (Return (HttpResponseRedirect
                       (login (blog.delete_comment pk (Comment.pk c)))), s))).
Proof.
  intros Hs Hc. pose proof (relational_integrity_facts s Hs) as I.
  split; split.
  - intros u Hu Hne.
    unfold CommentUpdateView_as_view, LoginRequiredMixin_dispatch.
    rewrite (CommentUpdateView_get_object_spec s c edit u I Hc Hu), Hu. simpl.
    replace (Comment.author c =? User.pk u) with false
      by (symmetry; apply Z.eqb_neq; congruence).
    reflexivity.
  - intros u Hu Hne.
    unfold CommentDeleteView_as_view, CommentDeleteView_delete,
      LoginRequiredMixin_dispatch.
    rewrite (CommentDeleteView_get_object_spec s c delete u I Hc Hu), Hu. simpl.
    replace (Comment.author c =? User.pk u) with false
      by (symmetry; apply Z.eqb_neq; congruence).
    destruct (method delete); reflexivity.
  - intros Hu. unfold CommentUpdateView_as_view, LoginRequiredMixin_dispatch,
      handle_no_permission.
    now rewrite Hu.
  - intros Hu. unfold CommentDeleteView_as_view, LoginRequiredMixin_dispatch,
      handle_no_permission.
    now rewrite Hu.
Qed.

Lemma comment_mutation_by_non_author_demo :
  CommentUpdateView_as_view demo_store
    (request_by (LoggedIn alice) POST PageMissing {| CommentForm.text := "Mine now" |})
    1 1
  = (Raise (Http404 "No Comment matches the given query."), demo_store)
  /\ CommentDeleteView_as_view demo_store
       (request_by (LoggedIn alice) POST PageMissing tt) 1 1
     = (Raise (Http404 "No Comment matches the given query."), demo_store).
Proof.
  pose proof (proj1 (comment_mutation_by_non_author demo_store comment_1
           (request_by (LoggedIn alice) POST PageMissing
              {| CommentForm.text := "Mine now" |})
           (request_by (LoggedIn alice) POST PageMissing tt) 1
           eq_refl (or_introl eq_refl))) as [Hedit Hdelete].
  split.
  - apply (Hedit alice eq_refl). discriminate.
  - apply (Hdelete alice eq_refl). discriminate.
Defined.

(** C3, as stated, fails: nobody is logged in, the comment is bob's, and the
    edit and delete requests are answered with a redirect to the login page,
    not with [Http404]. *)
Lemma comment_mutation_by_anonymous_is_redirected :
  In comment_1 (comments demo_store)
  /\ ~ Spec.is_author AnonymousUser (Comment.author comment_1)
  /\ fst (CommentUpdateView_as_view demo_store
            (request_by AnonymousUser POST PageMissing
               {| CommentForm.text := "Mine now" |}) 1 1)
     = Return (HttpResponseRedirect (login (blog.edit_comment 1 1)))
  /\ fst (CommentDeleteView_as_view demo_store
            (request_by AnonymousUser POST PageMissing tt) 1 1)
     = Return (HttpResponseRedirect (login (blog.delete_comment 1 1)))
  /\ ~ Spec.NotFound
         (fst (CommentUpdateView_as_view demo_store
                 (request_by AnonymousUser POST PageMissing
                    {| CommentForm.text := "Mine now" |}) 1 1))
  /\ ~ Spec.NotFound
         (fst (CommentDeleteView_as_view demo_store
                 (request_by AnonymousUser POST PageMissing tt) 1 1)).
Proof.
  split; [simpl; tauto|].
  split; [intros [u [[=] _]]|].
  split; [reflexivity|]. split; [reflexivity|].
  split; intros [msg H]; discriminate H.
Qed.



(** ** PostListView *)

Lemma public_filter_spec (s : Store) (now : Z) (o : LoadedPost) :
  Integrity s -> loads s (row o) o ->
  (Post.is_published (row o) && (Post.pub_date (row o) <=? now)
   && category__is_published o = true
   <-> Spec.in_public_listing s now (row o)).
Proof.
  intros I Hl. unfold Spec.in_public_listing.
  rewrite !andb_true_iff, Z.leb_le.
  rewrite (loads_published_category s (row o) o I Hl). tauto.
Qed.

Lemma PostListView_queryset_perm (s : Store) (now : Z) :
  Permutation (PostListView_get_queryset s now)
    (annotate_comment_count s row
       (filter (fun o => Post.is_published (row o)
                         && (Post.pub_date (row o) <=? now)
                         && category__is_published o)
               (select_related s (posts s)))).
Proof. apply sort_by_perm. Qed.

Lemma annotate_fst {A} (s : Store) (post_of : A -> Post.t) (qs : list A) :
  map fst (annotate_comment_count s post_of qs) = qs.
Proof.
  unfold annotate_comment_count. rewrite map_map. simpl. apply map_id.
Qed.

Lemma Permutation_In_iff {A} (x : A) (l l' : list A) :
  Permutation l l' -> (In x l <-> In x l').
Proof.
  intros H. split; apply Permutation_in; [exact H|apply Permutation_sym, H].
Qed.

(** The public index holds exactly the posts of the public listing. *)
Lemma PostListView_queryset_In (s : Store) (now : Z) (p : Post.t) :
  Integrity s ->
  (In p (listed_posts (PostListView_get_queryset s now))
   <-> In p (posts s) /\ Spec.in_public_listing s now p).
Proof.
  intros I. unfold listed_posts.
  rewrite <- (map_map fst row).
  rewrite (Permutation_In_iff p _ _
             (Permutation_map row (Permutation_map fst (PostListView_queryset_perm s now)))).
  rewrite annotate_fst, in_map_iff. split.
  - intros [o [<- Ho]]. apply filter_In in Ho. destruct Ho as [Ho Hf].
    apply select_related_loads in Ho. destruct Ho as [Hin Hl].
    split; [exact Hin|]. now apply public_filter_spec.
  - intros [Hp Hpub]. destruct (select_related_In s p I Hp) as [o [Ho Hl]].
    exists o. destruct Hl as [Er Hl']. split; [exact Er|].
    apply filter_In. split; [exact Ho|].
    subst p. apply (public_filter_spec s now o I); [|exact Hpub].
    now split.
Qed.

Lemma PostListView_queryset_NoDup (s : Store) (now : Z) :
  Integrity s ->
  NoDup (map Post.pk (listed_posts (PostListView_get_queryset s now))).
Proof.
  intros I. unfold listed_posts. rewrite map_map.
  rewrite <- (map_map fst (fun o => Post.pk (row o))).
  eapply Permutation_NoDup.
  - apply Permutation_sym, Permutation_map, Permutation_map,
      PostListView_queryset_perm.
  - rewrite annotate_fst. apply NoDup_map_filter, select_related_pk_unique, I.
Qed.

Lemma PostListView_queryset_sorted (s : Store) (now : Z) :
  Spec.newest_first (listed_posts (PostListView_get_queryset s now)).
Proof.
  unfold Spec.newest_first, listed_posts, PostListView_get_queryset.
  apply (StronglySorted_map (fun a : LoadedPost * nat => row (fst a))
           (fun a b => Post.pub_date b <= Post.pub_date a)).
  apply (order_by_desc_sorted (fun a : LoadedPost * nat => pub_date_of (fst a))).
Qed.

Lemma PostListView_queryset_counts (s : Store) (now : Z) :
  Forall (fun a => snd a = Count_comments s (row (fst a)))
         (PostListView_get_queryset s now).
Proof.
  apply Forall_forall. intros a Ha.
  apply (Permutation_in _ (PostListView_queryset_perm s now)) in Ha.
  unfold annotate_comment_count in Ha. apply in_map_iff in Ha.
  destruct Ha as [o [<- _]]. reflexivity.
Qed.

Lemma Count_comments_spec (s : Store) (p : Post.t) :
  Count_comments s p
  = length (filter (fun c => Comment.post c =? Post.pk p) (comments s)).
Proof. reflexivity. Qed.

Lemma page_of_ten_concat {A} (l : list A) :
  let pages := Paginator.num_pages
                 {| Paginator.object_list := l; Paginator.per_page := 10 |} in
  concat (map (fun i => Spec.page_of_ten l (Z.of_nat i)) (seq 1 (Z.to_nat pages)))
  = l.
Proof.
  intros pages. rewrite <- seq_shift, map_map.
  rewrite (map_ext _ (fun i => firstn 10 (skipn (10 * i) l))).
  - apply pages_concat. unfold pages. rewrite num_pages_ten.
    assert (Z.of_nat (length l) <= 10 * ((Z.of_nat (length l) + 9) / 10)).
    { pose proof (Z.div_mod (Z.of_nat (length l) + 9) 10 ltac:(lia)).
      pose proof (Z.mod_pos_bound (Z.of_nat (length l) + 9) 10 ltac:(lia)). lia. }
    lia.
  - intros i. unfold Spec.page_of_ten. do 3 f_equal. lia.
Qed.

(** C4. The public index lists exactly the posts that are published, dated
    not after [now] and in a published category, each of them once and with
    the number of its comments, newest first, in pages of ten: page [n] of
    the view is the [n]-th slice of ten, the pages together are the whole
    listing, and a page number out of range is a 404.  With twenty-five
    qualifying posts there are three pages, of 10, 10 and 5 posts. *)
Theorem PostListView_lists_public_posts {B} (s : Store)
    (request : HttpRequest B) (now : Z) :
  relational_integrity s = true ->
  let qs := PostListView_get_queryset s now in
  let pages := Paginator.num_pages
                 {| Paginator.object_list := qs; Paginator.per_page := 10 |} in
  (forall p, In p (listed_posts qs)
             <-> In p (posts s) /\ Spec.in_public_listing s now p)
  /\ NoDup (map Post.pk (listed_posts qs))
  /\ Forall (fun a =>
       snd a = length (filter (fun c => Comment.post c =? Post.pk (row (fst a)))
                              (comments s))) qs
  /\ Spec.newest_first (listed_posts qs)
  /\ (forall n, method request = GET -> page request = PageInt n ->
        (1 <= n <= pages ->
         PostListView_as_view s request now
         = Return (TemplateResponse (index_html
                     {| Page.object_list := Spec.page_of_ten qs n;
                        Page.number := n; Page.num_pages := pages |})))
        /\ (n < 1 \/ pages < n ->
            Spec.NotFound (PostListView_as_view s request now)))
  /\ concat (map (fun i => Spec.page_of_ten qs (Z.of_nat i))
                 (seq 1 (Z.to_nat pages))) = qs
  /\ (forall qualifying : list Post.t,
        NoDup qualifying ->
        (forall p, In p qualifying
                   <-> In p (posts s) /\ Spec.in_public_listing s now p) ->
        length qualifying = 25%nat ->
        pages = 3
        /\ length (Spec.page_of_ten qs 1) = 10%nat
        /\ length (Spec.page_of_ten qs 2) = 10%nat
        /\ length (Spec.page_of_ten qs 3) = 5%nat).
Proof.
  intros Hs qs pages. pose proof (relational_integrity_facts s Hs) as I.
  assert (forall p, In p (listed_posts qs)
                    <-> In p (posts s) /\ Spec.in_public_listing s now p) as Hin
    by (intros p; apply PostListView_queryset_In, I).
  pose proof (PostListView_queryset_NoDup s now I) as Hnd. fold qs in Hnd.
  split; [exact Hin|]. split; [exact Hnd|].
  split; [apply PostListView_queryset_counts|].
  split; [apply PostListView_queryset_sorted|].
  split; [|split].
  - intros n Hm Hpg. unfold PostListView_as_view, PostListView_get.
    rewrite Hm, Hpg. fold qs.
    destruct (paginate_queryset_ten qs n) as [Hok Hbad]. split; intros Hn.
    + now rewrite (Hok Hn).
    + destruct (Hbad Hn) as [msg ->]. now eexists.
  - apply page_of_ten_concat.
  - intros qualifying Hq Hiff Hlen.
    assert (length qs = 25%nat) as Hqs.
    { rewrite <- Hlen. unfold listed_posts in *.
      rewrite <- (length_map (fun a => row (fst a)) qs).
      apply Permutation_length, NoDup_Permutation.
      - apply (NoDup_map_inv Post.pk), Hnd.
      - exact Hq.
      - intros p. rewrite Hin, Hiff. tauto. }
    split.
    + unfold pages. rewrite num_pages_ten, Hqs. reflexivity.
    + unfold Spec.page_of_ten.
      rewrite !length_firstn, !length_skipn, Hqs. repeat split.
Qed.

Lemma PostListView_lists_public_posts_demo :
  let qs := PostListView_get_queryset busy_store 100 in
  listed_posts qs = rev (posts busy_store)
  /\ Paginator.num_pages
       {| Paginator.object_list := qs; Paginator.per_page := 10 |} = 3
  /\ length (Spec.page_of_ten qs 1) = 10%nat
  /\ length (Spec.page_of_ten qs 2) = 10%nat
  /\ length (Spec.page_of_ten qs 3) = 5%nat
  /\ PostListView_as_view busy_store (request_by AnonymousUser GET (PageInt 3) tt) 100
     = Return (TemplateResponse (index_html
                 {| Page.object_list := Spec.page_of_ten qs 3;
                    Page.number := 3; Page.num_pages := 3 |}))
  /\ Spec.NotFound
       (PostListView_as_view busy_store
          (request_by AnonymousUser GET (PageInt 4) tt) 100).
Proof.
  intros qs.
  destruct (PostListView_lists_public_posts busy_store
              (request_by AnonymousUser GET (PageInt 3) tt) 100 eq_refl)
    as (Hin & Hnd & _ & _ & Hpage & _ & H25).
  destruct (PostListView_lists_public_posts busy_store
              (request_by AnonymousUser GET (PageInt 4) tt) 100 eq_refl)
    as (_ & _ & _ & _ & Hpage4 & _).
  split; [reflexivity|].
  destruct (H25 (listed_posts qs) (NoDup_map_inv Post.pk _ Hnd) Hin eq_refl)
    as (Hpages & H1 & H2 & H3).
  fold qs in Hpages, H1, H2, H3.
  split; [exact Hpages|]. split; [exact H1|]. split; [exact H2|].
  split; [exact H3|]. split.
  - apply (proj1 (Hpage 3 eq_refl eq_refl)). split; [lia|].
    fold qs. rewrite Hpages. lia.
  - apply (proj2 (Hpage4 4 eq_refl eq_refl)). right.
    fold qs. rewrite Hpages. lia.
Defined.

(** ** CategoryListView *)

Lemma get_category_or_404 (s : Store) (c : Category.t) :
  Integrity s -> In c (categories s) ->
  get_object_or_404 "Category"
    (filter (fun d => String.eqb (Category.slug d) (Category.slug c)) (categories s))
  = Return c.
Proof.
  intros I Hc. unfold get_object_or_404.
  now rewrite (unique_key_filter Category.slug String.eqb String.eqb_eq
                 (categories s) c _ (categories_slug s I) Hc eq_refl).
Qed.

Lemma get_category_missing (s : Store) (category_slug : string) :
  (forall c, In c (categories s) -> Category.slug c <> category_slug) ->
  get_object_or_404 "Category"
    (filter (fun d => String.eqb (Category.slug d) category_slug) (categories s))
  = Raise (Http404 "No Category matches the given query.").
Proof.
  intros H. unfold get_object_or_404.
  replace (filter _ (categories s)) with (@nil Category.t); [reflexivity|].
  symmetry. apply filter_nil_iff. intros c Hc.
  apply String.eqb_neq, H, Hc.
Qed.

Lemma category_filter_spec (s : Store) (c : Category.t) (now : Z)
    (o : LoadedPost) :
  Integrity s -> In c (categories s) -> loads s (row o) o ->
  (category__slug (Category.slug c) o && Post.is_published (row o)
   && (Post.pub_date (row o) <=? now) = true
   <-> Spec.in_category_listing c now (row o)).
Proof.
  intros I Hc (_ & _ & _ & Hj & _). unfold Spec.in_category_listing.
  rewrite !andb_true_iff, Z.leb_le.
  assert (category__slug (Category.slug c) o = true
          <-> Post.category (row o) = Some (Category.pk c)) as ->; [|tauto].
  unfold category__slug. destruct (category_obj o) as [c'|]; simpl in Hj.
  - destruct Hj as [Hc' E]. rewrite String.eqb_eq. split.
    + intros Eslug.
      rewrite <- (unique_key_inj Category.slug String.eqb String.eqb_eq
                    (categories s) c' c (categories_slug s I) Hc' Hc Eslug).
      exact E.
    + intros E'.
      rewrite (unique_key_inj Category.pk Z.eqb Z.eqb_eq (categories s) c' c
                 (categories_pk s I) Hc' Hc); [reflexivity|congruence].
  - split; [discriminate|]. intros E. destruct (Hj c Hc E).
Qed.

Lemma CategoryListView_queryset_perm (s : Store) (now : Z) (category_slug : string) :
  Permutation (CategoryListView_get_queryset s now category_slug)
    (filter (fun o => category__slug category_slug o
                      && Post.is_published (row o)
                      && (Post.pub_date (row o) <=? now))
            (select_related s (posts s))).
Proof. apply sort_by_perm. Qed.

Lemma CategoryListView_queryset_In (s : Store) (c : Category.t) (now : Z)
    (p : Post.t) :
  Integrity s -> In c (categories s) ->
  (In p (map row (CategoryListView_get_queryset s now (Category.slug c)))
   <-> In p (posts s) /\ Spec.in_category_listing c now p).
Proof.
  intros I Hc.
  rewrite (Permutation_In_iff p _ _
             (Permutation_map row (CategoryListView_queryset_perm s now _))).
  rewrite in_map_iff. split.
  - intros [o [<- Ho]]. apply filter_In in Ho. destruct Ho as [Ho Hf].
    apply select_related_loads in Ho. destruct Ho as [Hin Hl].
    split; [exact Hin|]. now apply (category_filter_spec s c now o I Hc Hl).
  - intros [Hp Hlist]. destruct (select_related_In s p I Hp) as [o [Ho Hl]].
    exists o. destruct Hl as [Er Hl']. split; [exact Er|].
    apply filter_In. split; [exact Ho|]. subst p.
    apply (category_filter_spec s c now o I Hc); [|exact Hlist]. now split.
Qed.

Lemma CategoryListView_queryset_NoDup (s : Store) (now : Z) (category_slug : string) :
  Integrity s ->
  NoDup (map Post.pk (map row (CategoryListView_get_queryset s now category_slug))).
Proof.
  intros I. rewrite map_map.
  eapply Permutation_NoDup.
  - apply Permutation_sym, Permutation_map, CategoryListView_queryset_perm.
  - apply NoDup_map_filter, select_related_pk_unique, I.
Qed.

Lemma CategoryListView_queryset_sorted (s : Store) (now : Z) (category_slug : string) :
  Spec.newest_first (map row (CategoryListView_get_queryset s now category_slug)).
Proof.
  unfold Spec.newest_first, CategoryListView_get_queryset.
  apply (StronglySorted_map row (fun a b => Post.pub_date b <= Post.pub_date a)).
  apply (order_by_desc_sorted pub_date_of).
Qed.

(** C5. [CategoryListView.get] raises [Http404] when no category has the
    slug and when the category that has it is not published.  Otherwise it
    serves, newest first and in pages of ten, the posts of that category
    that are published and dated not after [now].  The query set itself is
    these posts whether or not the category is published: the posts are not
    filtered on [category.is_published].  For a logged-in viewer the
    category page is what [get] returns. *)
Theorem CategoryListView_get_lists_category {B} (s : Store)
    (request : HttpRequest B) (now : Z) (category_slug : string) :
  relational_integrity s = true ->
  let qs := CategoryListView_get_queryset s now category_slug in
  let pages := Paginator.num_pages
                 {| Paginator.object_list := qs; Paginator.per_page := 10 |} in
  ((forall c, In c (categories s) -> Category.slug c <> category_slug) ->
   Spec.NotFound (CategoryListView_get s request now category_slug))
  /\ (forall c, In c (categories s) -> Category.slug c = category_slug ->
        (forall p, In p (map row qs)
                   <-> In p (posts s) /\ Spec.in_category_listing c now p)
        /\ NoDup (map Post.pk (map row qs))
        /\ Spec.newest_first (map row qs)
        /\ concat (map (fun i => Spec.page_of_ten qs (Z.of_nat i))
                       (seq 1 (Z.to_nat pages))) = qs
        /\ (Category.is_published c = false ->
            CategoryListView_get s request now category_slug
            = Raise (Http404 "category is not published"))
        /\ (Category.is_published c = true ->
            forall n, page request = PageInt n ->
              (1 <= n <= pages ->
               CategoryListView_get s request now category_slug
               = Return (TemplateResponse (category_html c
                           {| Page.object_list := Spec.page_of_ten qs n;
                              Page.number := n; Page.num_pages := pages |})))
              /\ (n < 1 \/ pages < n ->
                  Spec.NotFound (CategoryListView_get s request now category_slug))))
  /\ (forall u, user request = LoggedIn u -> method request = GET ->
        CategoryListView_as_view s request now category_slug
        = CategoryListView_get s request now category_slug).
Proof.
  intros Hs qs pages. pose proof (relational_integrity_facts s Hs) as I.
  split; [|split; [|apply CategoryListView_as_view_logged_in]].
  - intros Hmissing. unfold CategoryListView_get.
    rewrite (bind_Raise _ _ _ (get_category_missing s category_slug Hmissing)).
    now eexists.
  - intros c Hc <-.
    split; [intros p; apply (CategoryListView_queryset_In s c now p I Hc)|].
    split; [apply CategoryListView_queryset_NoDup, I|].
    split; [apply CategoryListView_queryset_sorted|].
    split; [apply page_of_ten_concat|].
    unfold CategoryListView_get.
    rewrite (bind_Return _ _ c (get_category_or_404 s c I Hc)).
    split.
    + intros ->. reflexivity.
    + intros -> n Hpg. simpl. rewrite Hpg. unfold POSTS_ON_PAGE. fold qs.
      destruct (paginate_queryset_ten qs n) as [Hok Hbad]. split; intros Hn.
      * now rewrite (Hok Hn).
      * destruct (Hbad Hn) as [msg ->]. now eexists.
Qed.

(** The example of the specification: of A, B and C in "travel", only A is
    listed; "drafts" is not browsable, although post E would pass the filter
    on the posts. *)
Lemma CategoryListView_get_lists_category_demo :
  map row (CategoryListView_get_queryset demo_store 100 "travel") = [post_A]
  /\ CategoryListView_get demo_store
       (request_by (LoggedIn alice) GET (PageInt 1) tt) 100 "travel"
     = Return (TemplateResponse (category_html travel
                 {| Page.object_list :=
                      Spec.page_of_ten
                        (CategoryListView_get_queryset demo_store 100 "travel") 1;
                    Page.number := 1; Page.num_pages := 1 |}))
  /\ CategoryListView_get demo_store
       (request_by (LoggedIn alice) GET (PageInt 1) tt) 100 "drafts"
     = Raise (Http404 "category is not published")
  /\ In post_E (map row (CategoryListView_get_queryset demo_store 100 "drafts"))
  /\ Spec.NotFound
       (CategoryListView_get demo_store
          (request_by (LoggedIn alice) GET (PageInt 1) tt) 100 "nowhere").
Proof.
  destruct (CategoryListView_get_lists_category demo_store
              (request_by (LoggedIn alice) GET (PageInt 1) tt) 100 "travel" eq_refl)
    as [_ [Htravel _]].
  destruct (CategoryListView_get_lists_category demo_store
              (request_by (LoggedIn alice) GET (PageInt 1) tt) 100 "drafts" eq_refl)
    as [_ [Hdrafts _]].
  destruct (CategoryListView_get_lists_category demo_store
              (request_by (LoggedIn alice) GET (PageInt 1) tt) 100 "nowhere" eq_refl)
    as [Hnowhere _].
  destruct (Htravel travel (or_introl eq_refl) eq_refl)
    as (_ & _ & _ & _ & _ & Hpub).
  destruct (Hdrafts drafts (or_intror (or_introl eq_refl)) eq_refl)
    as (Hin & _ & _ & _ & Hunpub & _).
  split; [reflexivity|].
  split; [apply (proj1 (Hpub eq_refl 1 eq_refl)); cbv; split; discriminate|].
  split; [apply (Hunpub eq_refl)|].
  split.
  - apply Hin. split; [simpl; tauto|].
    split; [reflexivity|]. split; [reflexivity|]. simpl. lia.
  - apply Hnowhere. intros c [<-|[<-|[]]]; discriminate.
Defined.

(** ** ProfileDetailView *)

Lemma ProfileDetailView_posts_unfold (s : Store) (viewer : RequestUser)
    (now : Z) (profile : User.t) :
  ProfileDetailView_posts s viewer now profile
  = if negb (user_eqb viewer profile) then
      filter (fun a => Post.is_published (fst a) && (Post.pub_date (fst a) <=? now))
             (user_posts s profile)
    else user_posts s profile.
Proof. reflexivity. Qed.

Lemma user_posts_perm (s : Store) (profile : User.t) :
  Permutation (map fst (user_posts s profile))
    (filter (fun p => pk_eqb (Post.author p) (User.pk profile)) (posts s)).
Proof.
  unfold user_posts, order_by.
  eapply perm_trans; [apply Permutation_map, sort_by_perm|].
  rewrite annotate_fst. apply Permutation_refl.
Qed.

Lemma user_posts_In (s : Store) (profile : User.t) (p : Post.t) :
  In p (map fst (user_posts s profile))
  <-> In p (posts s) /\ Post.author p = User.pk profile.
Proof.
  rewrite (Permutation_In_iff p _ _ (user_posts_perm s profile)).
  rewrite filter_In. unfold pk_eqb. now rewrite Z.eqb_eq.
Qed.

Lemma user_posts_NoDup (s : Store) (profile : User.t) :
  Integrity s -> NoDup (map (fun a => Post.pk (fst a)) (user_posts s profile)).
Proof.
  intros I. rewrite <- (map_map fst Post.pk).
  eapply Permutation_NoDup.
  - apply Permutation_sym, Permutation_map, user_posts_perm.
  - apply NoDup_map_filter, (uniqueb_NoDup Z.eqb Z.eqb_eq), (posts_pk s I).
Qed.

Lemma user_posts_sorted (s : Store) (profile : User.t) :
  StronglySorted (fun a b => Post.pub_date (fst b) <= Post.pub_date (fst a))
                 (user_posts s profile).
Proof. apply (order_by_desc_sorted (fun a : Post.t * nat => Post.pub_date (fst a))). Qed.

Lemma user_posts_counts (s : Store) (profile : User.t) :
  Forall (fun a => snd a = Count_comments s (fst a)) (user_posts s profile).
Proof.
  apply Forall_forall. intros a Ha.
  apply (Permutation_in _ (sort_by_perm _ _)) in Ha.
  unfold annotate_comment_count in Ha. apply in_map_iff in Ha.
  destruct Ha as [o [<- _]]. reflexivity.
Qed.

Lemma get_user_or_404 (s : Store) (profile : User.t) :
  Integrity s -> In profile (users s) ->
  get_object "User" (fun u => String.eqb (User.username u) (User.username profile))
    (users s) = Return profile.
Proof.
  intros I Hu. unfold get_object, get_object_or_404.
  now rewrite (unique_key_filter User.username String.eqb String.eqb_eq
                 (users s) profile _ (users_username s I) Hu eq_refl).
Qed.

(** C6. The profile page of a user lists, newest first and in pages of ten,
    all the posts of that user when the viewer is that user, unpublished and
    future-dated ones included, and otherwise those of them that are
    published and dated not after [now].  The category plays no part in
    either case.  [Paginator.get_page] always serves a page: the one asked
    for when it exists. *)
Theorem ProfileDetailView_lists_profile_posts {B} (s : Store)
    (request : HttpRequest B) (now : Z) (profile : User.t) :
  relational_integrity s = true -> In profile (users s) ->
  let qs := ProfileDetailView_posts s (user request) now profile in
  let pages := Paginator.num_pages
                 {| Paginator.object_list := qs; Paginator.per_page := 10 |} in
  (Spec.is_author (user request) (User.pk profile) ->
   forall p, In p (map fst qs)
             <-> In p (posts s) /\ Post.author p = User.pk profile)
  /\ (~ Spec.is_author (user request) (User.pk profile) ->
      forall p, In p (map fst qs)
                <-> In p (posts s) /\ Post.author p = User.pk profile
                    /\ Post.is_published p = true /\ Post.pub_date p <= now)
  /\ NoDup (map Post.pk (map fst qs))
  /\ Forall (fun a =>
       snd a = length (filter (fun c => Comment.post c =? Post.pk (fst a))
                              (comments s))) qs
  /\ Spec.newest_first (map fst qs)
  /\ concat (map (fun i => Spec.page_of_ten qs (Z.of_nat i))
                 (seq 1 (Z.to_nat pages))) = qs
  /\ exists n, 1 <= n <= pages
       /\ (forall m, page request = PageInt m -> 1 <= m <= pages -> n = m)
       /\ ProfileDetailView_get s request now (User.username profile)
          = Return (TemplateResponse (profile_html profile
                      {| Page.object_list := Spec.page_of_ten qs n;
                         Page.number := n; Page.num_pages := pages |})).
Proof.
  intros Hs Hu qs pages. pose proof (relational_integrity_facts s Hs) as I.
  pose proof (user_eqb_author (user request) profile (User.pk profile) eq_refl)
    as Hauthor.
  pose proof (ProfileDetailView_posts_unfold s (user request) now profile) as Eqs.
  fold qs in Eqs.
  split; [|split; [|split; [|split; [|split; [|split]]]]].
  - intros Ha p. apply Hauthor in Ha. rewrite Ha in Eqs. simpl in Eqs.
    rewrite Eqs. apply user_posts_In.
  - intros Hna p.
    destruct (user_eqb (user request) profile) eqn:E;
      [exfalso; apply Hna; now apply Hauthor|].
    simpl in Eqs. rewrite Eqs.
    rewrite (map_filter_comm fst _
               (fun q => Post.is_published q && (Post.pub_date q <=? now)))
      by reflexivity.
    rewrite filter_In, user_posts_In, andb_true_iff, Z.leb_le. tauto.
  - rewrite map_map, Eqs.
    destruct (negb _); [apply NoDup_map_filter|]; apply user_posts_NoDup, I.
  - rewrite Eqs. pose proof (user_posts_counts s profile) as Hc.
    destruct (negb _); [|exact Hc].
    rewrite Forall_forall in *. intros a Ha. apply filter_In in Ha.
    apply Hc, Ha.
  - unfold Spec.newest_first.
    apply (StronglySorted_map fst (fun a b => Post.pub_date b <= Post.pub_date a)).
    rewrite Eqs. pose proof (user_posts_sorted s profile) as Hsorted.
    destruct (negb _); [apply StronglySorted_filter|]; exact Hsorted.
  - apply page_of_ten_concat.
  - destruct (get_page_ten qs (page request)) as [n (Hn & Hm & Hpage)].
    exists n. split; [exact Hn|]. split; [exact Hm|].
    unfold ProfileDetailView_get.
    rewrite (bind_Return _ _ profile (get_user_or_404 s profile I Hu)).
    fold qs. cbv zeta. now rewrite Hpage.
Qed.

(** The example of the specification: bob sees all his posts on his profile,
    the future-dated C first; alice does not see C, nor the unpublished B,
    but does see E, whose category is not published. *)
Lemma ProfileDetailView_lists_profile_posts_demo :
  (forall p, In p (map fst (ProfileDetailView_posts demo_store (LoggedIn bob) 100 bob))
             <-> In p (posts demo_store) /\ Post.author p = 2)
  /\ In post_C (map fst (ProfileDetailView_posts demo_store (LoggedIn bob) 100 bob))
  /\ ~ In post_C
         (map fst (ProfileDetailView_posts demo_store (LoggedIn alice) 100 bob))
  /\ In post_E
        (map fst (ProfileDetailView_posts demo_store (LoggedIn alice) 100 bob)).
Proof.
  destruct (ProfileDetailView_lists_profile_posts demo_store
              (request_by (LoggedIn bob) GET PageMissing tt) 100 bob eq_refl
              (or_intror (or_introl eq_refl))) as (Hown & _).
  destruct (ProfileDetailView_lists_profile_posts demo_store
              (request_by (LoggedIn alice) GET PageMissing tt) 100 bob eq_refl
              (or_intror (or_introl eq_refl))) as (_ & Hother & _).
  assert (~ Spec.is_author (LoggedIn alice) (User.pk bob)) as Hna
    by (intros [u [[= <-] E]]; discriminate E).
  assert (Spec.is_author (LoggedIn bob) (User.pk bob)) as Ha
    by (exists bob; split; reflexivity).
  split; [exact (Hown Ha)|]. split; [|split].
  - apply (Hown Ha). split; [simpl; tauto|reflexivity].
  - intros Hin. apply (Hother Hna) in Hin.
    destruct Hin as (_ & _ & _ & Hdate). simpl in Hdate. lia.
  - apply (Hother Hna). split; [simpl; tauto|].
    split; [reflexivity|]. split; [reflexivity|]. simpl. lia.
Defined.

(** ** Who is let in *)

Lemma get_object_Return {A} (model : string) (key : A -> bool) (l : list A) (a : A) :
  get_object model key l = Return a -> In a l /\ key a = true.
Proof.
  unfold get_object, get_object_or_404, QuerySet_get.
  destruct (filter key l) as [|x [|y m]] eqn:E; try discriminate.
  intros [= <-]. apply filter_In. rewrite E. now left.
Qed.

(** C7, as the code has it.  A viewer who is not logged in is served by the
    public index and by the profile pages, with the answer any viewer who is
    not the owner of the profile gets.  The post detail page and the
    category listing sit behind [LoginRequiredMixin]: they answer such a
    viewer with a redirect to the login page, whatever the post or the
    category. *)
Theorem anonymous_viewer_access {B} (s : Store) (request : HttpRequest B)
    (now : Z) :
  user request = AnonymousUser ->
  (forall pk,
     PostDetailView_as_view s request now pk
     = Return (HttpResponseRedirect (login (blog.post_detail pk))))
  /\ (forall category_slug,
        CategoryListView_as_view s request now category_slug
        = Return (HttpResponseRedirect (login (blog.category_posts category_slug))))
  /\ (forall u,
        PostListView_as_view s request now
        = PostListView_as_view s (with_user request (LoggedIn u)) now)
  /\ (forall u username,
        (forall profile, In profile (users s) ->
           User.username profile = username -> User.pk u <> User.pk profile) ->
        ProfileDetailView_as_view s request now username
        = ProfileDetailView_as_view s (with_user request (LoggedIn u)) now username).
Proof.
  intros Hu. split; [|split; [|split]].
  - intros pk. unfold PostDetailView_as_view, LoginRequiredMixin_dispatch.
    now rewrite Hu.
  - intros slug. unfold CategoryListView_as_view, LoginRequiredMixin_dispatch.
    now rewrite Hu.
  - reflexivity.
  - intros u username Hother.
    unfold ProfileDetailView_as_view, ProfileDetailView_get. simpl.
    destruct (method request); [|reflexivity].
    destruct (get_object "User" _ (users s)) as [profile|e] eqn:E; [|reflexivity].
    apply get_object_Return in E. destruct E as [Hin Hname].
    apply String.eqb_eq in Hname. simpl.
    rewrite !ProfileDetailView_posts_unfold, Hu. simpl.
    replace (pk_eqb (User.pk u) (User.pk profile)) with false; [reflexivity|].
    symmetry. apply Z.eqb_neq, (Hother profile Hin Hname).
Qed.

Lemma anonymous_viewer_access_demo :
  PostDetailView_as_view demo_store
    (request_by AnonymousUser GET PageMissing tt) 100 1
  = Return (HttpResponseRedirect (login (blog.post_detail 1)))
  /\ CategoryListView_as_view demo_store
       (request_by AnonymousUser GET PageMissing tt) 100 "travel"
     = Return (HttpResponseRedirect (login (blog.category_posts "travel")))
  /\ PostListView_as_view demo_store
       (request_by AnonymousUser GET PageMissing tt) 100
     = PostListView_as_view demo_store
         (request_by (LoggedIn alice) GET PageMissing tt) 100
  /\ ProfileDetailView_as_view demo_store
       (request_by AnonymousUser GET PageMissing tt) 100 "bob"
     = ProfileDetailView_as_view demo_store
         (request_by (LoggedIn alice) GET PageMissing tt) 100 "bob".
Proof.
  destruct (anonymous_viewer_access demo_store
              (request_by AnonymousUser GET PageMissing tt) 100 eq_refl)
    as (Hdetail & Hcategory & Hindex & Hprofile).
  split; [apply Hdetail|]. split; [apply Hcategory|].
  split; [apply (Hindex alice)|].
  apply (Hprofile alice "bob"%string).
  intros profile [<-|[<-|[]]] E; discriminate.
Defined.

(** C7, as stated, fails: post A is publicly visible and "travel" is a
    published category, yet a viewer who is not logged in gets a redirect to
    the login page from both pages, where a logged-in viewer gets the page. *)
Lemma anonymous_viewer_is_sent_to_login :
  In post_A (posts demo_store)
  /\ Spec.publicly_visible demo_store 100 post_A
  /\ In travel (categories demo_store) /\ Category.is_published travel = true
  /\ PostDetailView_as_view demo_store
       (request_by AnonymousUser GET PageMissing tt) 100 (Post.pk post_A)
     = Return (HttpResponseRedirect (login (blog.post_detail 1)))
  /\ CategoryListView_as_view demo_store
       (request_by AnonymousUser GET PageMissing tt) 100 (Category.slug travel)
     = Return (HttpResponseRedirect (login (blog.category_posts "travel")))
  /\ (exists context,
        PostDetailView_as_view demo_store
          (request_by (LoggedIn alice) GET PageMissing tt) 100 (Post.pk post_A)
        = Return (TemplateResponse context))
  /\ (exists context,
        CategoryListView_as_view demo_store
          (request_by (LoggedIn alice) GET PageMissing tt) 100 (Category.slug travel)
        = Return (TemplateResponse context)).
Proof.
  split; [simpl; tauto|].
  split; [split; [reflexivity|split; [simpl; lia|]];
          right; exists travel; simpl; tauto|].
  split; [simpl; tauto|]. split; [reflexivity|].
  split; [reflexivity|]. split; [reflexivity|].
  split; eexists; reflexivity.
Qed.

(** ** The comments of a post *)

Lemma select_related_author_In (s : Store) (qs : list Comment.t)
    (c : Comment.t) (u : User.t) :
  In (c, u) (select_related_author s qs) ->
  In c qs /\ In u (users s) /\ User.pk u = Comment.author c.
Proof.
  unfold select_related_author. intros H.
  apply in_flat_map in H. destruct H as [d [Hd H]].
  apply in_map_iff in H. destruct H as [v [[= <- <-] Hv]].
  apply filter_In in Hv. destruct Hv as [Hv E]. apply Z.eqb_eq in E. tauto.
Qed.

Lemma select_related_author_fst (s : Store) (qs : list Comment.t) :
  Integrity s -> (forall c, In c qs -> In c (comments s)) ->
  map fst (select_related_author s qs) = qs.
Proof.
  intros I. induction qs as [|c qs IH]; intros Hqs; [reflexivity|].
  unfold select_related_author in *. simpl. rewrite map_app.
  rewrite IH by (intros d Hd; apply Hqs; now right).
  destruct (comment_author_fk s I c (Hqs c (or_introl eq_refl))) as [u [Hu E]].
  unfold pk_eqb.
  rewrite (unique_key_filter User.pk Z.eqb Z.eqb_eq (users s) u _
             (users_pk s I) Hu E).
  reflexivity.
Qed.

Lemma Post_comments_In (s : Store) (p : Post.t) (c : Comment.t) :
  In c (Post_comments s p)
  <-> In c (comments s) /\ Comment.post c = Post.pk p.
Proof.
  unfold Post_comments, order_by. rewrite sort_by_In, filter_In.
  unfold pk_eqb. now rewrite Z.eqb_eq.
Qed.

(** C9. The comments the detail page shows for a post are all the comments
    of that post, each once, oldest first by [created_at], and each comes
    with the user row of its author. *)
Theorem PostDetailView_comments_oldest_first (s : Store) (object : LoadedPost) :
  relational_integrity s = true ->
  let listed := select_related_author s (Post_comments s (row object)) in
  PostDetailView_get_context_data s object = detail_html object listed
  /\ (forall c, In c (map fst listed)
                <-> In c (comments s) /\ Comment.post c = Post.pk (row object))
  /\ NoDup (map Comment.pk (map fst listed))
  /\ Spec.oldest_first (map fst listed)
  /\ Forall (fun cu => In (snd cu) (users s)
                       /\ User.pk (snd cu) = Comment.author (fst cu)) listed.
Proof.
  intros Hs listed. pose proof (relational_integrity_facts s Hs) as I.
  assert (map fst listed = Post_comments s (row object)) as Efst.
  { apply (select_related_author_fst s _ I).
    intros c Hc. now apply Post_comments_In in Hc. }
  split; [reflexivity|]. rewrite Efst.
  split; [intros c; apply Post_comments_In|].
  split; [|split].
  - unfold Post_comments, order_by.
    eapply Permutation_NoDup.
    + apply Permutation_sym, Permutation_map, sort_by_perm.
    + apply NoDup_map_filter, (uniqueb_NoDup Z.eqb Z.eqb_eq), (comments_pk s I).
  - apply (order_by_asc_sorted Comment.created_at).
  - apply Forall_forall. intros [c u] Hcu.
    apply select_related_author_In in Hcu. simpl. tauto.
Qed.

Lemma PostDetailView_comments_oldest_first_demo :
  let listed := select_related_author demo_store (Post_comments demo_store post_A) in
  listed = [(comment_2, alice); (comment_1, bob)]
  /\ Spec.oldest_first (map fst listed)
  /\ (forall c, In c (map fst listed)
                <-> In c (comments demo_store) /\ Comment.post c = 1).
Proof.
  intros listed.
  destruct (PostDetailView_comments_oldest_first demo_store
              {| row := post_A; author_obj := bob; category_obj := Some travel;
                 location_obj := None |} eq_refl)
    as (_ & Hin & _ & Hsorted & _).
  split; [reflexivity|]. split; [exact Hsorted|exact Hin].
Defined.

(** ** A post without a category *)



(** ** The author's side of the same views *)

Example bob_edits_own_post :
  let r := PostUpdateView_dispatch demo_store
             (request_by (LoggedIn bob) POST PageMissing sample_post_form) 1 in
  fst r = Return (redirect (blog.post_detail 1))
  /\ map Post.title (posts (snd r))
     = ["Hijacked"; "A post"; "A post"; "A post"; "A post"]%string.
Proof. split; reflexivity. Qed.

Example bob_deletes_own_post :
  let r := PostDeleteView_dispatch demo_store
             (request_by (LoggedIn bob) POST PageMissing tt) 1 in
  fst r = Return (redirect blog.index)
  /\ map Post.pk (posts (snd r)) = [2; 3; 4; 5]
  /\ comments (snd r) = [].
Proof. repeat split; reflexivity. Qed.

Example bob_edits_own_comment :
  let r := CommentUpdateView_as_view demo_store
             (request_by (LoggedIn bob) POST PageMissing
                {| CommentForm.text := "  Fixed " |}) 1 1 in
  fst r = Return (redirect (blog.post_detail 1))
  /\ map Comment.text (comments (snd r)) = ["Fixed"; "Nice"]%string.
Proof. split; reflexivity. Qed.

Example bob_deletes_own_comment :
  let r := CommentDeleteView_as_view demo_store
             (request_by (LoggedIn bob) POST PageMissing tt) 1 1 in
  fst r = Return (redirect (blog.post_detail 1))
  /\ comments (snd r) = [comment_2].
Proof. split; reflexivity. Qed.

Example alice_reads_post_A :
  exists comments,
    PostDetailView_as_view demo_store
      (request_by (LoggedIn alice) GET PageMissing tt) 100 1
    = Return (TemplateResponse (detail_html
                {| row := post_A; author_obj := bob;
                   category_obj := Some travel; location_obj := None |}
                comments)).
Proof. eexists. reflexivity. Qed.

(** * Further properties of the views *)

(** ** The schema's constraints, back and forth *)

Lemma NoDup_uniqueb {K} (eqb : K -> K -> bool)
    (eqb_eq : forall x y, eqb x y = true <-> x = y) (l : list K) :
  NoDup l -> uniqueb eqb l = true.
Proof.
  induction 1 as [|k l Hnotin Hnd IH]; [reflexivity|].
  simpl. rewrite IH, andb_true_r. apply negb_true_iff.
  destruct (existsb (eqb k) l) eqn:E; [|reflexivity].
  apply existsb_exists in E. destruct E as [k' [Hin E]].
  apply eqb_eq in E. subst k'. contradiction.
Qed.

Lemma uniqueb_map_filter {A K} (key : A -> K) (eqb : K -> K -> bool)
    (eqb_eq : forall x y, eqb x y = true <-> x = y) (f : A -> bool) (l : list A) :
  uniqueb eqb (map key l) = true -> uniqueb eqb (map key (filter f l)) = true.
Proof.
  intros H. apply (NoDup_uniqueb eqb eqb_eq), NoDup_map_filter,
    (uniqueb_NoDup eqb eqb_eq), H.
Qed.

Lemma uniqueb_app_fresh {K} (eqb : K -> K -> bool)
    (eqb_eq : forall x y, eqb x y = true <-> x = y) (l : list K) (k : K) :
  uniqueb eqb l = true -> ~ In k l -> uniqueb eqb (l ++ [k]) = true.
Proof.
  intros H Hfresh. apply (NoDup_uniqueb eqb eqb_eq).
  apply (Permutation_NoDup (Permutation_cons_append l k)).
  constructor; [exact Hfresh|]. apply (uniqueb_NoDup eqb eqb_eq), H.
Qed.

Lemma In_fk_ok {A} (pk_of : A -> Z) (table : list A) (r : A) (k : Z) :
  In r table -> pk_of r = k -> fk_ok pk_of table k = true.
Proof.
  intros Hr E. unfold fk_ok, pk_eqb. apply existsb_exists.
  exists r. split; [exact Hr|]. now apply Z.eqb_eq.
Qed.

Lemma Integrity_relational_integrity (s : Store) :
  Integrity s -> relational_integrity s = true.
Proof.
  intros I. unfold relational_integrity.
  rewrite (users_pk s I), (users_username s I), (categories_pk s I),
    (categories_slug s I), (locations_pk s I), (posts_pk s I), (comments_pk s I).
  simpl. apply andb_true_intro. split; apply forallb_forall.
  - intros p Hp. apply andb_true_intro. split; [apply andb_true_intro; split|].
    + destruct (post_author_fk s I p Hp) as [u [Hu E]].
      apply (In_fk_ok _ _ u _ Hu E).
    + unfold nullable_fk_ok. destruct (Post.category p) as [k|] eqn:E; [|reflexivity].
      destruct (post_category_fk s I p k Hp E) as [c [Hc E']].
      apply (In_fk_ok _ _ c _ Hc E').
    + unfold nullable_fk_ok. destruct (Post.location p) as [k|] eqn:E; [|reflexivity].
      destruct (post_location_fk s I p k Hp E) as [l [Hl E']].
      apply (In_fk_ok _ _ l _ Hl E').
  - intros c Hc. apply andb_true_intro. split.
    + destruct (comment_author_fk s I c Hc) as [u [Hu E]].
      apply (In_fk_ok _ _ u _ Hu E).
    + destruct (comment_post_fk s I c Hc) as [p [Hp E]].
      apply (In_fk_ok _ _ p _ Hp E).
Qed.

(** ** What the forms let through *)

Lemma exists_pk_In {A} (pk_of : A -> Z) (table : list A) (k : Z) :
  PostModelForm.exists_pk pk_of table k = true ->
  exists r, In r table /\ pk_of r = k.
Proof. apply fk_ok_In. Qed.

Lemma PostModelForm_clean_Some (s : Store) (instance p' : Post.t)
    (d : PostModelForm.data) :
  PostModelForm.clean s instance d = Some p' ->
  Post.pk p' = Post.pk instance
  /\ Post.created_at p' = Post.created_at instance
  /\ Post.is_published p' = PostModelForm.is_published d
  /\ clean_char (Some 256%nat) (PostModelForm.title d) = Some (Post.title p')
  /\ clean_char None (PostModelForm.text d) = Some (Post.text p')
  /\ PostModelForm.pub_date d = Some (Post.pub_date p')
  /\ PostModelForm.author d = Some (Post.author p')
  /\ Post.location p' = PostModelForm.location d
  /\ Post.category p' = PostModelForm.category d
  /\ (exists u, In u (users s) /\ User.pk u = Post.author p')
  /\ (exists c, In c (categories s) /\ Post.category p' = Some (Category.pk c))
  /\ (forall k, Post.location p' = Some k ->
        exists l, In l (locations s) /\ Location.pk l = k).
Proof.
  unfold PostModelForm.clean.
  destruct (clean_char _ (PostModelForm.title d)) as [title'|]; [|discriminate].
  destruct (clean_char None _) as [text'|]; [|discriminate].
  destruct (PostModelForm.pub_date d) as [pub_date'|]; [|discriminate].
  destruct (PostModelForm.author d) as [author'|]; [|discriminate].
  destruct (PostModelForm.category d) as [category'|]; [|discriminate].
  destruct (_ && _ && _) eqn:E; [|discriminate].
  intros [= <-]. simpl.
  apply andb_prop in E. destruct E as [E El].
  apply andb_prop in E. destruct E as [Eu Ec].
  apply exists_pk_In in Eu. apply exists_pk_In in Ec.
  repeat (split; [reflexivity|]). split; [exact Eu|]. split.
  - destruct Ec as [c [Hc <-]]. now exists c.
  - intros k Ek. rewrite Ek in El. now apply exists_pk_In.
Qed.

(** ** Writes keep the schema's constraints *)

Lemma map_replace_key {A} (key : A -> Z) (k : Z) (x : A) (l : list A) :
  key x = k ->
  map key (map (fun y => if pk_eqb (key y) k then x else y) l) = map key l.
Proof.
  intros E. rewrite map_map. apply map_ext. intros y. unfold pk_eqb.
  destruct (key y =? k) eqn:Ey; [|reflexivity].
  apply Z.eqb_eq in Ey. congruence.
Qed.

Lemma In_replace {A} (key : A -> Z) (x : A) (l : list A) (y : A) :
  In y (map (fun z => if pk_eqb (key z) (key x) then x else z) l) ->
  y = x \/ In y l.
Proof.
  intros H. apply in_map_iff in H. destruct H as [z [E Hz]].
  destruct (pk_eqb (key z) (key x)); [left|right]; congruence.
Qed.

Lemma replace_keeps_keys {A} (key : A -> Z) (x : A) (l : list A) (k : Z) :
  (exists y, In y l /\ key y = k) ->
  exists y, In y (map (fun z => if pk_eqb (key z) (key x) then x else z) l)
            /\ key y = k.
Proof.
  intros [y [Hy E]].
  exists (if pk_eqb (key y) (key x) then x else y). split.
  - apply in_map_iff. now exists y.
  - unfold pk_eqb. destruct (key y =? key x) eqn:Ey; [|exact E].
    apply Z.eqb_eq in Ey. congruence.
Qed.

Lemma save_post_Integrity (s : Store) (p : Post.t) :
  Integrity s ->
  (exists u, In u (users s) /\ User.pk u = Post.author p) ->
  (forall k, Post.category p = Some k ->
     exists c, In c (categories s) /\ Category.pk c = k) ->
  (forall k, Post.location p = Some k ->
     exists l, In l (locations s) /\ Location.pk l = k) ->
  Integrity (save_post s p).
Proof.
  intros I Hu Hc Hl. constructor; simpl; try apply I.
  - rewrite (map_replace_key Post.pk _ p _ eq_refl). apply I.
  - intros q Hq. apply (In_replace Post.pk) in Hq.
    destruct Hq as [->|Hq]; [exact Hu|apply (post_author_fk s I q Hq)].
  - intros q k Hq. apply (In_replace Post.pk) in Hq.
    destruct Hq as [->|Hq]; [apply Hc|apply (post_category_fk s I q k Hq)].
  - intros q k Hq. apply (In_replace Post.pk) in Hq.
    destruct Hq as [->|Hq]; [apply Hl|apply (post_location_fk s I q k Hq)].
  - intros c Hc'. apply (replace_keeps_keys Post.pk), (comment_post_fk s I c Hc').
Qed.

(** Here the cascade matters: without it the comments of the post would
    point nowhere. *)
Lemma delete_post_Integrity (s : Store) (p : Post.t) :
  Integrity s -> Integrity (delete_post s p).
Proof.
  intros I. constructor; simpl; try apply I.
  - apply (uniqueb_map_filter Post.pk Z.eqb Z.eqb_eq), I.
  - apply (uniqueb_map_filter Comment.pk Z.eqb Z.eqb_eq), I.
  - intros q Hq. apply filter_In in Hq. apply (post_author_fk s I q), Hq.
  - intros q k Hq. apply filter_In in Hq. apply (post_category_fk s I q k), Hq.
  - intros q k Hq. apply filter_In in Hq. apply (post_location_fk s I q k), Hq.
  - intros c Hc. apply filter_In in Hc. apply (comment_author_fk s I c), Hc.
  - intros c Hc. apply filter_In in Hc. destruct Hc as [Hc Hne].
    destruct (comment_post_fk s I c Hc) as [q [Hq E]].
    exists q. split; [|exact E]. apply filter_In. split; [exact Hq|].
    unfold pk_eqb in *. now rewrite E.
Qed.

Lemma save_comment_Integrity (s : Store) (c : Comment.t) :
  Integrity s ->
  (exists u, In u (users s) /\ User.pk u = Comment.author c) ->
  (exists p, In p (posts s) /\ Post.pk p = Comment.post c) ->
  Integrity (save_comment s c).
Proof.
  intros I Hu Hp. constructor; simpl; try apply I.
  - rewrite (map_replace_key Comment.pk _ c _ eq_refl). apply I.
  - intros d Hd. apply (In_replace Comment.pk) in Hd.
    destruct Hd as [->|Hd]; [exact Hu|apply (comment_author_fk s I d Hd)].
  - intros d Hd. apply (In_replace Comment.pk) in Hd.
    destruct Hd as [->|Hd]; [exact Hp|apply (comment_post_fk s I d Hd)].
Qed.

Lemma delete_comment_Integrity (s : Store) (c : Comment.t) :
  Integrity s -> Integrity (delete_comment s c).
Proof.
  intros I. constructor; simpl; try apply I.
  - apply (uniqueb_map_filter Comment.pk Z.eqb Z.eqb_eq), I.
  - intros d Hd. apply filter_In in Hd. apply (comment_author_fk s I d), Hd.
  - intros d Hd. apply filter_In in Hd. apply (comment_post_fk s I d), Hd.
Qed.

Lemma insert_post_Integrity (s : Store) (p : Post.t) :
  Integrity s ->
  ~ In (Post.pk p) (map Post.pk (posts s)) ->
  (exists u, In u (users s) /\ User.pk u = Post.author p) ->
  (forall k, Post.category p = Some k ->
     exists c, In c (categories s) /\ Category.pk c = k) ->
  (forall k, Post.location p = Some k ->
     exists l, In l (locations s) /\ Location.pk l = k) ->
  Integrity (insert_post s p).
Proof.
  intros I Hfresh Hu Hc Hl. constructor; simpl; try apply I.
  - rewrite map_app. apply (uniqueb_app_fresh Z.eqb Z.eqb_eq); [apply I|exact Hfresh].
  - intros q Hq. apply in_app_or in Hq.
    destruct Hq as [Hq|[<-|[]]]; [apply (post_author_fk s I q Hq)|exact Hu].
  - intros q k Hq. apply in_app_or in Hq.
    destruct Hq as [Hq|[<-|[]]]; [apply (post_category_fk s I q k Hq)|apply Hc].
  - intros q k Hq. apply in_app_or in Hq.
    destruct Hq as [Hq|[<-|[]]]; [apply (post_location_fk s I q k Hq)|apply Hl].
  - intros c Hc'. destruct (comment_post_fk s I c Hc') as [q [Hq E]].
    exists q. split; [apply in_or_app; now left|exact E].
Qed.

Lemma insert_comment_Integrity (s : Store) (c : Comment.t) :
  Integrity s ->
  ~ In (Comment.pk c) (map Comment.pk (comments s)) ->
  (exists u, In u (users s) /\ User.pk u = Comment.author c) ->
  (exists p, In p (posts s) /\ Post.pk p = Comment.post c) ->
  Integrity (insert_comment s c).
Proof.
  intros I Hfresh Hu Hp. constructor; simpl; try apply I.
  - rewrite map_app.
    apply (uniqueb_app_fresh Z.eqb Z.eqb_eq); [apply I|exact Hfresh].
  - intros d Hd. apply in_app_or in Hd.
    destruct Hd as [Hd|[<-|[]]]; [apply (comment_author_fk s I d Hd)|exact Hu].
  - intros d Hd. apply in_app_or in Hd.
    destruct Hd as [Hd|[<-|[]]]; [apply (comment_post_fk s I d Hd)|exact Hp].
Qed.

(** ** Who can write *)

Lemma get_object_or_404_Return {A} (model : string) (l : list A) (a : A) :
  get_object_or_404 model l = Return a -> l = [a].
Proof.
  unfold get_object_or_404, QuerySet_get.
  destruct l as [|x [|y m]]; try discriminate. now intros [= ->].
Qed.

Lemma filter_singleton_In {A} (f : A -> bool) (l : list A) (a : A) :
  filter f l = [a] -> In a l /\ f a = true.
Proof. intros E. apply filter_In. rewrite E. now left. Qed.

Lemma Post_author_Return (s : Store) (p : Post.t) (u : User.t) :
  Post_author s p = Return u -> In u (users s) /\ User.pk u = Post.author p.
Proof.
  unfold Post_author, QuerySet_get.
  destruct (filter _ (users s)) as [|x [|y m]] eqn:E; try discriminate.
  intros [= <-]. apply filter_singleton_In in E.
  destruct E as [Hin E]. apply Z.eqb_eq in E. tauto.
Qed.

Lemma Comment_author_Return (s : Store) (c : Comment.t) (u : User.t) :
  Comment_author s c = Return u -> In u (users s) /\ User.pk u = Comment.author c.
Proof.
  unfold Comment_author, QuerySet_get.
  destruct (filter _ (users s)) as [|x [|y m]] eqn:E; try discriminate.
  intros [= <-]. apply filter_singleton_In in E.
  destruct E as [Hin E]. apply Z.eqb_eq in E. tauto.
Qed.

(** What the two post views can do to the store. *)
Lemma post_views_effect {B} (s : Store)
    (edit : HttpRequest PostModelForm.data) (delete : HttpRequest B) (pk : Z) :
  (snd (PostUpdateView_dispatch s edit pk) = s
   \/ (method edit = POST
       /\ exists p p', In p (posts s) /\ Post.pk p = pk
            /\ Spec.is_author (user edit) (Post.author p)
            /\ PostModelForm.clean s p (body edit) = Some p'
            /\ PostUpdateView_dispatch s edit pk
               = (Return (redirect (blog.post_detail pk)), save_post s p')))
  /\ (snd (PostDeleteView_dispatch s delete pk) = s
      \/ (method delete = POST
          /\ exists p, In p (posts s) /\ Post.pk p = pk
               /\ Spec.is_author (user delete) (Post.author p)
               /\ PostDeleteView_dispatch s delete pk
                  = (Return (redirect blog.index), delete_post s p))).
Proof.
  split.
  - unfold PostUpdateView_dispatch.
    destruct (get_object_or_404 "Post" _) as [p|e] eqn:Eg; [|now left].
    simpl. destruct (Post_author s p) as [a|e] eqn:Ea; [|now left].
    simpl. destruct (user_eqb (user edit) a) eqn:Eu; [|now left].
    simpl. unfold PostUpdateView_super_dispatch, LoginRequiredMixin_dispatch,
      get_object.
    rewrite Eg. simpl.
    destruct (user edit) as [|v] eqn:Ev; [discriminate Eu|]. simpl.
    destruct (method edit); [now left|].
    destruct (PostModelForm.clean s p (body edit)) as [p'|] eqn:Ec; [|now left].
    right. split; [reflexivity|]. exists p, p'.
    apply get_object_or_404_Return, filter_singleton_In in Eg.
    destruct Eg as [Hp Epk]. apply Z.eqb_eq in Epk.
    apply Post_author_Return in Ea. destruct Ea as [_ Ea].
    split; [exact Hp|]. split; [exact Epk|].
    split; [apply (user_eqb_author _ a _ Ea), Eu|]. split; [exact Ec|].
    destruct (PostModelForm_clean_Some s p p' _ Ec) as [E _].
    now rewrite E, Epk.
  - unfold PostDeleteView_dispatch.
    destruct (get_object_or_404 "Post" _) as [p|e] eqn:Eg; [|now left].
    simpl. destruct (Post_author s p) as [a|e] eqn:Ea; [|now left].
    simpl. destruct (user_eqb (user delete) a) eqn:Eu; [|now left].
    simpl. unfold PostDeleteView_super_dispatch, LoginRequiredMixin_dispatch,
      get_object.
    rewrite Eg. simpl.
    destruct (user delete) as [|v] eqn:Ev; [discriminate Eu|]. simpl.
    destruct (method delete); [now left|].
    right. split; [reflexivity|]. exists p.
    apply get_object_or_404_Return, filter_singleton_In in Eg.
    destruct Eg as [Hp Epk]. apply Z.eqb_eq in Epk.
    apply Post_author_Return in Ea. destruct Ea as [_ Ea].
    split; [exact Hp|]. split; [exact Epk|].
    split; [apply (user_eqb_author _ a _ Ea), Eu|reflexivity].
Qed.

Lemma CommentUpdateView_get_object_Return {B} (s : Store)
    (request : HttpRequest B) (comment_id : Z) (c : Comment.t) :
  CommentUpdateView_get_object s request comment_id = Return c ->
  In c (comments s) /\ Comment.pk c = comment_id
  /\ Spec.is_author (user request) (Comment.author c).
Proof.
  unfold CommentUpdateView_get_object, CommentUpdateView_get_queryset,
    Spec.is_author.
  destruct (user request) as [|u]; [discriminate|]. simpl. intros H.
  apply get_object_Return in H. destruct H as [Hin Epk].
  apply filter_In in Hin. destruct Hin as [Hin Ea].
  apply Z.eqb_eq in Epk, Ea. split; [exact Hin|]. split; [exact Epk|].
  now exists u.
Qed.

Lemma CommentDeleteView_get_object_Return {B} (s : Store)
    (request : HttpRequest B) (comment_id : Z) (c : Comment.t) :
  CommentDeleteView_get_object s request comment_id = Return c ->
  In c (comments s) /\ Comment.pk c = comment_id
  /\ Spec.is_author (user request) (Comment.author c).
Proof. apply CommentUpdateView_get_object_Return. Qed.

(** What the two comment views can do to the store. *)
Lemma comment_views_effect {B} (s : Store)
    (edit : HttpRequest CommentForm.data) (delete : HttpRequest B)
    (pk comment_id : Z) :
  (snd (CommentUpdateView_as_view s edit pk comment_id) = s
   \/ (method edit = POST
       /\ exists c text', In c (comments s) /\ Comment.pk c = comment_id
            /\ Spec.is_author (user edit) (Comment.author c)
            /\ CommentForm.clean (body edit) = Some text'
            /\ snd (CommentUpdateView_as_view s edit pk comment_id)
               = save_comment s
                   {| Comment.pk := Comment.pk c;
                      Comment.is_published := Comment.is_published c;
                      Comment.created_at := Comment.created_at c;
                      Comment.text := text';
                      Comment.post := Comment.post c;
                      Comment.author := Comment.author c |}))
  /\ (snd (CommentDeleteView_as_view s delete pk comment_id) = s
      \/ (method delete = POST
          /\ exists c, In c (comments s) /\ Comment.pk c = comment_id
               /\ Spec.is_author (user delete) (Comment.author c)
               /\ CommentDeleteView_as_view s delete pk comment_id
                  = (Return (redirect (blog.post_detail pk)), delete_comment s c))).
Proof.
  split.
  - unfold CommentUpdateView_as_view, LoginRequiredMixin_dispatch.
    destruct (is_authenticated (user edit)); [|now left]. simpl.
    destruct (CommentUpdateView_get_object s edit comment_id) as [c|e] eqn:Eg;
      [|now left].
    simpl. destruct (method edit); [now left|].
    destruct (CommentForm.clean (body edit)) as [text'|] eqn:Ec; [|now left].
    right. split; [reflexivity|]. exists c, text'.
    destruct (CommentUpdateView_get_object_Return s edit _ c Eg) as (Hc & Epk & Ha).
    repeat (split; [assumption|]). split; [reflexivity|].
    cbv zeta. destruct (Comment_post _ _); reflexivity.
  - unfold CommentDeleteView_as_view, LoginRequiredMixin_dispatch.
    destruct (is_authenticated (user delete)); [|now left]. simpl.
    destruct (method delete).
    + destruct (CommentDeleteView_get_object s delete comment_id); now left.
    + unfold CommentDeleteView_delete.
      destruct (CommentDeleteView_get_object s delete comment_id) as [c|e] eqn:Eg;
        [|now left].
      simpl. destruct (Comment_author s c) as [a|e]; [|now left].
      simpl. destruct (user_eqb (user delete) a); [|now left].
      simpl. right. split; [reflexivity|]. exists c.
      destruct (CommentDeleteView_get_object_Return s delete _ c Eg)
        as (Hc & Epk & Ha).
      repeat (split; [assumption|]). reflexivity.
Qed.



(** X3. Whatever the request, [PostUpdateView], [PostDeleteView],
    [CommentUpdateView] and [CommentDeleteView] take a store that meets the
    constraints of the schema to one that meets them: keys stay unique and
    no foreign key is left pointing nowhere. *)
Theorem edit_and_delete_keep_integrity {B} (s : Store)
    (post_edit : HttpRequest PostModelForm.data)
    (comment_edit : HttpRequest CommentForm.data) (delete : HttpRequest B)
    (pk comment_id : Z) :
  relational_integrity s = true ->
  relational_integrity (snd (PostUpdateView_dispatch s post_edit pk)) = true
  /\ relational_integrity (snd (PostDeleteView_dispatch s delete pk)) = true
  /\ relational_integrity
       (snd (CommentUpdateView_as_view s comment_edit pk comment_id)) = true
  /\ relational_integrity
       (snd (CommentDeleteView_as_view s delete pk comment_id)) = true.
Proof.
  intros Hs. pose proof (relational_integrity_facts s Hs) as I.
  destruct (post_views_effect s post_edit delete pk) as [Hpe Hpd].
  destruct (comment_views_effect s comment_edit delete pk comment_id)
    as [Hce Hcd].
  repeat split.
  - destruct Hpe as [->|(_ & p & p' & _ & _ & _ & Ec & ->)]; [exact Hs|].
    apply Integrity_relational_integrity. simpl.
    destruct (PostModelForm_clean_Some s p p' _ Ec)
      as (_ & _ & _ & _ & _ & _ & _ & _ & _ & Hu & [c [Hc Ecat]] & Hl).
    apply (save_post_Integrity s p' I Hu); [|exact Hl].
    intros k Ek. exists c. split; [exact Hc|]. congruence.
  - destruct Hpd as [->|(_ & p & _ & _ & _ & ->)]; [exact Hs|].
    apply Integrity_relational_integrity, delete_post_Integrity, I.
  - destruct Hce as [->|(_ & c & text' & Hc & _ & _ & _ & ->)]; [exact Hs|].
    apply Integrity_relational_integrity, save_comment_Integrity; [exact I| |].
    + apply (comment_author_fk s I c Hc).
    + apply (comment_post_fk s I c Hc).
  - destruct Hcd as [->|(_ & c & _ & _ & _ & ->)]; [exact Hs|].
    apply Integrity_relational_integrity, delete_comment_Integrity, I.
Qed.

Lemma edit_and_delete_keep_integrity_demo :
  relational_integrity
    (snd (PostUpdateView_dispatch demo_store
            (request_by (LoggedIn bob) POST PageMissing sample_post_form) 1)) = true
  /\ relational_integrity
       (snd (PostDeleteView_dispatch demo_store
               (request_by (LoggedIn bob) POST PageMissing tt) 1)) = true
  /\ relational_integrity
       (snd (CommentUpdateView_as_view demo_store
               (request_by (LoggedIn bob) POST PageMissing
                  {| CommentForm.text := "Fixed" |}) 1 1)) = true
  /\ relational_integrity
       (snd (CommentDeleteView_as_view demo_store
               (request_by (LoggedIn bob) POST PageMissing tt) 1 1)) = true.
Proof.
  exact (edit_and_delete_keep_integrity demo_store
           (request_by (LoggedIn bob) POST PageMissing sample_post_form)
           (request_by (LoggedIn bob) POST PageMissing
              {| CommentForm.text := "Fixed" |})
           (request_by (LoggedIn bob) POST PageMissing tt) 1 1 eq_refl).
Defined.

(** ** The author's edits and deletions *)

Lemma PostUpdateView_by_author (s : Store) (p : Post.t)
    (edit : HttpRequest PostModelForm.data) :
  Integrity s -> In p (posts s) ->
  Spec.is_author (user edit) (Post.author p) ->
  PostUpdateView_dispatch s edit (Post.pk p)
  = match method edit with
    | GET => (Return (TemplateResponse (create_html p false)), s)
    | POST =>
        match PostModelForm.clean s p (body edit) with
        | Some p' => (Return (redirect (blog.post_detail (Post.pk p'))),
                      save_post s p')
        | None => (Return (TemplateResponse (create_html p true)), s)
        end
    end.
Proof.
  intros I Hp Ha. unfold PostUpdateView_dispatch.
  rewrite (get_post_or_404 s p I Hp). simpl.
  destruct (Post_author_found s p I Hp) as [a [Ea Hpa]]. rewrite Hpa. simpl.
  rewrite (proj2 (user_eqb_author (user edit) a _ Ea) Ha). simpl.
  unfold PostUpdateView_super_dispatch, LoginRequiredMixin_dispatch, get_object.
  rewrite (get_post_or_404 s p I Hp).
  destruct Ha as [u [-> _]]. reflexivity.
Qed.

Lemma PostDeleteView_by_author {B} (s : Store) (p : Post.t)
    (delete : HttpRequest B) :
  Integrity s -> In p (posts s) ->
  Spec.is_author (user delete) (Post.author p) ->
  PostDeleteView_dispatch s delete (Post.pk p)
  = match method delete with
    | GET => (Return (TemplateResponse (create_html p false)), s)
    | POST => (Return (redirect blog.index), delete_post s p)
    end.
Proof.
  intros I Hp Ha. unfold PostDeleteView_dispatch.
  rewrite (get_post_or_404 s p I Hp). simpl.
  destruct (Post_author_found s p I Hp) as [a [Ea Hpa]]. rewrite Hpa. simpl.
  rewrite (proj2 (user_eqb_author (user delete) a _ Ea) Ha). simpl.
  unfold PostDeleteView_super_dispatch, LoginRequiredMixin_dispatch, get_object.
  rewrite (get_post_or_404 s p I Hp).
  destruct Ha as [u [-> _]]. reflexivity.
Qed.

Lemma save_post_In (s : Store) (p p' q : Post.t) :
  In p (posts s) -> Post.pk p' = Post.pk p ->
  (In q (posts (save_post s p'))
   <-> q = p' \/ (In q (posts s) /\ Post.pk q <> Post.pk p)).
Proof.
  intros Hp E. simpl. rewrite in_map_iff. unfold pk_eqb. split.
  - intros [z [Ez Hz]]. destruct (Post.pk z =? Post.pk p') eqn:Ezp.
    + now left.
    + right. subst z. apply Z.eqb_neq in Ezp. split; [exact Hz|congruence].
  - intros [->|[Hq Hne]].
    + exists p. split; [|exact Hp].
      replace (Post.pk p =? Post.pk p') with true; [reflexivity|].
      symmetry. apply Z.eqb_eq. congruence.
    + exists q. split; [|exact Hq].
      replace (Post.pk q =? Post.pk p') with false; [reflexivity|].
      symmetry. apply Z.eqb_neq. congruence.
Qed.



(** X5. For the author of a post, [PostDeleteView] shows the confirmation
    page on GET and leaves the store untouched; on POST it removes that post
    and exactly the comments made on it, leaves the rest alone and redirects
    to the index.  From then on the key of the post is unknown to the detail
    page and to the edit and delete views: they raise [Http404] for every
    viewer. *)
Theorem post_delete_by_author {B} (s : Store) (p : Post.t)
    (delete : HttpRequest B) :
  relational_integrity s = true -> In p (posts s) ->
  Spec.is_author (user delete) (Post.author p) ->
  (method delete = GET ->
   PostDeleteView_dispatch s delete (Post.pk p)
   = (Return (TemplateResponse (create_html p false)), s))
  /\ (method delete = POST ->
      let r := PostDeleteView_dispatch s delete (Post.pk p) in
      fst r = Return (redirect blog.index)
      /\ (forall q, In q (posts (snd r))
                    <-> In q (posts s) /\ Post.pk q <> Post.pk p)
      /\ (forall c, In c (comments (snd r))
                    <-> In c (comments s) /\ Comment.post c <> Post.pk p)
      /\ users (snd r) = users s /\ categories (snd r) = categories s
      /\ locations (snd r) = locations s
      /\ (forall C (request : HttpRequest C) now,
            Spec.NotFound (PostDetailView_get (snd r) request now (Post.pk p)))
      /\ (forall (edit : HttpRequest PostModelForm.data),
            PostUpdateView_dispatch (snd r) edit (Post.pk p)
            = (Raise (Http404 "No Post matches the given query."), snd r))
      /\ (forall C (again : HttpRequest C),
            PostDeleteView_dispatch (snd r) again (Post.pk p)
            = (Raise (Http404 "No Post matches the given query."), snd r))).
Proof.
  intros Hs Hp Ha. pose proof (relational_integrity_facts s Hs) as I.
  pose proof (PostDeleteView_by_author s p delete I Hp Ha) as E.
  split.
  - intros Hm. now rewrite E, Hm.
  - intros Hm r. unfold r. rewrite E, Hm. simpl.
    assert (forall q, In q (filter (fun q => negb (pk_eqb (Post.pk q) (Post.pk p)))
                                    (posts s))
                      <-> In q (posts s) /\ Post.pk q <> Post.pk p) as Hposts.
    { intros q. rewrite filter_In, negb_true_iff. unfold pk_eqb.
      now rewrite Z.eqb_neq. }
    assert (filter (fun q => pk_eqb (Post.pk q) (Post.pk p))
              (posts (delete_post s p)) = []) as Hnone.
    { apply filter_nil_iff. intros q Hq. apply Hposts in Hq.
      apply Z.eqb_neq, Hq. }
    split; [reflexivity|]. split; [exact Hposts|]. split.
    { intros c. rewrite filter_In, negb_true_iff. unfold pk_eqb.
      now rewrite Z.eqb_neq. }
    repeat (split; [reflexivity|]). split; [|split].
    + intros C request now. unfold PostDetailView_get.
      rewrite (bind_Raise _ _ _
                 (PostDetailView_get_object_missing (delete_post s p) (Post.pk p)
                    (fun q Hq => proj2 (proj1 (Hposts q) Hq)))).
      now eexists.
    + intros edit. unfold PostUpdateView_dispatch, get_object_or_404.
      now rewrite Hnone.
    + intros C again. unfold PostDeleteView_dispatch, get_object_or_404.
      now rewrite Hnone.
Qed.

Lemma post_delete_by_author_demo :
  let r := PostDeleteView_dispatch demo_store
             (request_by (LoggedIn bob) POST PageMissing tt) 1 in
  fst r = Return (redirect blog.index)
  /\ Spec.NotFound
       (PostDetailView_get (snd r)
          (request_by (LoggedIn bob) GET PageMissing tt) 100 1).
Proof.
  assert (Spec.is_author (LoggedIn bob) (Post.author post_A)) as Ha
    by (exists bob; split; reflexivity).
  destruct (post_delete_by_author demo_store post_A
              (request_by (LoggedIn bob) POST PageMissing tt)
              eq_refl (or_introl eq_refl) Ha) as (_ & Hpost).
  destruct (Hpost eq_refl) as (Hr & _ & _ & _ & _ & _ & Hdetail & _).
  split; [exact Hr|apply Hdetail].
Defined.


Lemma filter_all {A} (f : A -> bool) (l : list A) :
  (forall x, In x l -> f x = true) -> filter f l = l.
Proof.
  induction l as [|a l IH]; intros H; [reflexivity|]. simpl.
  rewrite (H a (or_introl eq_refl)), IH; [reflexivity|].
  intros x Hx. apply H. now right.
Qed.

(** Taking the one row with a given key out of a table takes one row out of
    every selection that held it. *)
Lemma filter_without_key {A} (key : A -> Z) (l : list A) (x : A) (f : A -> bool) :
  uniqueb Z.eqb (map key l) = true -> In x l ->
  length (filter f l)
  = ((if f x then 1 else 0)
     + length (filter f (filter (fun y => negb (pk_eqb (key y) (key x))) l)))%nat.
Proof.
  unfold pk_eqb. induction l as [|a l IH]; intros Hu Hx; [destruct Hx|].
  simpl in Hu. apply andb_prop in Hu. destruct Hu as [Ha Hl].
  apply negb_true_iff in Ha.
  assert (forall y, In y l -> (key a =? key y) = false) as Hfresh.
  { intros y Hy. destruct (key a =? key y) eqn:E; [|reflexivity].
    rewrite <- Ha. symmetry. apply existsb_exists.
    exists (key y). split; [apply in_map, Hy|exact E]. }
  destruct Hx as [->|Hx].
  - simpl. rewrite Z.eqb_refl. simpl.
    rewrite (filter_all (fun y => negb (key y =? key x)) l).
    + destruct (f x); reflexivity.
    + intros y Hy. rewrite Z.eqb_sym, (Hfresh y Hy). reflexivity.
  - simpl. rewrite (Hfresh x Hx). simpl.
    destruct (f a); simpl; rewrite (IH Hl Hx); lia.
Qed.

Lemma Comment_author_found (s : Store) (c : Comment.t) :
  Integrity s -> In c (comments s) ->
  exists u, User.pk u = Comment.author c /\ Comment_author s c = Return u.
Proof.
  intros I Hc. destruct (comment_author_fk s I c Hc) as [u [Hu E]].
  exists u. split; [exact E|]. unfold Comment_author, pk_eqb.
  now rewrite (unique_key_filter User.pk Z.eqb Z.eqb_eq (users s) u _
                 (users_pk s I) Hu E).
Qed.





Lemma get_comment_missing (s : Store) (comment_id a : Z) :
  (forall c, In c (comments s) -> Comment.pk c <> comment_id) ->
  get_object "Comment" (fun d => pk_eqb (Comment.pk d) comment_id)
    (filter (fun d => pk_eqb (Comment.author d) a) (comments s))
  = Raise (Http404 "No Comment matches the given query.").
Proof.
  intros H. unfold get_object, get_object_or_404.
  replace (filter _ (filter _ (comments s))) with (@nil Comment.t); [reflexivity|].
  symmetry. apply filter_nil_iff. intros d Hd. apply filter_In in Hd.
  apply Z.eqb_neq, H, Hd.
Qed.

Lemma CommentDeleteView_by_author {B} (s : Store) (c : Comment.t)
    (delete : HttpRequest B) (pk : Z) :
  Integrity s -> In c (comments s) ->
  Spec.is_author (user delete) (Comment.author c) ->
  CommentDeleteView_as_view s delete pk (Comment.pk c)
  = match method delete with
    | GET => (Return (TemplateResponse (comment_html c)), s)
    | POST => (Return (redirect (blog.post_detail pk)), delete_comment s c)
    end.
Proof.
  intros I Hc [u [Hu Ea]].
  assert (CommentDeleteView_get_object s delete (Comment.pk c) = Return c) as Eg.
  { rewrite (CommentDeleteView_get_object_spec s c delete u I Hc Hu).
    replace (Comment.author c =? User.pk u) with true; [reflexivity|].
    symmetry. apply Z.eqb_eq. congruence. }
  destruct (Comment_author_found s c I Hc) as [a [Eauthor Ha]].
  assert (user_eqb (user delete) a = true) as Eu.
  { apply (user_eqb_author _ a _ Eauthor). now exists u. }
  unfold CommentDeleteView_as_view, CommentDeleteView_delete,
    LoginRequiredMixin_dispatch.
  rewrite Eg, Hu. rewrite Hu in Eu. cbn [is_authenticated negb bind_st].
  rewrite Ha. cbn [bind_st]. rewrite Eu. reflexivity.
Qed.

(** X7. For the author of a comment, [CommentDeleteView] shows the
    confirmation page on GET, the store untouched.  On POST it removes that
    one comment, so that the comment count of the post it was made on goes
    down by one and every other count stays, and it redirects to the detail
    page of the post named in the address of the request.  The comment is
    then unknown to the edit and delete views. *)
Theorem comment_delete_by_author {B} (s : Store) (c : Comment.t)
    (delete : HttpRequest B) (pk : Z) :
  relational_integrity s = true -> In c (comments s) ->
  Spec.is_author (user delete) (Comment.author c) ->
  (method delete = GET ->
   CommentDeleteView_as_view s delete pk (Comment.pk c)
   = (Return (TemplateResponse (comment_html c)), s))
  /\ (method delete = POST ->
      let r := CommentDeleteView_as_view s delete pk (Comment.pk c) in
      fst r = Return (redirect (blog.post_detail pk))
      /\ (forall d, In d (comments (snd r))
                    <-> In d (comments s) /\ Comment.pk d <> Comment.pk c)
      /\ users (snd r) = users s /\ categories (snd r) = categories s
      /\ locations (snd r) = locations s /\ posts (snd r) = posts s
      /\ (forall p, Count_comments s p
                    = ((if (Comment.post c =? Post.pk p)%Z then 1 else 0)
                       + Count_comments (snd r) p)%nat)
      /\ (forall C (again : HttpRequest C) u, user again = LoggedIn u ->
            CommentDeleteView_as_view (snd r) again pk (Comment.pk c)
            = (Raise (Http404 "No Comment matches the given query."), snd r))
      /\ (forall (edit : HttpRequest CommentForm.data) u, user edit = LoggedIn u ->
            CommentUpdateView_as_view (snd r) edit pk (Comment.pk c)
            = (Raise (Http404 "No Comment matches the given query."), snd r))).
Proof.
  intros Hs Hc Ha. pose proof (relational_integrity_facts s Hs) as I.
  pose proof (CommentDeleteView_by_author s c delete pk I Hc Ha) as E.
  split.
  - intros Hm. now rewrite E, Hm.
  - intros Hm r. unfold r. rewrite E, Hm. cbn [fst snd].
    assert (forall d, In d (comments (delete_comment s c))
                      <-> In d (comments s) /\ Comment.pk d <> Comment.pk c) as Hin.
    { intros d. simpl. rewrite filter_In, negb_true_iff. unfold pk_eqb.
      now rewrite Z.eqb_neq. }
    assert (forall d, In d (comments (delete_comment s c)) ->
                      Comment.pk d <> Comment.pk c) as Hmiss
      by (intros d Hd; apply Hin, Hd).
    split; [reflexivity|]. split; [exact Hin|].
    repeat (split; [reflexivity|]). split; [|split].
    + intros p. unfold Count_comments. simpl.
      apply (filter_without_key Comment.pk (comments s) c
               (fun d => pk_eqb (Comment.post d) (Post.pk p)) (comments_pk s I) Hc).
    + intros C again v Hv.
      unfold CommentDeleteView_as_view, CommentDeleteView_delete,
        LoginRequiredMixin_dispatch, CommentDeleteView_get_object,
        CommentDeleteView_get_queryset, bind, bind_st.
      rewrite Hv. cbn [is_authenticated negb].
      rewrite (get_comment_missing (delete_comment s c) (Comment.pk c)
                 (User.pk v) Hmiss).
      destruct (method again); reflexivity.
    + intros edit v Hv.
      unfold CommentUpdateView_as_view, LoginRequiredMixin_dispatch,
        CommentUpdateView_get_object, CommentUpdateView_get_queryset, bind,
        bind_st.
      rewrite Hv. cbn [is_authenticated negb].
      now rewrite (get_comment_missing (delete_comment s c) (Comment.pk c)
                     (User.pk v) Hmiss).
Qed.

Lemma comment_delete_by_author_demo :
  let r := CommentDeleteView_as_view demo_store
             (request_by (LoggedIn alice) POST PageMissing tt) 5 2 in
  fst r = Return (redirect (blog.post_detail 5))
  /\ Count_comments demo_store post_A = S (Count_comments (snd r) post_A).
Proof.
  assert (Spec.is_author (LoggedIn alice) (Comment.author comment_2)) as Ha
    by (exists alice; split; reflexivity).
  destruct (comment_delete_by_author demo_store comment_2
              (request_by (LoggedIn alice) POST PageMissing tt) 5
              eq_refl (or_intror (or_introl eq_refl)) Ha) as (_ & Hpost).
  destruct (Hpost eq_refl) as (Hr & _ & _ & _ & _ & _ & Hcount & _).
  split; [exact Hr|apply (Hcount post_A)].
Defined.

(** ** Keys that name nothing *)



(** ** Creating comments and posts *)



Lemma insert_by_snoc {A} (le : A -> A -> bool) (x c : A) (m : list A) :
  le x c = true -> insert_by le x (m ++ [c]) = insert_by le x m ++ [c].
Proof.
  intros H. induction m as [|y m IH]; simpl.
  - now rewrite H.
  - destruct (le x y); [reflexivity|]. now rewrite IH.
Qed.

(** A row that may come after all the others is sorted to the end. *)
Lemma sort_by_snoc {A} (le : A -> A -> bool) (c : A) (l : list A) :
  (forall x, In x l -> le x c = true) ->
  sort_by le (l ++ [c]) = sort_by le l ++ [c].
Proof.
  unfold sort_by. rewrite fold_right_app. simpl.
  induction l as [|a l IH]; intros H; [reflexivity|]. simpl.
  rewrite IH by (intros x Hx; apply H; now right).
  apply insert_by_snoc, H. now left.
Qed.

Lemma CommentCreateView_valid (s : Store) (request : HttpRequest CommentForm.data)
    (now new_pk : Z) (p : Post.t) (u : User.t) (text' : string) :
  Integrity s -> In p (posts s) ->
  user request = LoggedIn u -> method request = POST ->
  CommentForm.clean (body request) = Some text' ->
  CommentCreateView_as_view s request now new_pk (Post.pk p)
  = (Return (Answered (redirect (blog.post_detail (Post.pk p)))),
     insert_comment s (new_comment u text' now new_pk (Post.pk p))).
Proof.
  intros I Hp Hu Hm Hc.
  unfold CommentCreateView_as_view, LoginRequiredMixin_dispatch,
    CommentCreateView_form_valid.
  rewrite Hu, Hm, Hc. cbn [is_authenticated negb].
  now rewrite (get_post_or_404 s p I Hp).
Qed.

(** X10. Once [CommentCreateView] has stored a comment, the detail page of
    the post shows it after the comments that were there, with the user who
    wrote it, provided the comments of the post are dated before the
    request; the comment count of the post is one more, the comments and
    counts of the other posts are what they were, and the store still meets
    the constraints of the schema.  The user must be a row of the user
    table and the key given to the comment a new one. *)
Theorem comment_create_shows_on_detail (s : Store)
    (request : HttpRequest CommentForm.data) (now new_pk : Z) (p : Post.t)
    (u : User.t) (text' : string) :
  relational_integrity s = true -> In p (posts s) -> In u (users s) ->
  ~ In new_pk (map Comment.pk (comments s)) ->
  user request = LoggedIn u -> method request = POST ->
  CommentForm.clean (body request) = Some text' ->
  (forall d, In d (comments s) -> Comment.post d = Post.pk p ->
             Comment.created_at d < now) ->
  let s' := snd (CommentCreateView_as_view s request now new_pk (Post.pk p)) in
  let c := new_comment u text' now new_pk (Post.pk p) in
  relational_integrity s' = true
  /\ Post_comments s' p = Post_comments s p ++ [c]
  /\ (forall o, row o = p ->
        PostDetailView_get_context_data s' o
        = detail_html o (select_related_author s (Post_comments s p) ++ [(c, u)]))
  /\ Count_comments s' p = S (Count_comments s p)
  /\ (forall q, Post.pk q <> Post.pk p ->
        Post_comments s' q = Post_comments s q
        /\ Count_comments s' q = Count_comments s q).
Proof.
  intros Hs Hp Hu Hfresh Huser Hm Hc Hdates s' c.
  pose proof (relational_integrity_facts s Hs) as I.
  unfold s'. rewrite (CommentCreateView_valid s request now new_pk p u text'
                        I Hp Huser Hm Hc).
  cbn [snd]. fold c.
  assert (Post_comments (insert_comment s c) p = Post_comments s p ++ [c]) as Epc.
  { unfold Post_comments, order_by. simpl comments. rewrite filter_app. simpl.
    unfold pk_eqb at 2. rewrite Z.eqb_refl.
    apply sort_by_snoc. intros d Hd. apply filter_In in Hd.
    destruct Hd as [Hd Ed]. apply Z.eqb_eq in Ed.
    unfold asc. simpl. apply Z.leb_le, Z.lt_le_incl, (Hdates d Hd Ed). }
  split; [|split; [exact Epc|split; [|split]]].
  - apply Integrity_relational_integrity, insert_comment_Integrity.
    + exact I.
    + exact Hfresh.
    + now exists u.
    + now exists p.
  - intros o <-. unfold PostDetailView_get_context_data. f_equal.
    rewrite Epc. unfold select_related_author at 1. rewrite flat_map_app.
    f_equal. simpl. rewrite app_nil_r. unfold pk_eqb.
    now rewrite (unique_key_filter User.pk Z.eqb Z.eqb_eq (users s) u _
                   (users_pk s I) Hu eq_refl).
  - unfold Count_comments. simpl comments. rewrite filter_app, length_app. simpl.
    unfold pk_eqb at 2. rewrite Z.eqb_refl. simpl. lia.
  - intros q Hq.
    assert (pk_eqb (Post.pk p) (Post.pk q) = false) as E
      by (apply Z.eqb_neq; congruence).
    unfold Post_comments, Count_comments. simpl comments.
    rewrite !filter_app. simpl. rewrite E. now rewrite app_nil_r.
Qed.

Lemma comment_create_shows_on_detail_demo :
  let s' := snd (CommentCreateView_as_view demo_store
                   (request_by (LoggedIn alice) POST PageMissing
                      {| CommentForm.text := " Hi " |}) 60 3 1) in
  Post_comments s' post_A
  = [comment_2; comment_1; new_comment alice "Hi" 60 3 1]
  /\ Count_comments s' post_A = 3%nat.
Proof.
  destruct (comment_create_shows_on_detail demo_store
              (request_by (LoggedIn alice) POST PageMissing
                 {| CommentForm.text := " Hi " |}) 60 3 post_A alice "Hi"
              eq_refl (or_introl eq_refl) (or_introl eq_refl))
    as (_ & Hlist & _ & Hcount & _).
  - simpl. intros [H|[H|[]]]; discriminate H.
  - reflexivity.
  - reflexivity.
  - reflexivity.
  - intros d [<-|[<-|[]]] _; simpl; lia.
  - split; [exact Hlist|exact Hcount].
Defined.

Lemma PostForm_instance_Some (s : Store) (d : PostForm.data)
    (pk created_at author : Z) (p : Post.t) :
  PostForm.instance s d pk created_at author = Some p ->
  Post.pk p = pk /\ Post.is_published p = true
  /\ Post.created_at p = created_at /\ Post.author p = author
  /\ clean_char (Some 256%nat) (PostForm.title d) = Some (Post.title p)
  /\ clean_char None (PostForm.text d) = Some (Post.text p)
  /\ PostForm.pub_date d = Some (Post.pub_date p)
  /\ Post.location p = PostForm.location d
  /\ Post.category p = PostForm.category d
  /\ (exists c, In c (categories s) /\ Post.category p = Some (Category.pk c))
  /\ (forall k, Post.location p = Some k ->
        exists l, In l (locations s) /\ Location.pk l = k).
Proof.
  unfold PostForm.instance.
  destruct (clean_char _ (PostForm.title d)) as [title'|]; [|discriminate].
  destruct (clean_char None _) as [text'|]; [|discriminate].
  destruct (PostForm.pub_date d) as [pub_date'|]; [|discriminate].
  destruct (PostForm.category d) as [category'|]; [|discriminate].
  destruct (_ && _) eqn:E; [|discriminate].
  intros [= <-]. simpl.
  apply andb_prop in E. destruct E as [Ec El]. apply exists_pk_In in Ec.
  repeat (split; [reflexivity|]). split.
  - destruct Ec as [c [Hc <-]]. now exists c.
  - intros k Ek. rewrite Ek in El. now apply exists_pk_In.
Qed.



(** How [PostDetailView.get] answers for a post of the store. *)
Lemma PostDetailView_get_cases {B} (s : Store) (request : HttpRequest B)
    (now : Z) (p : Post.t) :
  Integrity s -> In p (posts s) ->
  exists o, loads s p o /\
    ((Spec.is_post_visible s p (user request) now /\
      PostDetailView_get s request now (Post.pk p)
      = Return (TemplateResponse (PostDetailView_get_context_data s o)))
     \/ (~ Spec.is_post_visible s p (user request) now /\
         PostDetailView_get s request now (Post.pk p)
         = Raise (Http404 "This post is not available."))).
Proof.
  intros I Hp.
  destruct (PostDetailView_get_object_found s p (Post.pk p) I Hp eq_refl)
    as [o [Hl Hget]].
  pose proof (PostDetailView_hidden_test s p o now I Hp Hl) as Htest.
  pose proof (loads_is_author s p o (user request) Hl) as Hauthor.
  exists o. split; [exact Hl|].
  unfold PostDetailView_get. rewrite (bind_Return _ _ o Hget).
  unfold Spec.is_post_visible.
  destruct (_ || _ || _) eqn:Ehidden;
    destruct (user_eqb (user request) (author_obj o)) eqn:Eauthor; simpl.
  - left. split; [left; now apply Hauthor|reflexivity].
  - right. split; [|reflexivity]. intros [Ha|Hv].
    + apply Hauthor in Ha. discriminate.
    + apply Htest in Hv. discriminate.
  - left. split; [left; now apply Hauthor|reflexivity].
  - left. split; [right; now apply Htest|reflexivity].
Qed.

Lemma PostDetailView_get_renders {B} (s : Store) (request : HttpRequest B)
    (now : Z) (p : Post.t) :
  Integrity s -> In p (posts s) ->
  Spec.is_post_visible s p (user request) now ->
  exists o, loads s p o /\
    PostDetailView_get s request now (Post.pk p)
    = Return (TemplateResponse (PostDetailView_get_context_data s o)).
Proof.
  intros I Hp Hv.
  destruct (PostDetailView_get_cases s request now p I Hp)
    as [o [Hl [[_ E]|[Hn _]]]]; [|contradiction].
  now exists o.
Qed.

(** X12. Once [PostCreateView] has stored a post, its author gets it from
    the detail page and finds it on the own profile page at any time; it is
    on the public index exactly from its [pub_date] on, provided its
    category is published; and the store still meets the constraints of the
    schema.  The user must be a row of the user table and the key given to
    the post a new one. *)
Theorem post_create_is_visible (s : Store) (request : HttpRequest PostForm.data)
    (now new_pk : Z) (u : User.t) (p : Post.t) :
  relational_integrity s = true -> In u (users s) ->
  ~ In new_pk (map Post.pk (posts s)) ->
  user request = LoggedIn u -> method request = POST ->
  PostForm.instance s (body request) new_pk now (User.pk u) = Some p ->
  let s' := snd (PostCreateView_as_view s request now new_pk) in
  relational_integrity s' = true
  /\ (forall C (later : HttpRequest C) now', user later = LoggedIn u ->
        exists o, loads s' p o /\
          PostDetailView_get s' later now' new_pk
          = Return (TemplateResponse (PostDetailView_get_context_data s' o)))
  /\ (forall now', In p (map fst (ProfileDetailView_posts s' (LoggedIn u) now' u)))
  /\ (forall now', In p (listed_posts (PostListView_get_queryset s' now'))
                   <-> Post.pub_date p <= now'
                       /\ exists c, In c (categories s)
                            /\ Post.category p = Some (Category.pk c)
                            /\ Category.is_published c = true).
Proof.
  intros Hs Hu Hfresh Huser Hm Hi s'.
  pose proof (relational_integrity_facts s Hs) as I.
  destruct (PostForm_instance_Some s _ _ _ _ p Hi)
    as (Epk & Epub & _ & Ea & _ & _ & _ & _ & _ & [c [Hc Ec]] & Hl).
  assert (s' = insert_post s p) as ->.
  { unfold s', PostCreateView_as_view, LoginRequiredMixin_dispatch,
      PostCreateView_form_valid.
    rewrite Huser, Hm, Hi. cbn [is_authenticated negb].
    destruct (urls.reverse _); reflexivity. }
  assert (Integrity (insert_post s p)) as I'.
  { apply insert_post_Integrity; [exact I|now rewrite Epk|now exists u| |exact Hl].
    intros k Ek. exists c. split; [exact Hc|congruence]. }
  assert (In p (posts (insert_post s p))) as Hp
    by (simpl; apply in_or_app; right; now left).
  split; [apply Integrity_relational_integrity, I'|]. split; [|split].
  - intros C later now' Hlater. rewrite <- Epk.
    apply (PostDetailView_get_renders (insert_post s p) later now' p I' Hp).
    left. exists u. split; [exact Hlater|congruence].
  - intros now'. rewrite ProfileDetailView_posts_unfold.
    replace (user_eqb (LoggedIn u) u) with true
      by (symmetry; apply Z.eqb_refl).
    simpl negb. cbv iota. apply user_posts_In. split; [exact Hp|exact Ea].
  - intros now'. rewrite (PostListView_queryset_In (insert_post s p) now' p I').
    unfold Spec.in_public_listing. simpl categories. tauto.
Qed.

Lemma post_create_is_visible_demo :
  let p := {| Post.pk := 6; Post.is_published := true; Post.created_at := 95;
              Post.title := "Fresh"; Post.text := "News"; Post.pub_date := 90;
              Post.image := ""; Post.author := 1; Post.location := None;
              Post.category := Some 1 |} in
  let s' := snd (PostCreateView_as_view demo_store
                   (request_by (LoggedIn alice) POST PageMissing sample_new_post)
                   95 6) in
  relational_integrity s' = true
  /\ In p (listed_posts (PostListView_get_queryset s' 100))
  /\ ~ In p (listed_posts (PostListView_get_queryset s' 80)).
Proof.
  intros p s'.
  destruct (post_create_is_visible demo_store
              (request_by (LoggedIn alice) POST PageMissing sample_new_post)
              95 6 alice p eq_refl (or_introl eq_refl))
    as (Hint & _ & _ & Hindex); try reflexivity.
  - simpl. intros [H|[H|[H|[H|[H|[]]]]]]; discriminate H.
  - split; [exact Hint|]. split.
    + apply Hindex. split; [simpl; lia|]. exists travel. simpl. tauto.
    + intros H. apply Hindex in H. destruct H as [H _]. simpl in H. lia.
Defined.

(** ** How the pages fit together *)

(** X13. Every post on the public index, and every post on the page of a
    published category, opens: at the same instant [PostDetailView.get]
    renders it for every viewer. *)
Theorem listed_posts_open {B} (s : Store) (request : HttpRequest B) (now : Z) :
  relational_integrity s = true ->
  (forall p, In p (listed_posts (PostListView_get_queryset s now)) ->
     exists o, loads s p o /\
       PostDetailView_get s request now (Post.pk p)
       = Return (TemplateResponse (PostDetailView_get_context_data s o)))
  /\ (forall c p, In c (categories s) -> Category.is_published c = true ->
        In p (map row (CategoryListView_get_queryset s now (Category.slug c))) ->
        exists o, loads s p o /\
          PostDetailView_get s request now (Post.pk p)
          = Return (TemplateResponse (PostDetailView_get_context_data s o))).
Proof.
  intros Hs. pose proof (relational_integrity_facts s Hs) as I. split.
  - intros p Hp. apply (PostListView_queryset_In s now p I) in Hp.
    destruct Hp as [Hp (Hpub & Hdate & Hcat)].
    apply (PostDetailView_get_renders s request now p I Hp).
    right. split; [exact Hpub|]. split; [exact Hdate|now right].
  - intros c p Hc Hcpub Hp.
    apply (CategoryListView_queryset_In s c now p I Hc) in Hp.
    destruct Hp as [Hp (Ecat & Hpub & Hdate)].
    apply (PostDetailView_get_renders s request now p I Hp).
    right. split; [exact Hpub|]. split; [exact Hdate|].
    right. now exists c.
Qed.

Lemma listed_posts_open_demo :
  exists o, loads demo_store post_A o /\
    PostDetailView_get demo_store
      (request_by (LoggedIn alice) GET PageMissing tt) 100 1
    = Return (TemplateResponse (PostDetailView_get_context_data demo_store o)).
Proof.
  apply (proj1 (listed_posts_open demo_store
                  (request_by (LoggedIn alice) GET PageMissing tt) 100 eq_refl)
               post_A).
  simpl. tauto.
Defined.

(** X14. On the profile page of somebody else a viewer may find posts that
    do not open: a post listed there is rendered by [PostDetailView.get] for
    that viewer when its category is null or published, and is a 404 when
    its category is not published. *)
Theorem profile_posts_open_by_category {B} (s : Store)
    (request : HttpRequest B) (now : Z) (profile : User.t) (p : Post.t) :
  relational_integrity s = true ->
  ~ Spec.is_author (user request) (User.pk profile) ->
  In p (map fst (ProfileDetailView_posts s (user request) now profile)) ->
  (Spec.category_clause s p ->
   exists o, loads s p o /\
     PostDetailView_get s request now (Post.pk p)
     = Return (TemplateResponse (PostDetailView_get_context_data s o)))
  /\ (~ Spec.category_clause s p ->
      PostDetailView_get s request now (Post.pk p)
      = Raise (Http404 "This post is not available.")).
Proof.
  intros Hs Hna Hin. pose proof (relational_integrity_facts s Hs) as I.
  rewrite ProfileDetailView_posts_unfold in Hin.
  destruct (user_eqb (user request) profile) eqn:E.
  { exfalso. apply Hna. now apply (user_eqb_author _ profile _ eq_refl). }
  simpl in Hin.
  rewrite (map_filter_comm fst _
             (fun q => Post.is_published q && (Post.pub_date q <=? now)))
    in Hin by reflexivity.
  apply filter_In in Hin. destruct Hin as [Hin Hf].
  apply user_posts_In in Hin. destruct Hin as [Hp Ea].
  apply andb_prop in Hf. destruct Hf as [Hpub Hdate]. apply Z.leb_le in Hdate.
  split.
  - intros Hc. apply (PostDetailView_get_renders s request now p I Hp).
    right. now repeat split.
  - intros Hnc.
    destruct (PostDetailView_get_cases s request now p I Hp)
      as [o [_ [[[Ha|(_ & _ & Hc)] _]|[_ E404]]]].
    + exfalso. apply Hna. now rewrite <- Ea.
    + contradiction.
    + exact E404.
Qed.

Lemma profile_posts_open_by_category_demo :
  In post_E (map fst (ProfileDetailView_posts demo_store (LoggedIn alice) 100 bob))
  /\ PostDetailView_get demo_store
       (request_by (LoggedIn alice) GET PageMissing tt) 100 5
     = Raise (Http404 "This post is not available.").
Proof.
  assert (In post_E
            (map fst (ProfileDetailView_posts demo_store (LoggedIn alice) 100 bob)))
    as Hin by (simpl; tauto).
  split; [exact Hin|].
  apply (profile_posts_open_by_category demo_store
           (request_by (LoggedIn alice) GET PageMissing tt) 100 bob post_E eq_refl).
  - intros [u [[= <-] E]]. discriminate E.
  - exact Hin.
  - intros [H|[c ([<-|[<-|[]]] & E & Hpub)]]; discriminate.
Defined.

(** X15. The public index is the pages of the published categories taken
    together: a post is on the index exactly when it is on the page of some
    published category. *)
Theorem index_is_union_of_categories (s : Store) (now : Z) (p : Post.t) :
  relational_integrity s = true ->
  (In p (listed_posts (PostListView_get_queryset s now))
   <-> exists c, In c (categories s) /\ Category.is_published c = true
         /\ In p (map row (CategoryListView_get_queryset s now (Category.slug c)))).
Proof.
  intros Hs. pose proof (relational_integrity_facts s Hs) as I.
  rewrite (PostListView_queryset_In s now p I). split.
  - intros [Hp (Hpub & Hdate & c & Hc & Ecat & Hcpub)].
    exists c. split; [exact Hc|]. split; [exact Hcpub|].
    apply (CategoryListView_queryset_In s c now p I Hc).
    split; [exact Hp|]. now repeat split.
  - intros [c (Hc & Hcpub & Hin)].
    apply (CategoryListView_queryset_In s c now p I Hc) in Hin.
    destruct Hin as [Hp (Ecat & Hpub & Hdate)].
    split; [exact Hp|]. split; [exact Hpub|]. split; [exact Hdate|].
    now exists c.
Qed.

Lemma index_is_union_of_categories_demo :
  In post_A (listed_posts (PostListView_get_queryset demo_store 100))
  <-> exists c, In c (categories demo_store) /\ Category.is_published c = true
        /\ In post_A
             (map row (CategoryListView_get_queryset demo_store 100 (Category.slug c))).
Proof. exact (index_is_union_of_categories demo_store 100 post_A eq_refl). Defined.

(** X16. Time only opens pages.  While the store stays the same, a post
    that is on the public index, on a category page or on somebody's profile
    page at one instant is on it at every later one, and a detail page that
    [PostDetailView.get] renders at one instant is rendered the same at
    every later one. *)
Theorem pages_open_with_time {B} (s : Store) (request : HttpRequest B)
    (now later : Z) :
  now <= later ->
  (forall p, In p (listed_posts (PostListView_get_queryset s now)) ->
             In p (listed_posts (PostListView_get_queryset s later)))
  /\ (forall category_slug p,
        In p (map row (CategoryListView_get_queryset s now category_slug)) ->
        In p (map row (CategoryListView_get_queryset s later category_slug)))
  /\ (forall profile p,
        In p (map fst (ProfileDetailView_posts s (user request) now profile)) ->
        In p (map fst (ProfileDetailView_posts s (user request) later profile)))
  /\ (forall pk response,
        PostDetailView_get s request now pk = Return response ->
        PostDetailView_get s request later pk = Return response).
Proof.
  intros Hle.
  assert (forall d, (d <=? now) = true -> (d <=? later) = true) as Hmono
    by (intros d H; apply Z.leb_le; apply Z.leb_le in H; lia).
  split; [|split; [|split]].
  - intros p Hp. unfold listed_posts in *.
    apply in_map_iff in Hp. destruct Hp as [a [<- Ha]].
    apply (in_map (fun a : LoadedPost * nat => row (fst a))),
      (Permutation_in _ (Permutation_sym (PostListView_queryset_perm s later))).
    apply (Permutation_in _ (PostListView_queryset_perm s now)) in Ha.
    unfold annotate_comment_count in *. apply in_map_iff in Ha.
    destruct Ha as [o [<- Ho]].
    apply (in_map (fun o => (o, Count_comments s (row o)))).
    apply filter_In in Ho.
    apply filter_In. split; [tauto|]. destruct Ho as [_ Ho].
    apply andb_prop in Ho. destruct Ho as [Ho Hc].
    apply andb_prop in Ho. destruct Ho as [Hpub Hd].
    now rewrite Hpub, (Hmono _ Hd), Hc.
  - intros slug p Hp. apply in_map_iff in Hp. destruct Hp as [o [<- Ho]].
    apply in_map,
      (Permutation_in _ (Permutation_sym (CategoryListView_queryset_perm s later slug))).
    apply (Permutation_in _ (CategoryListView_queryset_perm s now slug)) in Ho.
    apply filter_In in Ho. apply filter_In. split; [tauto|]. destruct Ho as [_ Ho].
    apply andb_prop in Ho. destruct Ho as [Ho Hd].
    now rewrite Ho, (Hmono _ Hd).
  - intros profile p. rewrite !ProfileDetailView_posts_unfold.
    destruct (negb _); [|tauto].
    intros Hp. apply in_map_iff in Hp. destruct Hp as [a [<- Ha]].
    apply in_map. apply filter_In in Ha. apply filter_In. split; [tauto|].
    destruct Ha as [_ Ha]. apply andb_prop in Ha. destruct Ha as [Hpub Hd].
    now rewrite Hpub, (Hmono _ Hd).
  - intros pk response. unfold PostDetailView_get.
    destruct (get_object "Post" _ _) as [o|e]; simpl; [|discriminate].
    destruct (user_eqb (user request) (author_obj o)); simpl.
    + destruct (_ || _ || _); destruct (_ || _ || _); tauto.
    + destruct (Post.pub_date (row o) >? now) eqn:E1; simpl; [discriminate|].
      replace (Post.pub_date (row o) >? later) with false; [tauto|].
      symmetry. rewrite Z.gtb_ltb in *. apply Z.ltb_ge. apply Z.ltb_ge in E1. lia.
Qed.

Lemma pages_open_with_time_demo :
  In post_A (listed_posts (PostListView_get_queryset demo_store 2000))
  /\ PostDetailView_get demo_store
       (request_by (LoggedIn alice) GET PageMissing tt) 2000 1
     = PostDetailView_get demo_store
         (request_by (LoggedIn alice) GET PageMissing tt) 100 1.
Proof.
  destruct (pages_open_with_time demo_store
              (request_by (LoggedIn alice) GET PageMissing tt) 100 2000)
    as (Hindex & _ & _ & Hdetail); [lia|].
  split.
  - apply Hindex. simpl. tauto.
  - apply (Hdetail 1). reflexivity.
Defined.

(** ** Pages of ten *)

Lemma page_sizes {A} (l : list A) :
  let pages := Paginator.num_pages
                 {| Paginator.object_list := l; Paginator.per_page := 10 |} in
  (forall n, 1 <= n < pages -> length (Spec.page_of_ten l n) = 10%nat)
  /\ (l <> [] -> (1 <= length (Spec.page_of_ten l pages) <= 10)%nat)
  /\ (l = [] -> pages = 1).
Proof.
  intros pages. unfold pages. rewrite num_pages_ten.
  pose proof (Z.div_mod (Z.of_nat (length l) + 9) 10 ltac:(lia)) as Hdiv.
  pose proof (Z.mod_pos_bound (Z.of_nat (length l) + 9) 10 ltac:(lia)) as Hmod.
  unfold Spec.page_of_ten. split; [|split].
  - intros n Hn. rewrite length_firstn, length_skipn. lia.
  - intros Hne. rewrite length_firstn, length_skipn.
    assert (length l <> 0%nat) by (destruct l; [congruence|discriminate]). lia.
  - intros ->. reflexivity.
Qed.

(** X17. The public index is served in pages of ten: every page but the
    last holds ten posts and the last holds between one and ten; an index
    without posts is one empty page, not a 404.  A request without a page
    number gets the first page, [page=last] the last one, and any other
    text that is not a number a 404. *)
Theorem PostListView_pages {B} (s : Store) (request : HttpRequest B) (now : Z) :
  let qs := PostListView_get_queryset s now in
  let pages := Paginator.num_pages
                 {| Paginator.object_list := qs; Paginator.per_page := 10 |} in
  let served n := Return (TemplateResponse (index_html
                    {| Page.object_list := Spec.page_of_ten qs n;
                       Page.number := n; Page.num_pages := pages |})) in
  (forall n, 1 <= n < pages -> length (Spec.page_of_ten qs n) = 10%nat)
  /\ (qs <> [] -> (1 <= length (Spec.page_of_ten qs pages) <= 10)%nat)
  /\ (qs = [] -> pages = 1 /\ Spec.page_of_ten qs 1 = [])
  /\ (method request = GET ->
      (page request = PageMissing -> PostListView_as_view s request now = served 1)
      /\ (page request = PageLast ->
          PostListView_as_view s request now = served pages)
      /\ (page request = PageOther ->
          Spec.NotFound (PostListView_as_view s request now))).
Proof.
  intros qs pages served.
  destruct (page_sizes qs) as (Hfull & Hlast & Hempty). fold pages in Hfull, Hlast, Hempty.
  pose proof (num_pages_ten_pos qs) as Hpos. fold pages in Hpos.
  split; [exact Hfull|]. split; [exact Hlast|]. split.
  - intros E. split; [apply Hempty, E|]. now rewrite E.
  - intros Hm. unfold PostListView_as_view, PostListView_get. rewrite Hm.
    fold qs. split; [|split]; intros ->.
    + rewrite paginate_queryset_default.
      rewrite (proj1 (paginate_queryset_ten qs 1)) by (fold pages; lia).
      reflexivity.
    + change (paginate_queryset qs 10 PageLast)
        with (paginate_queryset qs 10 (PageInt pages)).
      rewrite (proj1 (paginate_queryset_ten qs pages)) by (fold pages; lia).
      reflexivity.
    + simpl. now eexists.
Qed.

(** ** The comment counts *)

(** X18. The comment count a post carries on the public index and on a
    profile page is the number of comments its detail page shows. *)
Theorem comment_count_matches_detail (s : Store) (viewer : RequestUser)
    (now : Z) (profile : User.t) :
  relational_integrity s = true ->
  Forall (fun a =>
            exists comments,
              PostDetailView_get_context_data s (fst a)
              = detail_html (fst a) comments
              /\ snd a = length comments)
         (PostListView_get_queryset s now)
  /\ Forall (fun a =>
               forall o, row o = fst a ->
                 exists comments,
                   PostDetailView_get_context_data s o = detail_html o comments
                   /\ snd a = length comments)
            (ProfileDetailView_posts s viewer now profile).
Proof.
  intros Hs. pose proof (relational_integrity_facts s Hs) as I.
  assert (forall p, length (select_related_author s (Post_comments s p))
                    = Count_comments s p) as Hlen.
  { intros p.
    rewrite <- (length_map fst (select_related_author s (Post_comments s p))).
    rewrite (select_related_author_fst s _ I)
      by (intros c Hc; now apply Post_comments_In in Hc).
    unfold Post_comments, order_by. now rewrite sort_by_length. }
  split.
  - pose proof (PostListView_queryset_counts s now) as Hc.
    rewrite Forall_forall in *. intros a Ha. eexists. split; [reflexivity|].
    rewrite Hlen. apply Hc, Ha.
  - pose proof (user_posts_counts s profile) as Hc.
    rewrite Forall_forall in *. intros a Ha o Eo. eexists.
    split; [reflexivity|]. rewrite Hlen, Eo. apply Hc.
    rewrite ProfileDetailView_posts_unfold in Ha.
    destruct (negb _); [apply filter_In in Ha; tauto|exact Ha].
Qed.

Lemma comment_count_matches_detail_demo :
  Forall (fun a =>
            exists comments,
              PostDetailView_get_context_data demo_store (fst a)
              = detail_html (fst a) comments
              /\ snd a = length comments)
         (PostListView_get_queryset demo_store 100).
Proof.
  exact (proj1 (comment_count_matches_detail demo_store AnonymousUser 100 bob
                  eq_refl)).
Defined.

(** ** [Post.is_visible] *)

(** X19. [Post.is_visible] is the test the profile page applies for
    somebody who is not the owner: such a viewer finds there exactly the
    posts of the user for which it holds.  The detail page asks for more: a
    post that [PostDetailView.get] renders for somebody who is not its
    author is visible in this sense. *)
Theorem is_visible_on_profile_and_detail {B} (s : Store)
    (request : HttpRequest B) (now : Z) (profile : User.t) (p : Post.t) :
  relational_integrity s = true ->
  (~ Spec.is_author (user request) (User.pk profile) ->
   (In p (map fst (ProfileDetailView_posts s (user request) now profile))
    <-> In p (posts s) /\ Post.author p = User.pk profile
        /\ Post.is_visible now p = true))
  /\ (In p (posts s) -> ~ Spec.is_author (user request) (Post.author p) ->
      forall response,
        PostDetailView_get s request now (Post.pk p) = Return response ->
        Post.is_visible now p = true).
Proof.
  intros Hs. pose proof (relational_integrity_facts s Hs) as I. split.
  - intros Hna. rewrite ProfileDetailView_posts_unfold.
    destruct (user_eqb (user request) profile) eqn:E.
    { exfalso. apply Hna. now apply (user_eqb_author _ profile _ eq_refl). }
    simpl negb. cbv iota.
    rewrite (map_filter_comm fst _ (Post.is_visible now)) by reflexivity.
    rewrite filter_In, user_posts_In. tauto.
  - intros Hp Hna response Hget.
    destruct (PostDetailView_get_cases s request now p I Hp)
      as [o [_ [[[Ha|(Hpub & Hdate & _)] _]|[_ E404]]]].
    + contradiction.
    + unfold Post.is_visible. rewrite Hpub. now apply Z.leb_le.
    + congruence.
Qed.

Lemma is_visible_on_profile_and_detail_demo :
  In post_C (posts demo_store)
  /\ Post.is_visible 100 post_C = false
  /\ ~ In post_C
         (map fst (ProfileDetailView_posts demo_store (LoggedIn alice) 100 bob)).
Proof.
  split; [simpl; tauto|]. split; [reflexivity|].
  intros Hin.
  apply (proj1 (is_visible_on_profile_and_detail demo_store
                  (request_by (LoggedIn alice) GET PageMissing tt) 100 bob post_C
                  eq_refl)) in Hin.
  - destruct Hin as (_ & _ & H). discriminate H.
  - intros [u [[= <-] E]]. discriminate E.
Defined.

(** ** Handing a post over *)

Lemma post_views_by_other {B} (s : Store) (p : Post.t)
    (edit : HttpRequest PostModelForm.data) (delete : HttpRequest B) :
  Integrity s -> In p (posts s) ->
  (~ Spec.is_author (user edit) (Post.author p) ->
   PostUpdateView_dispatch s edit (Post.pk p)
   = (Return (redirect (blog.post_detail (Post.pk p))), s))
  /\ (~ Spec.is_author (user delete) (Post.author p) ->
      PostDeleteView_dispatch s delete (Post.pk p)
      = (Return (redirect (blog.post_detail (Post.pk p))), s)).
Proof.
  intros I Hp. destruct (Post_author_found s p I Hp) as [u [Eu Hu]].
  unfold PostUpdateView_dispatch, PostDeleteView_dispatch.
  rewrite (get_post_or_404 s p I Hp). simpl. rewrite Hu. simpl.
  split; intros Hna.
  - destruct (user_eqb (user edit) u) eqn:E; [|reflexivity].
    exfalso. apply Hna. now apply (user_eqb_author _ u).
  - destruct (user_eqb (user delete) u) eqn:E; [|reflexivity].
    exfalso. apply Hna. now apply (user_eqb_author _ u).
Qed.

(** X20. The edit form of a post has every field of the post, the author
    among them.  When the author saves the post under another user, the
    post is that user's from then on: the edit and delete requests of the
    former author are redirected to the detail page like anybody else's,
    and the new author is shown the edit form. *)
Theorem post_handed_over {B} (s : Store) (p p' : Post.t)
    (edit : HttpRequest PostModelForm.data) :
  relational_integrity s = true -> In p (posts s) ->
  Spec.is_author (user edit) (Post.author p) -> method edit = POST ->
  PostModelForm.clean s p (body edit) = Some p' ->
  Post.author p' <> Post.author p ->
  let s' := snd (PostUpdateView_dispatch s edit (Post.pk p)) in
  (forall again : HttpRequest PostModelForm.data, user again = user edit ->
     PostUpdateView_dispatch s' again (Post.pk p)
     = (Return (redirect (blog.post_detail (Post.pk p))), s'))
  /\ (forall delete : HttpRequest B, user delete = user edit ->
        PostDeleteView_dispatch s' delete (Post.pk p)
        = (Return (redirect (blog.post_detail (Post.pk p))), s'))
  /\ (forall heir : HttpRequest PostModelForm.data,
        Spec.is_author (user heir) (Post.author p') -> method heir = GET ->
        PostUpdateView_dispatch s' heir (Post.pk p)
        = (Return (TemplateResponse (create_html p' false)), s')).
Proof.
  intros Hs Hp Ha Hm Hc Hne s'.
  pose proof (relational_integrity_facts s Hs) as I.
  destruct (PostModelForm_clean_Some s p p' _ Hc)
    as (Epk & _ & _ & _ & _ & _ & _ & _ & _ & Hu & [c [Hcat Ecat]] & Hl).
  assert (s' = save_post s p') as ->.
  { unfold s'. now rewrite (PostUpdateView_by_author s p edit I Hp Ha), Hm, Hc. }
  assert (Integrity (save_post s p')) as I'.
  { apply (save_post_Integrity s p' I Hu); [|exact Hl].
    intros k Ek. exists c. split; [exact Hcat|congruence]. }
  assert (In p' (posts (save_post s p'))) as Hp'
    by (apply (save_post_In s p p' p' Hp Epk); now left).
  assert (~ Spec.is_author (user edit) (Post.author p')) as Hna.
  { intros [v [Ev E']]. destruct Ha as [u [Eu E]].
    rewrite Eu in Ev. injection Ev as ->. congruence. }
  rewrite <- Epk. split; [|split].
  - intros again Eagain.
    apply (proj1 (post_views_by_other (save_post s p') p' again
                    (request_by AnonymousUser GET PageMissing tt) I' Hp')).
    now rewrite Eagain.
  - intros delete Edelete.
    apply (proj2 (post_views_by_other (save_post s p') p' edit delete I' Hp')).
    now rewrite Edelete.
  - intros heir Hheir Hget.
    now rewrite (PostUpdateView_by_author (save_post s p') p' heir I' Hp' Hheir),
      Hget.
Qed.

Lemma post_handed_over_demo :
  let s' := snd (PostUpdateView_dispatch demo_store
                   (request_by (LoggedIn bob) POST PageMissing sample_post_form) 1) in
  PostUpdateView_dispatch s'
    (request_by (LoggedIn bob) POST PageMissing sample_post_form) 1
  = (Return (redirect (blog.post_detail 1)), s').
Proof.
  assert (Spec.is_author (LoggedIn bob) (Post.author post_A)) as Ha
    by (exists bob; split; reflexivity).
  assert (PostModelForm.clean demo_store post_A sample_post_form
          = Some {| Post.pk := 1; Post.is_published := true; Post.created_at := 0;
                    Post.title := "Hijacked"; Post.text := "Rewritten";
                    Post.pub_date := 5; Post.image := ""; Post.author := 1;
                    Post.location := None; Post.category := Some 1 |}) as Hc
    by reflexivity.
  destruct (post_handed_over (B := unit) demo_store post_A _
              (request_by (LoggedIn bob) POST PageMissing sample_post_form)
              eq_refl (or_introl eq_refl) Ha eq_refl Hc) as (Hagain & _).
  - discriminate.
  - apply (Hagain (request_by (LoggedIn bob) POST PageMissing sample_post_form)
             eq_refl).
Defined.

(** ** blog/urls.py *)

Lemma string_of_uint_digits (d : Decimal.uint) :
  forallb urls.is_digit
    (list_ascii_of_string (DecimalString.NilEmpty.string_of_uint d)) = true.
Proof. induction d; simpl; try rewrite IHd; reflexivity. Qed.

Lemma string_of_uint_nonempty (d : Decimal.uint) :
  d <> Decimal.Nil ->
  String.eqb (DecimalString.NilEmpty.string_of_uint d) "" = false.
Proof. destruct d; [congruence|..]; reflexivity. Qed.

Lemma Z_to_int_nonneg (pk : Z) :
  0 <= pk ->
  exists d, d <> Decimal.Nil /\ Z.to_int pk = Decimal.Pos d
            /\ urls.int_to_url pk = DecimalString.NilEmpty.string_of_uint d.
Proof.
  intros H. destruct pk as [|p|p]; [| |lia].
  - exists (Decimal.D0 Decimal.Nil). repeat split. discriminate.
  - exists (Pos.to_uint p).
    pose proof (DecimalPos.Unsigned.to_uint_nonnil p) as Hn.
    split; [exact Hn|]. split; [reflexivity|].
    unfold urls.int_to_url. simpl.
    destruct (Pos.to_uint p); [congruence|..]; reflexivity.
Qed.

(** The [int] converter takes the text of a key that is not negative back
    to the key, and [reverse] has no text for a negative one. *)
Lemma int_converter_round_trip (pk : Z) :
  (0 <= pk -> urls.int_arg (urls.int_to_url pk) = Some pk)
  /\ (urls.int_regex (urls.int_to_url pk) = true <-> 0 <= pk).
Proof.
  assert (0 <= pk -> urls.int_regex (urls.int_to_url pk) = true
                     /\ urls.int_to_python (urls.int_to_url pk) = Some pk) as Hpos.
  { intros H. destruct (Z_to_int_nonneg pk H) as [d (Hd & Ed & ->)].
    unfold urls.int_regex, urls.one_or_more, urls.int_to_python.
    rewrite (string_of_uint_nonempty d Hd), string_of_uint_digits.
    split; [reflexivity|].
    rewrite DecimalString.NilEmpty.usu. simpl. f_equal.
    change (Z.of_uint d) with (Z.of_int (Decimal.Pos d)).
    rewrite <- Ed. apply DecimalZ.of_to. }
  split.
  - intros H. unfold urls.int_arg. destruct (Hpos H) as [-> Hp]. exact Hp.
  - split; [|intros H; apply Hpos, H].
    destruct pk as [|p|p]; [lia|lia|]. discriminate.
Qed.

Lemma of_uint_nonneg (d : Decimal.uint) : 0 <= Z.of_uint d.
Proof. unfold Z.of_uint. apply N2Z.is_nonneg. Qed.

Lemma int_arg_Some (v : string) (pk : Z) :
  urls.int_arg v = Some pk ->
  0 <= pk /\ urls.int_regex (urls.int_to_url pk) = true.
Proof.
  unfold urls.int_arg, urls.int_to_python.
  destruct (urls.int_regex v); [|discriminate].
  destruct (DecimalString.NilEmpty.uint_of_string v) as [d|]; [|discriminate].
  simpl. intros [= <-].
  split; [apply of_uint_nonneg|apply int_converter_round_trip, of_uint_nonneg].
Qed.

Lemma slug_arg_Some (v w : string) :
  urls.slug_arg v = Some w -> w = v /\ urls.slug_regex v = true.
Proof.
  unfold urls.slug_arg. destruct (urls.slug_regex v); [|discriminate].
  now intros [= <-].
Qed.

Lemma int_arg_of_fits (pk : Z) :
  urls.int_regex (urls.int_to_url pk) = true ->
  urls.int_arg (urls.int_to_url pk) = Some pk.
Proof.
  intros H. apply int_converter_round_trip. now apply int_converter_round_trip.
Qed.

Lemma resolve_candidate (route : blog.Route) :
  urls.fits route = true ->
  urls.resolve (urls.candidate route)
  = Some match route with
         | blog.profile username =>
             if String.eqb username "edit" then blog.edit_profile else route
         | _ => route
         end.
Proof.
  intros Hfits.
  destruct route as [|pk|pk cid|pk cid|pk|pk|pk| |slug| |username];
    cbn [urls.fits] in Hfits; try reflexivity.
  - apply int_arg_of_fits in Hfits.
    unfold urls.resolve, urls.candidate. simpl. now rewrite Hfits.
  - apply andb_prop in Hfits. destruct Hfits as [H1 H2].
    apply int_arg_of_fits in H1. apply int_arg_of_fits in H2.
    unfold urls.resolve, urls.candidate. simpl. now rewrite H1, H2.
  - apply andb_prop in Hfits. destruct Hfits as [H1 H2].
    apply int_arg_of_fits in H1. apply int_arg_of_fits in H2.
    unfold urls.resolve, urls.candidate. simpl. now rewrite H1, H2.
  - apply int_arg_of_fits in Hfits.
    unfold urls.resolve, urls.candidate. simpl. now rewrite Hfits.
  - apply int_arg_of_fits in Hfits.
    unfold urls.resolve, urls.candidate. simpl. now rewrite Hfits.
  - apply int_arg_of_fits in Hfits.
    unfold urls.resolve, urls.candidate. simpl. now rewrite Hfits.
  - assert (urls.slug_arg slug = Some slug) as E
      by (unfold urls.slug_arg; now rewrite Hfits).
    unfold urls.resolve, urls.candidate. cbn -[urls.slug_arg]. now rewrite E.
  - assert (urls.slug_arg username = Some username) as E
      by (unfold urls.slug_arg; now rewrite Hfits).
    unfold urls.resolve, urls.candidate. cbn -[urls.slug_arg String.eqb].
    change (String.eqb "profile" "posts") with false.
    change (String.eqb "profile" "category") with false.
    change (String.eqb "profile" "profile") with true.
    cbn -[urls.slug_arg String.eqb].
    destruct (String.eqb username "edit"); [reflexivity|]. now rewrite E.
Qed.

Lemma resolve_fits (path : urls.Path) (route : blog.Route) :
  urls.resolve path = Some route ->
  urls.fits route = true /\ route <> blog.profile "edit".
Proof.
  unfold urls.resolve.
  destruct path as [|a [|b [|c [|d [|e rest]]]]];
    cbn -[urls.int_arg urls.slug_arg String.eqb];
    try discriminate;
    repeat match goal with
           | |- context [String.eqb ?x ?y] =>
               destruct (String.eqb_spec x y);
               try congruence; subst;
               cbn -[urls.int_arg urls.slug_arg String.eqb]
           | |- context [urls.int_arg ?v] =>
               let E := fresh "E" in
               destruct (urls.int_arg v) eqn:E;
               cbn -[urls.int_arg urls.slug_arg String.eqb]
           | |- context [urls.slug_arg ?v] =>
               let E := fresh "E" in
               destruct (urls.slug_arg v) eqn:E;
               cbn -[urls.int_arg urls.slug_arg String.eqb]
           end;
    try discriminate; intros [= <-]; cbn [urls.fits];
    repeat match goal with
           | H : urls.int_arg _ = Some _ |- _ =>
               apply int_arg_Some in H; destruct H as [_ H]
           | H : urls.slug_arg _ = Some _ |- _ =>
               apply slug_arg_Some in H; destruct H as [-> H]
           end;
    (split; [|congruence]);
    repeat match goal with
           | H : _ = true |- _ => rewrite H
           end; reflexivity.
Qed.

(** X21. Reversing a route and resolving the address gives the route
    back, with one exception: the address of the profile of a user called
    [edit] is the address of the profile form, which comes first in
    [urlpatterns].  [reverse] fails exactly when a key is negative or when a
    category slug or user name does not fit the slug converter. *)
Theorem reverse_then_resolve (route : blog.Route) :
  (forall path, urls.reverse route = Some path ->
     urls.resolve path
     = Some match route with
            | blog.profile username =>
                if String.eqb username "edit" then blog.edit_profile else route
            | _ => route
            end)
  /\ (urls.reverse route = None
      <-> match route with
          | blog.index | blog.create_post | blog.edit_profile => False
          | blog.delete_post pk | blog.edit_post pk | blog.add_comment pk
          | blog.post_detail pk => pk < 0
          | blog.edit_comment pk comment_id
          | blog.delete_comment pk comment_id => pk < 0 \/ comment_id < 0
          | blog.category_posts v | blog.profile v => urls.slug_regex v = false
          end).
Proof.
  split.
  - intros path. unfold urls.reverse.
    destruct (urls.fits route) eqn:Hfits; [|discriminate].
    intros [= <-]. apply (resolve_candidate route Hfits).
  - assert (forall pk, urls.int_regex (urls.int_to_url pk) = false <-> pk < 0)
      as Hint.
    { intros pk. pose proof (proj2 (int_converter_round_trip pk)) as H.
      destruct (urls.int_regex (urls.int_to_url pk)).
      - split; [discriminate|]. intros Hneg.
        assert (0 <= pk) by (now apply H). lia.
      - split; [|reflexivity]. intros _.
        destruct (Z.lt_ge_cases pk 0) as [Hneg|Hpos]; [exact Hneg|].
        apply H in Hpos. discriminate. }
    unfold urls.reverse.
    destruct route as [|pk|pk cid|pk cid|pk|pk|pk| |slug| |username];
      cbn [urls.fits];
      try (split; [discriminate|intros []]);
      try (rewrite <- (Hint pk);
           destruct (urls.int_regex (urls.int_to_url pk));
           split; congruence).
    + rewrite <- (Hint pk), <- (Hint cid).
      destruct (urls.int_regex (urls.int_to_url pk)),
        (urls.int_regex (urls.int_to_url cid)); simpl;
        split; try congruence; try tauto; intros [H|H]; discriminate H.
    + rewrite <- (Hint pk), <- (Hint cid).
      destruct (urls.int_regex (urls.int_to_url pk)),
        (urls.int_regex (urls.int_to_url cid)); simpl;
        split; try congruence; try tauto; intros [H|H]; discriminate H.
    + destruct (urls.slug_regex slug); split; congruence.
    + destruct (urls.slug_regex username); split; congruence.
Qed.

(** X22. Every route the patterns give for an address can be reversed,
    and the reversed address resolves to that same route: the keys a view
    is called with are never negative, category slugs and user names fit
    the slug converter, and no address at all leads to the profile of a
    user called [edit]. *)
Theorem resolve_then_reverse (path : urls.Path) (route : blog.Route) :
  urls.resolve path = Some route ->
  route <> blog.profile "edit"
  /\ exists path', urls.reverse route = Some path'
                   /\ urls.resolve path' = Some route.
Proof.
  intros H. destruct (resolve_fits path route H) as [Hfits Hne].
  split; [exact Hne|]. exists (urls.candidate route).
  unfold urls.reverse. rewrite Hfits. split; [reflexivity|].
  rewrite (resolve_candidate route Hfits).
  destruct route as [| | | | | | | | | |username]; try reflexivity.
  destruct (String.eqb_spec username "edit"); [congruence|reflexivity].
Qed.

Lemma resolve_then_reverse_demo :
  urls.resolve ["posts"; "007"; "edit"]%string = Some (blog.edit_post 7)
  /\ blog.edit_post 7 <> blog.profile "edit"
  /\ exists path', urls.reverse (blog.edit_post 7) = Some path'
                   /\ urls.resolve path' = Some (blog.edit_post 7).
Proof.
  split; [reflexivity|].
  apply (resolve_then_reverse ["posts"; "007"; "edit"]%string). reflexivity.
Defined.

Example profile_of_edit_is_shadowed :
  urls.reverse (blog.profile "edit") = Some ["profile"; "edit"]%string
  /\ urls.resolve ["profile"; "edit"]%string = Some blog.edit_profile
  /\ urls.reverse (blog.profile "al.ice") = None
  /\ urls.resolve ["posts"; "create"]%string = Some blog.create_post
  /\ urls.resolve ["posts"; "-1"]%string = None.
Proof. repeat split. Qed.
